(** * lines2anki: the batch importer and its settings dialog

    A shallow embedding of [lines2anki/__init__.py].  Python [str] values are
    [string]s (a text is held by the bytes of its UTF-8 encoding; every
    character the add-on inspects -- brackets, colons, digits, dots, spaces,
    ASCII letters -- is a single byte there).  Code that can raise returns in
    an error monad over an explicit world (working directory, media store,
    collection); the host application, the Python library codecs and the
    random and time sources are collected in one interface, [Platform]. *)

From Stdlib Require Import String Ascii List ZArith Lia Bool Arith DecimalString.
From Stdlib Require DecimalNat.
Import ListNotations.
Open Scope string_scope.

(** ** Strings *)

Module Str.

(** [s[1:]] *)
Definition tail (s : string) : string :=
  match s with
  | EmptyString => EmptyString
  | String _ s' => s'
  end.

(** [s[n:]] *)
Fixpoint drop (n : nat) (s : string) : string :=
  match n, s with
  | O, _ => s
  | S n', String _ s' => drop n' s'
  | S _, EmptyString => EmptyString
  end.

(** [s[:n]] *)
Fixpoint take (n : nat) (s : string) : string :=
  match n, s with
  | S n', String c s' => String c (take n' s')
  | _, _ => EmptyString
  end.

Fixpoint map (f : ascii -> ascii) (s : string) : string :=
  match s with
  | EmptyString => EmptyString
  | String c s' => String (f c) (map f s')
  end.

Fixpoint forallb (p : ascii -> bool) (s : string) : bool :=
  match s with
  | EmptyString => true
  | String c s' => p c && forallb p s'
  end.

Fixpoint existsb (p : ascii -> bool) (s : string) : bool :=
  match s with
  | EmptyString => false
  | String c s' => p c || existsb p s'
  end.

(** [str.rfind(c)]: the index of the last occurrence. *)
Fixpoint rfind (c : ascii) (s : string) : option nat :=
  match s with
  | EmptyString => None
  | String a s' =>
      match rfind c s' with
      | Some i => Some (S i)
      | None => if Ascii.eqb a c then Some O else None
      end
  end.

(** [str(n)] for a non-negative integer. *)
Definition of_nat (n : nat) : string := NilEmpty.string_of_uint (Nat.to_uint n).

(** [x in xs] for a tuple or list of strings. *)
Definition mem (x : string) (xs : list string) : bool :=
  List.existsb (String.eqb x) xs.

End Str.

(** ** Regular expressions, as far as the add-on uses them

    The one pattern of the add-on is built from literal characters,
    [[class]+] and concatenation.  [matchk] is a backtracking matcher in the
    order of Python's [re]: a [+] takes as many characters as it can and
    gives them back one at a time while the rest of the pattern fails. *)

Module Re.

Inductive regex : Type :=
| Lit (c : ascii)
| Plus (cls : ascii -> bool)
| Cat (r1 r2 : regex).

Fixpoint plusk (cls : ascii -> bool) (s : string)
         (k : string -> option string) : option string :=
  match s with
  | EmptyString => None
  | String c s' =>
      if cls c then
        match plusk cls s' k with
        | Some r => Some r
        | None => k s'
        end
      else None
  end.

Fixpoint matchk (r : regex) (s : string)
         (k : string -> option string) : option string :=
  match r with
  | Lit c =>
      match s with
      | String a s' => if Ascii.eqb a c then k s' else None
      | EmptyString => None
      end
  | Plus cls => plusk cls s k
  | Cat r1 r2 => matchk r1 s (fun s' => matchk r2 s' k)
  end.

(** A match anchored at the start of [s]: the text left after it. *)
Definition match_at (r : regex) (s : string) : option string :=
  matchk r s Some.

(** [re.sub(r, '', s)]: scan from the left; where the pattern matches, drop
    the match and go on behind it, otherwise keep the character.  An empty
    match replaced by the empty string changes nothing.  [fuel] bounds the
    number of steps; [length s] is enough. *)
Fixpoint sub_loop (r : regex) (fuel : nat) (s : string) : string :=
  match fuel with
  | O => EmptyString
  | S fuel' =>
      match s with
      | EmptyString => EmptyString
      | String c s' =>
          match match_at r s with
          | Some rest =>
              if (String.length rest <? String.length s)%nat
              then sub_loop r fuel' rest
              else String c (sub_loop r fuel' s')
          | None => String c (sub_loop r fuel' s')
          end
      end
  end.

Definition sub_empty (r : regex) (s : string) : string :=
  sub_loop r (String.length s) s.

(** The language of a pattern. *)
Inductive matches : regex -> string -> Prop :=
| matches_lit c : matches (Lit c) (String c EmptyString)
| matches_plus cls t :
    t <> EmptyString -> Str.forallb cls t = true -> matches (Plus cls) t
| matches_cat r1 r2 t1 t2 :
    matches r1 t1 -> matches r2 t2 -> matches (Cat r1 r2) (t1 ++ t2).

End Re.

(** ** The timestamp pattern  [\[[0-9]+:[0-9]+:[0-9]+\]] *)

Definition is_digit (c : ascii) : bool :=
  ((48 <=? nat_of_ascii c) && (nat_of_ascii c <=? 57))%nat.

Definition TIMESTAMP : Re.regex :=
  Re.Cat (Re.Lit "[")
    (Re.Cat (Re.Plus is_digit)
       (Re.Cat (Re.Lit ":")
          (Re.Cat (Re.Plus is_digit)
             (Re.Cat (Re.Lit ":")
                (Re.Cat (Re.Plus is_digit) (Re.Lit "]")))))).

(** [re.sub(r'\[[0-9]+:[0-9]+:[0-9]+\]', '', text)] *)
Definition strip_timestamps (text : string) : string :=
  Re.sub_empty TIMESTAMP text.

(** What one pass is meant to do: read the text from the left, drop a
    timestamp wherever one starts, keep any other character. *)
Inductive Strips : string -> string -> Prop :=
| Strips_nil : Strips EmptyString EmptyString
| Strips_token t s s' :
    Re.matches TIMESTAMP t -> Strips s s' -> Strips (t ++ s) s'
| Strips_keep c s s' :
    (forall t r, Re.matches TIMESTAMP t -> String c s <> t ++ r) ->
    Strips s s' -> Strips (String c s) (String c s').

(** A timestamp occurs somewhere in [s]. *)
Definition has_timestamp (s : string) : Prop :=
  exists a t b, Re.matches TIMESTAMP t /\ s = a ++ t ++ b.

(** ** Library functions the add-on calls *)

(** [str.lower()] on the ASCII letters; any other byte is left as it is. *)
Definition lower_ascii (c : ascii) : ascii :=
  let n := nat_of_ascii c in
  if ((65 <=? n) && (n <=? 90))%nat then ascii_of_nat (n + 32) else c.

Definition lower (s : string) : string := Str.map lower_ascii s.

(** [str.replace(a, b)] for single characters. *)
Definition replace_char (a b : ascii) (s : string) : string :=
  Str.map (fun c => if Ascii.eqb c a then b else c) s.

(** [os.path.splitext] on a directory entry (an entry name holds no path
    separator): split at the last dot, unless only dots come before it. *)
Definition splitext (p : string) : string * string :=
  match Str.rfind "." p with
  | Some dotIndex =>
      if Str.existsb (fun c => negb (Ascii.eqb c ".")) (Str.take dotIndex p)
      then (Str.take dotIndex p, Str.drop dotIndex p)
      else (p, EmptyString)
  | None => (p, EmptyString)
  end.

(** [os.path.basename] of a path written with forward slashes. *)
Definition basename (p : string) : string :=
  match Str.rfind "/" p with
  | Some i => Str.drop (S i) p
  | None => p
  end.

(** The byte order mark that the [utf-8-sig] codec skips. *)
Definition BOM_UTF8 : string :=
  String (ascii_of_nat 239) (String (ascii_of_nat 187)
    (String (ascii_of_nat 191) EmptyString)).

Definition skip_bom (raw : string) : string :=
  if String.prefix BOM_UTF8 raw then Str.drop 3 raw else raw.

(** ** Exceptions *)

Inductive exn : Type :=
| ValueError
| UnicodeDecodeError
| JSONDecodeError
| IndexError
| KeyError
| TypeError
| AttributeError
| FileNotFoundError
| SameFileError.

(** [except ValueError] also catches the subclasses of [ValueError]. *)
Definition is_ValueError (e : exn) : bool :=
  match e with
  | ValueError | UnicodeDecodeError | JSONDecodeError => true
  | _ => false
  end.

(** [except EnvironmentError], that is [OSError] and its subclasses. *)
Definition is_EnvironmentError (e : exn) : bool :=
  match e with
  | FileNotFoundError | SameFileError => true
  | _ => false
  end.

Inductive result (A : Type) : Type :=
| Ok (a : A)
| Raise (e : exn).
Arguments Ok {A} a.
Arguments Raise {A} e.

(** ** Python containers *)

(** [xs[i]] with Python's negative indices. *)
Definition py_getitem {A : Type} (xs : list A) (i : Z) : result A :=
  let n := Z.of_nat (List.length xs) in
  let j := (if i <? 0 then i + n else i)%Z in
  if ((j <? 0) || (n <=? j))%Z then Raise IndexError
  else match nth_error xs (Z.to_nat j) with
       | Some x => Ok x
       | None => Raise IndexError
       end.

(** [xs.index(x)] *)
Fixpoint list_index (x : string) (xs : list string) : result nat :=
  match xs with
  | [] => Raise ValueError
  | y :: ys =>
      if String.eqb y x then Ok O
      else match list_index x ys with
           | Ok k => Ok (S k)
           | Raise e => Raise e
           end
  end.

(** A [dict] with string keys, in insertion order. *)
Definition dict (V : Type) : Type := list (string * V).

Fixpoint dict_get {V : Type} (d : dict V) (k : string) : option V :=
  match d with
  | [] => None
  | (k', v) :: d' => if String.eqb k' k then Some v else dict_get d' k
  end.

(** [d[k] = v] *)
Fixpoint dict_set {V : Type} (d : dict V) (k : string) (v : V) : dict V :=
  match d with
  | [] => [(k, v)]
  | (k', v') :: d' =>
      if String.eqb k' k then (k', v) :: d' else (k', v') :: dict_set d' k v
  end.

(** ** JSON documents *)

#[local] Set Warnings "-register-all".
Inductive json : Type :=
| JNull
| JBool (b : bool)
| JNum (z : Z)
| JStr (s : string)
| JArr (xs : list json)
| JObj (kvs : list (string * json)).

(** [d.get(key, default)] on the document that [json.load] returned. *)
Definition json_get (d : json) (key : string) (default : json) : result json :=
  match d with
  | JObj kvs =>
      match dict_get kvs key with
      | Some v => Ok v
      | None => Ok default
      end
  | _ => Raise AttributeError
  end.

(** The add-on uses a loaded value at one type; a value of another type
    raises at that use. *)
Definition as_str (j : json) : result string :=
  match j with
  | JStr s => Ok s
  | _ => Raise TypeError
  end.

Fixpoint as_int_items (kvs : list (string * json)) : result (dict Z) :=
  match kvs with
  | [] => Ok []
  | (k, JNum z) :: kvs' =>
      match as_int_items kvs' with
      | Ok d => Ok ((k, z) :: d)
      | Raise e => Raise e
      end
  | _ => Raise TypeError
  end.

Definition as_field_map (j : json) : result (dict Z) :=
  match j with
  | JObj kvs => as_int_items kvs
  | _ => Raise TypeError
  end.

Definition of_field_map (d : dict Z) : json :=
  JObj (List.map (fun kv => (fst kv, JNum (snd kv))) d).
#[local] Set Warnings "register-all".

(** ** The host: notes, the platform interface and the world *)

(** An Anki note: its note type, the deck its cards go to, one value per
    field of the note type, and its tags. *)
Record Note : Type := mkNote {
  note_model : string;
  note_did : string;
  note_fields : dict string;
  note_tags : list string
}.

(** What the add-on takes from outside the repository: the media type lists
    of [aqt.editor], the clock, the random source, the host's card
    generation, and the codecs of the Python library. *)
Class Platform : Type := {
  (** [editor.audio] and [editor.pics] *)
  AUDIO_TYPES : list string;
  IMAGE_TYPES : list string;
  (** [str(time.time())] at the n-th reading of the clock *)
  time_str : nat -> string;
  (** the n-th draw of the random source *)
  rand_draw : nat -> nat;
  (** the number of cards the collection generates for a note *)
  cards_generated : Note -> nat;
  (** strict UTF-8 decoding of a file's bytes, as a text-mode [read] does *)
  utf_8_decode : string -> option string;
  (** [json.loads] and [json.dumps] *)
  json_loads : string -> option json;
  json_dumps : json -> string
}.

Record World : Type := mkWorld {
  (** the file at [SETTINGS_JSON_PATH], if there is one *)
  settings_json : option string;
  (** the paths for which [os.path.exists] holds *)
  paths : list string;
  (** [Path.home()] *)
  home : string;
  (** [mw.col.decks]: the deck names and the current deck *)
  decks : list string;
  current_deck : string;
  (** [mw.col.models]: each note type with its field names, and the current one *)
  models : dict (list string);
  current_model : string;
  (** the files of the source directory, name and bytes, in listing order *)
  files : dict string;
  (** the files handed to [mw.col.media.addFile], oldest first *)
  media : list (string * string);
  (** the notes of the collection, oldest first *)
  col_notes : list Note;
  (** every note handed to [mw.col.addNote] with the card count it returned *)
  submitted : list (Note * nat);
  (** how often the clock and the random source were read *)
  clock : nat;
  draws : nat
}.

Definition set_settings_json (v : option string) (w : World) : World :=
  mkWorld v (paths w) (home w) (decks w) (current_deck w) (models w)
    (current_model w) (files w) (media w) (col_notes w) (submitted w)
    (clock w) (draws w).

Definition set_files (v : dict string) (w : World) : World :=
  mkWorld (settings_json w) (paths w) (home w) (decks w) (current_deck w)
    (models w) (current_model w) v (media w) (col_notes w) (submitted w)
    (clock w) (draws w).

Definition set_media (v : list (string * string)) (w : World) : World :=
  mkWorld (settings_json w) (paths w) (home w) (decks w) (current_deck w)
    (models w) (current_model w) (files w) v (col_notes w) (submitted w)
    (clock w) (draws w).

Definition set_notes (ns : list Note) (sub : list (Note * nat)) (w : World)
  : World :=
  mkWorld (settings_json w) (paths w) (home w) (decks w) (current_deck w)
    (models w) (current_model w) (files w) (media w) ns sub
    (clock w) (draws w).

Definition set_clock (v : nat) (w : World) : World :=
  mkWorld (settings_json w) (paths w) (home w) (decks w) (current_deck w)
    (models w) (current_model w) (files w) (media w) (col_notes w)
    (submitted w) v (draws w).

Definition set_draws (v : nat) (w : World) : World :=
  mkWorld (settings_json w) (paths w) (home w) (decks w) (current_deck w)
    (models w) (current_model w) (files w) (media w) (col_notes w)
    (submitted w) (clock w) v.

(** ** The monad of the add-on's code: a world and exceptions *)

Definition M (A : Type) : Type := World -> result (A * World).

Definition ret {A : Type} (a : A) : M A := fun w => Ok (a, w).

Definition bind {A B : Type} (m : M A) (k : A -> M B) : M B :=
  fun w =>
    match m w with
    | Ok (a, w') => k a w'
    | Raise e => Raise e
    end.

Definition raise {A : Type} (e : exn) : M A := fun _ => Raise e.

Definition lift {A : Type} (r : result A) : M A :=
  fun w =>
    match r with
    | Ok a => Ok (a, w)
    | Raise e => Raise e
    end.

(** [try: body  except <catches>: handler].  Both [try] blocks of the add-on
    only read the world, so the handler starts from the world at the [try]. *)
Definition try_except {A : Type} (body : M A) (catches : exn -> bool)
           (handler : M A) : M A :=
  fun w =>
    match body w with
    | Ok r => Ok r
    | Raise e => if catches e then handler w else Raise e
    end.

Declare Scope monad_scope.
Delimit Scope monad_scope with monad.
Notation "x <- m ;; k" := (bind m (fun x => k))
  (at level 61, m at next level, right associativity) : monad_scope.
Notation "m ;;; k" := (bind m (fun _ => k))
  (at level 61, right associativity) : monad_scope.
Open Scope monad_scope.

(** ** Files, media and the collection *)

Section Importer.

Context {P : Platform}.

(** [str(time.time())] *)
Definition time_time : M string :=
  fun w => Ok (time_str (clock w), set_clock (S (clock w)) w).

(** [random.choice(xs)] for a non-empty list. *)
Definition random_choice (xs : list string) : M string :=
  fun w =>
    match nth_error xs (rand_draw (draws w) mod List.length xs) with
    | Some x => Ok (x, set_draws (S (draws w)) w)
    | None => Raise IndexError
    end.

(** [os.chdir(path)] followed by [os.listdir(path)]: the world holds the
    files of the one directory the import works in. *)
Definition os_chdir (path : string) : M unit :=
  fun w => if Str.mem path (paths w) then Ok (tt, w) else Raise FileNotFoundError.

Definition os_listdir : M (list string) :=
  fun w => Ok (List.map fst (files w), w).

(** [os.path.exists(path)]; the empty path never exists. *)
Definition os_path_exists (path : string) : M bool :=
  fun w =>
    Ok (if String.eqb path EmptyString then false else Str.mem path (paths w),
        w).

(** [open(name).read()] in binary *)
Definition read_bytes (name : string) : M string :=
  fun w =>
    match dict_get (files w) name with
    | Some raw => Ok (raw, w)
    | None => Raise FileNotFoundError
    end.

(** [shutil.copyfile(src, dst)] *)
Definition copyfile (src dst : string) : M unit :=
  fun w =>
    match dict_get (files w) src with
    | None => Raise FileNotFoundError
    | Some raw =>
        if String.eqb src dst then Raise SameFileError
        else Ok (tt, set_files (dict_set (files w) dst raw) w)
    end.

Fixpoint remove_entry (name : string) (fs : dict string) : dict string :=
  match fs with
  | [] => []
  | (n, raw) :: fs' =>
      if String.eqb n name then fs' else (n, raw) :: remove_entry name fs'
  end.

(** [os.remove(name)] *)
Definition os_remove (name : string) : M unit :=
  fun w =>
    match dict_get (files w) name with
    | None => Raise FileNotFoundError
    | Some _ => Ok (tt, set_files (remove_entry name (files w)) w)
    end.

(** [mw.col.media.addFile(name)]: the host reads the file and stores it; how
    the host names a file whose name is taken is the host's business, the
    add-on ignores the returned name. *)
Definition media_addFile (name : string) : M unit :=
  fun w =>
    match dict_get (files w) name with
    | None => Raise FileNotFoundError
    | Some raw => Ok (tt, set_media (media w ++ [(name, raw)]) w)
    end.

(** [mw.col.decks.byName(name)] *)
Definition decks_byName (name : string) : M (option string) :=
  fun w => Ok (if Str.mem name (decks w) then Some name else None, w).

(** [mw.col.models.byName(name)]: the field names of the note type. *)
Definition models_byName (name : string) : M (option (list string)) :=
  fun w => Ok (dict_get (models w) name, w).

(** [notes.Note(mw.col, model)] followed by [note.model()['did'] = deck['id']] *)
Definition new_note (model_name : string) (model : option (list string))
           (deck : option string) : M Note :=
  match model with
  | None => raise TypeError
  | Some flds =>
      match deck with
      | None => raise TypeError
      | Some did =>
          ret (mkNote model_name did
                 (List.map (fun f => (f, EmptyString)) flds) [])
      end
  end.

(** [note[field] = data] *)
Definition note_setitem (note : Note) (field data : string) : M Note :=
  match dict_get (note_fields note) field with
  | None => raise KeyError
  | Some _ =>
      ret (mkNote (note_model note) (note_did note)
             (dict_set (note_fields note) field data) (note_tags note))
  end.

(** [note.tags.append(tags)] *)
Definition note_add_tag (note : Note) (tags : string) : Note :=
  mkNote (note_model note) (note_did note) (note_fields note)
    (note_tags note ++ [tags]).

(** [mw.col.addNote(note)]: the number of cards generated; a note without
    cards is not added. *)
Definition col_addNote (note : Note) : M nat :=
  fun w =>
    let n := cards_generated note in
    Ok (n, set_notes
             (if Nat.eqb n 0 then col_notes w else col_notes w ++ [note])
             (submitted w ++ [(note, n)]) w).

(** ** The importer *)

Definition SUB_TYPES : list string := ["lrc"].

Definition FILL_NOTHING : string := EmptyString.
Definition FILL_FILENAME : string := "File Name".
Definition FILL_PROV : string := "Provenance".
Definition FILL_AUDIO : string := "Audio".
Definition FILL_LINE : string := "Subtitle".
Definition FILL_IMAGE : string := "Random Image".
Definition FILLING_OPTIONS : list string :=
  [FILL_NOTHING; FILL_FILENAME; FILL_PROV; FILL_AUDIO; FILL_LINE; FILL_IMAGE].

Inductive Role : Type := Audio | Subtitle | Image | Ignored.

(** The role the classification loop gives to a directory entry. *)
Definition role (f : string) : Role :=
  let '(file_root, ext) := splitext f in
  let _ext := lower (Str.tail ext) in
  if Str.mem _ext AUDIO_TYPES then Audio
  else if Str.mem _ext SUB_TYPES then Subtitle
  else if Str.mem _ext IMAGE_TYPES then Image
  else Ignored.

(** The three lists the classification loop fills. *)
Record Classified : Type := mkClassified {
  audio_files : list (string * string);
  std_image_files : list string;
  sub_files : list (string * string)
}.

(** One round of [for f in file_names]. *)
Definition classify_file (std_prefix f : string) (c : Classified)
  : M Classified :=
  let '(file_root, ext) := splitext f in
  let _ext := lower (Str.tail ext) in
  if Str.mem _ext AUDIO_TYPES then
    ret (mkClassified (audio_files c ++ [(file_root, ext)])
           (std_image_files c) (sub_files c))
  else if Str.mem _ext SUB_TYPES then
    ret (mkClassified (audio_files c) (std_image_files c)
           (sub_files c ++ [(file_root, ext)]))
  else if Str.mem _ext IMAGE_TYPES then
    t <- time_time ;;
    let std_name := std_prefix ++ ".image-" ++ t ++ ext in
    copyfile f std_name ;;;
    ret (mkClassified (audio_files c) (std_image_files c ++ [std_name])
           (sub_files c))
  else ret c.

Fixpoint classify (std_prefix : string) (file_names : list string)
         (c : Classified) : M Classified :=
  match file_names with
  | [] => ret c
  | f :: rest =>
      c' <- classify_file std_prefix f c ;;
      classify std_prefix rest c'
  end.

(** [open(name, mode='r', encoding='utf-8-sig').read()] *)
Definition read_text_utf_8_sig (name : string) : M string :=
  raw <- read_bytes name ;;
  match utf_8_decode (skip_bom raw) with
  | Some text => ret text
  | None => raise UnicodeDecodeError
  end.

(** The [try] block that fetches the subtitle of the audio file [root]. *)
Definition subtitle_line (root : string) (sub_files : list (string * string))
  : M string :=
  try_except
    (k <- lift (list_index root (List.map fst sub_files)) ;;
     sub_ext <- lift (py_getitem (List.map snd sub_files) (Z.of_nat k)) ;;
     text <- read_text_utf_8_sig (root ++ sub_ext) ;;
     ret (strip_timestamps text))
    is_ValueError
    (ret EmptyString).

(** [u'[sound:%s]' % name] *)
Definition sound_tag (name : string) : string := "[sound:" ++ name ++ "]".

(** [u'<img src="%s">' % name] *)
Definition img_tag (name : string) : string :=
  "<img src=" ++ String (ascii_of_nat 34) name
    ++ String (ascii_of_nat 34) ">".

(** The value for one field; [None] stands for [continue]. *)
Definition field_data (opt std_root prov line : string)
           (std_image_files : list string) : M (option string) :=
  if String.eqb opt FILL_NOTHING then ret None
  else if String.eqb opt FILL_FILENAME then ret (Some std_root)
  else if String.eqb opt FILL_PROV then ret (Some prov)
  else if String.eqb opt FILL_AUDIO then ret (Some (sound_tag std_root))
  else if String.eqb opt FILL_LINE then ret (Some line)
  else if String.eqb opt FILL_IMAGE then
    match std_image_files with
    | [] => ret (Some EmptyString)
    | _ :: _ =>
        image <- random_choice std_image_files ;;
        media_addFile image ;;;
        ret (Some (img_tag image))
    end
  else ret (Some EmptyString).

(** [for field, option_idx in field_map.items()] *)
Fixpoint fill_fields (std_root prov line : string)
         (std_image_files : list string) (field_map : dict Z) (note : Note)
  : M Note :=
  match field_map with
  | [] => ret note
  | (field, option_idx) :: rest =>
      opt <- lift (py_getitem FILLING_OPTIONS option_idx) ;;
      data <- field_data opt std_root prov line std_image_files ;;
      match data with
      | None => fill_fields std_root prov line std_image_files rest note
      | Some d =>
          note' <- note_setitem note field d ;;
          fill_fields std_root prov line std_image_files rest note'
      end
  end.

(** What the dialog hands to the importer. *)
Record Config : Type := mkConfig {
  cfg_dir_path : string;
  cfg_prov : string;
  cfg_deck_name : string;
  cfg_model_name : string;
  cfg_field_map : dict Z;
  cfg_tags : string
}.

(** One round of [for i, (root, ext) in enumerate(audio_files)], up to
    [mw.col.addNote(note)]: the number of cards the host reports. *)
Definition import_one (cfg : Config) (std_prefix : string)
           (deck : option string) (model : option (list string))
           (c : Classified) (i : nat) (root ext : string) : M nat :=
  t <- time_time ;;
  let std_root :=
    std_prefix ++ ".audio-" ++ t ++ "(" ++ Str.of_nat (i + 1) ++ ")" in
  let std_name := std_root ++ ext in
  copyfile (root ++ ext) std_name ;;;
  media_addFile std_name ;;;
  os_remove std_name ;;;
  note <- new_note (cfg_model_name cfg) model deck ;;
  line <- subtitle_line root (sub_files c) ;;
  note <- fill_fields std_root (cfg_prov cfg) line (std_image_files c)
            (cfg_field_map cfg) note ;;
  let note := note_add_tag note (cfg_tags cfg) in
  col_addNote note.

(** The loop over [audio_files], from index [i] on with [card_count] notes
    added so far: the final [card_count] and [is_import_failed]. *)
Fixpoint import_audio (cfg : Config) (std_prefix : string)
         (deck : option string) (model : option (list string))
         (c : Classified) (i : nat) (todo : list (string * string))
         (card_count : nat) : M (nat * bool) :=
  match todo with
  | [] => ret (card_count, false)
  | (root, ext) :: rest =>
      n <- import_one cfg std_prefix deck model c i root ext ;;
      if Nat.eqb n 0 then ret (card_count, true)
      else import_audio cfg std_prefix deck model c (S i) rest (S card_count)
  end.

(** [for image in std_image_files: os.remove(image)] *)
Fixpoint remove_images (images : list string) : M unit :=
  match images with
  | [] => ret tt
  | image :: rest => os_remove image ;;; remove_images rest
  end.

(** The dialog shown at the end of a run. *)
Inductive Message : Type :=
| show_failure_dialog
| show_completion_dialog (new_cards_count : nat) (deck_name : string).

Record ImportReport : Type := mkReport {
  card_count : nat;
  is_import_failed : bool;
  shown : Message
}.

(** [do_import] after the settings dialog was confirmed.  The progress bar
    and the refresh of the deck browser are left out. *)
Definition run_import (cfg : Config) : M ImportReport :=
  deck <- decks_byName (cfg_deck_name cfg) ;;
  model <- models_byName (cfg_model_name cfg) ;;
  os_chdir (cfg_dir_path cfg) ;;;
  let std_prefix := replace_char " " "." (cfg_prov cfg) in
  file_names <- os_listdir ;;
  c <- classify std_prefix file_names (mkClassified [] [] []) ;;
  r <- import_audio cfg std_prefix deck model c 0 (audio_files c) 0 ;;
  remove_images (std_image_files c) ;;;
  let '(count, failed) := r in
  ret (mkReport count failed
         (if failed then show_failure_dialog
          else show_completion_dialog count (cfg_deck_name cfg))).

(** ** The settings dialog *)

(** The attributes of the dialog object; [fieldMapGrid] holds one row per
    field, the label's text and the combo box's current index. *)
Record SettingsDialog : Type := mkDialog {
  dirPath : string;
  prov : string;
  deckName : string;
  modelName : string;
  fieldMap : dict Z;
  tags : string;
  fieldMapGrid : list (string * Z);
  accepted : bool
}.

(** [QComboBox.setCurrentIndex] on a box with [count] entries: an index that
    names no entry leaves the box without a selection, index -1. *)
Definition setCurrentIndex (count : nat) (index : Z) : Z :=
  if ((0 <=? index) && (index <? Z.of_nat count))%Z then index else (-1)%Z.

(** [d.get(key, default)] of a Python [dict]. *)
Definition dict_get_default {V : Type} (d : dict V) (k : string) (default : V)
  : V :=
  match dict_get d k with
  | Some v => v
  | None => default
  end.

Definition with_grid (grid : list (string * Z)) (d : SettingsDialog)
  : SettingsDialog :=
  mkDialog (dirPath d) (prov d) (deckName d) (modelName d) (fieldMap d)
    (tags d) grid (accepted d).

Definition create_field_grid (d : SettingsDialog) : M SettingsDialog :=
  if String.eqb (modelName d) EmptyString then ret (with_grid [] d)
  else
    model <- models_byName (modelName d) ;;
    match model with
    | None => raise TypeError
    | Some flds =>
        ret (with_grid
               (List.map
                  (fun name =>
                     (name,
                      setCurrentIndex (List.length FILLING_OPTIONS)
                        (dict_get_default (fieldMap d) name (-1)%Z)))
                  flds)
               d)
    end.

Definition read_settings_file : M string :=
  fun w =>
    match settings_json w with
    | Some text => Ok (text, w)
    | None => Raise FileNotFoundError
    end.

Definition write_settings_file (text : string) : M unit :=
  fun w => Ok (tt, set_settings_json (Some text) w).

(** [json.load(f)] *)
Definition json_load (text : string) : M json :=
  match json_loads text with
  | Some j => ret j
  | None => raise JSONDecodeError
  end.

(** The [try] block at the start of [__init__]: [settings_dict]. *)
Definition load_settings : M json :=
  try_except
    (text <- read_settings_file ;; json_load text)
    is_EnvironmentError
    (ret (JObj [])).

Definition get_str (settings_dict : json) (key default : string) : M string :=
  v <- lift (json_get settings_dict key (JStr default)) ;;
  lift (as_str v).

(** [SettingsDialog.__init__] up to [self.exec_()]. *)
Definition init : M SettingsDialog :=
  settings_dict <- load_settings ;;
  dirPath0 <- get_str settings_dict "dirPath" EmptyString ;;
  found <- os_path_exists dirPath0 ;;
  dirPath1 <- (if found then ret dirPath0 else fun w => Ok (home w, w)) ;;
  prov0 <- get_str settings_dict "prov" EmptyString ;;
  deckName0 <- get_str settings_dict "deckName" EmptyString ;;
  deckName1 <- (fun w => Ok (if Str.mem deckName0 (decks w) then deckName0
                             else current_deck w, w)) ;;
  modelName0 <- get_str settings_dict "modelName" EmptyString ;;
  modelName1 <- (fun w => Ok (if Str.mem modelName0 (List.map fst (models w))
                              then modelName0 else current_model w, w)) ;;
  fm <- lift (json_get settings_dict "fieldMap" (JObj [])) ;;
  fieldMap0 <- lift (as_field_map fm) ;;
  d <- create_field_grid
         (mkDialog dirPath1 prov0 deckName1 modelName1 fieldMap0 EmptyString
            [] false) ;;
  tags0 <- get_str settings_dict "tags" EmptyString ;;
  ret (mkDialog (dirPath d) (prov d) (deckName d) (modelName d) (fieldMap d)
         tags0 (fieldMapGrid d) false).

(** [browse_dir], given the reply of the directory chooser (empty when the
    user cancels it). *)
Definition browse_dir (path : string) (d : SettingsDialog) : SettingsDialog :=
  if String.eqb path EmptyString then d
  else mkDialog path (basename path) (deckName d) (modelName d) (fieldMap d)
         (tags d) (fieldMapGrid d) (accepted d).

Definition prov_edited (text : string) (d : SettingsDialog) : SettingsDialog :=
  mkDialog (dirPath d) text (deckName d) (modelName d) (fieldMap d) (tags d)
    (fieldMapGrid d) (accepted d).

Definition deck_changed (text : string) (d : SettingsDialog) : SettingsDialog :=
  mkDialog (dirPath d) (prov d) text (modelName d) (fieldMap d) (tags d)
    (fieldMapGrid d) (accepted d).

Definition model_changed (text : string) (d : SettingsDialog)
  : M SettingsDialog :=
  create_field_grid
    (mkDialog (dirPath d) (prov d) (deckName d) text (fieldMap d) (tags d)
       (fieldMapGrid d) (accepted d)).

Definition tags_changed (text : string) (d : SettingsDialog) : SettingsDialog :=
  mkDialog (dirPath d) (prov d) (deckName d) (modelName d) (fieldMap d) text
    (fieldMapGrid d) (accepted d).

(** The user picks an entry in the combo box of one row. *)
Fixpoint choose_in_row (row : nat) (index : Z) (grid : list (string * Z))
  : list (string * Z) :=
  match grid, row with
  | [], _ => []
  | (name, _) :: g, O =>
      (name, setCurrentIndex (List.length FILLING_OPTIONS) index) :: g
  | x :: g, S r => x :: choose_in_row r index g
  end.

(** The loop of [accept] that reads the grid back into a fresh [fieldMap]. *)
Fixpoint read_grid (grid : list (string * Z)) (rows : list nat)
         (fm : dict Z) : result (dict Z) :=
  match rows with
  | [] => Ok fm
  | row :: rest =>
      match nth_error grid row with
      | None => Raise AttributeError
      | Some (field, option_idx) =>
          read_grid grid rest (dict_set fm field option_idx)
      end
  end.

(** The document [accept] writes. *)
Definition settings_doc (d : SettingsDialog) : json :=
  JObj [("dirPath", JStr (dirPath d)); ("prov", JStr (prov d));
        ("deckName", JStr (deckName d)); ("modelName", JStr (modelName d));
        ("fieldMap", of_field_map (fieldMap d)); ("tags", JStr (tags d))].

(** [accept], given the reply of the directory chooser it opens when the
    directory is gone. *)
Definition accept (browse_reply : string) (d : SettingsDialog)
  : M SettingsDialog :=
  found <- os_path_exists (dirPath d) ;;
  if negb found then ret (browse_dir browse_reply d)
  else
    let prov1 := if String.eqb (prov d) EmptyString then "Unknown" else prov d in
    deckName1 <- (fun w => Ok (if String.eqb (deckName d) EmptyString
                               then current_deck w else deckName d, w)) ;;
    modelName1 <- (fun w => Ok (if String.eqb (modelName d) EmptyString
                                then current_model w else modelName d, w)) ;;
    model <- models_byName modelName1 ;;
    match model with
    | None => raise TypeError
    | Some flds =>
        fieldMap1 <- lift (read_grid (fieldMapGrid d)
                             (List.seq 0 (List.length flds)) []) ;;
        let d1 := mkDialog (dirPath d) prov1 deckName1 modelName1 fieldMap1
                    (tags d) (fieldMapGrid d) true in
        write_settings_file (json_dumps (settings_doc d1)) ;;;
        ret d1
    end.

(** What the user does while the dialog is open. *)
Inductive Event : Type :=
| BrowseClicked (reply : string)
| ProvEdited (text : string)
| DeckChosen (text : string)
| ModelChosen (text : string)
| TagsEdited (text : string)
| FieldChosen (row : nat) (index : Z)
| OkClicked (browse_reply : string)
| CancelClicked.

(** [self.exec_()]: the dialog stays open until it is accepted or rejected. *)
Fixpoint exec_ (events : list Event) (d : SettingsDialog) : M SettingsDialog :=
  match events with
  | [] => ret d
  | e :: rest =>
      match e with
      | BrowseClicked reply => exec_ rest (browse_dir reply d)
      | ProvEdited text => exec_ rest (prov_edited text d)
      | DeckChosen text => exec_ rest (deck_changed text d)
      | ModelChosen text => d' <- model_changed text d ;; exec_ rest d'
      | TagsEdited text => exec_ rest (tags_changed text d)
      | FieldChosen row index =>
          exec_ rest (with_grid (choose_in_row row index (fieldMapGrid d)) d)
      | OkClicked reply =>
          d' <- accept reply d ;;
          if accepted d' then ret d' else exec_ rest d'
      | CancelClicked => ret d
      end
  end.

Definition get_result (d : SettingsDialog) : option Config :=
  if accepted d
  then Some (mkConfig (dirPath d) (prov d) (deckName d) (modelName d)
               (fieldMap d) (tags d))
  else None.

(** [do_import]: raise the dialog, and import when it was confirmed. *)
Definition do_import (user : list Event) : M (option ImportReport) :=
  d <- init ;;
  d <- exec_ user d ;;
  match get_result d with
  | None => ret None
  | Some cfg => r <- run_import cfg ;; ret (Some r)
  end.

End Importer.

(** ** A concrete platform for the examples

    A small JSON codec (strings with escaped quotes and backslashes,
    integers, arrays, objects, the three literals), a strict UTF-8 decoder,
    and the media type lists of the Anki editor. *)

Module MiniJson.

Definition quote : ascii := ascii_of_nat 34.
Definition backslash : ascii := ascii_of_nat 92.

Fixpoint escape (s : string) : string :=
  match s with
  | EmptyString => EmptyString
  | String c s' =>
      if Ascii.eqb c quote || Ascii.eqb c backslash
      then String backslash (String c (escape s'))
      else String c (escape s')
  end.

Definition dump_str (s : string) : string :=
  String quote (escape s ++ String quote EmptyString).

Definition dump_int (z : Z) : string := NilEmpty.string_of_int (Z.to_int z).

Fixpoint dumps (j : json) : string :=
  match j with
  | JNull => "null"
  | JBool true => "true"
  | JBool false => "false"
  | JNum z => dump_int z
  | JStr s => dump_str s
  | JArr xs =>
      "[" ++ (fix items (xs : list json) : string :=
                match xs with
                | [] => EmptyString
                | x :: xs' =>
                    dumps x ++ match xs' with
                               | [] => EmptyString
                               | _ :: _ => ", " ++ items xs'
                               end
                end) xs ++ "]"
  | JObj kvs =>
      "{" ++ (fix members (kvs : list (string * json)) : string :=
                match kvs with
                | [] => EmptyString
                | (k, v) :: kvs' =>
                    dump_str k ++ ": " ++ dumps v
                      ++ match kvs' with
                         | [] => EmptyString
                         | _ :: _ => ", " ++ members kvs'
                         end
                end) kvs ++ "}"
  end.

Definition is_ws (c : ascii) : bool :=
  let n := nat_of_ascii c in
  ((n =? 32) || (n =? 10) || (n =? 13) || (n =? 9))%nat.

Fixpoint skip_ws (s : string) : string :=
  match s with
  | String c s' => if is_ws c then skip_ws s' else s
  | EmptyString => EmptyString
  end.

(** The text of a string literal, read from behind its opening quote. *)
Fixpoint parse_str (s : string) : option (string * string) :=
  match s with
  | EmptyString => None
  | String c s' =>
      if Ascii.eqb c quote then Some (EmptyString, s')
      else if Ascii.eqb c backslash then
        match s' with
        | String e s'' =>
            if Ascii.eqb e quote || Ascii.eqb e backslash then
              match parse_str s'' with
              | Some (t, r) => Some (String e t, r)
              | None => None
              end
            else None
        | EmptyString => None
        end
      else
        match parse_str s' with
        | Some (t, r) => Some (String c t, r)
        | None => None
        end
  end.

Fixpoint parse_digits (s : string) (acc : Z) (seen : bool)
  : option (Z * string) :=
  match s with
  | String c s' =>
      if is_digit c
      then parse_digits s' (acc * 10 + Z.of_nat (nat_of_ascii c - 48))%Z true
      else if seen then Some (acc, s) else None
  | EmptyString => if seen then Some (acc, s) else None
  end.

Definition literal (word : string) (v : json) (s : string)
  : option (json * string) :=
  if String.prefix word s then Some (v, Str.drop (String.length word) s)
  else None.

Fixpoint parse_value (fuel : nat) (s : string) : option (json * string) :=
  match fuel with
  | O => None
  | S n =>
      match skip_ws s with
      | EmptyString => None
      | String c s' =>
          if Ascii.eqb c quote then
            match parse_str s' with
            | Some (t, r) => Some (JStr t, r)
            | None => None
            end
          else if Ascii.eqb c "-" then
            match parse_digits s' 0 false with
            | Some (z, r) => Some (JNum (- z), r)
            | None => None
            end
          else if is_digit c then
            match parse_digits (String c s') 0 false with
            | Some (z, r) => Some (JNum z, r)
            | None => None
            end
          else if Ascii.eqb c "{" then
            match skip_ws s' with
            | String c' r =>
                if Ascii.eqb c' "}" then Some (JObj [], r)
                else match parse_members n s' with
                     | Some (kvs, r') =>
                         Some (JObj (fold_left
                                       (fun d kv => dict_set d (fst kv) (snd kv))
                                       kvs []), r')
                     | None => None
                     end
            | EmptyString => None
            end
          else if Ascii.eqb c "[" then
            match skip_ws s' with
            | String c' r =>
                if Ascii.eqb c' "]" then Some (JArr [], r)
                else match parse_items n s' with
                     | Some (xs, r') => Some (JArr xs, r')
                     | None => None
                     end
            | EmptyString => None
            end
          else if Ascii.eqb c "n" then literal "null" JNull (String c s')
          else if Ascii.eqb c "t" then literal "true" (JBool true) (String c s')
          else if Ascii.eqb c "f" then literal "false" (JBool false) (String c s')
          else None
      end
  end
with parse_members (fuel : nat) (s : string)
  : option (list (string * json) * string) :=
  match fuel with
  | O => None
  | S n =>
      match skip_ws s with
      | String c s1 =>
          if Ascii.eqb c quote then
            match parse_str s1 with
            | Some (k, s2) =>
                match skip_ws s2 with
                | String c2 s3 =>
                    if Ascii.eqb c2 ":" then
                      match parse_value n s3 with
                      | Some (v, s4) =>
                          match skip_ws s4 with
                          | String c4 s5 =>
                              if Ascii.eqb c4 "," then
                                match parse_members n s5 with
                                | Some (kvs, r) => Some ((k, v) :: kvs, r)
                                | None => None
                                end
                              else if Ascii.eqb c4 "}" then Some ([(k, v)], s5)
                              else None
                          | EmptyString => None
                          end
                      | None => None
                      end
                    else None
                | EmptyString => None
                end
            | None => None
            end
          else None
      | EmptyString => None
      end
  end
with parse_items (fuel : nat) (s : string) : option (list json * string) :=
  match fuel with
  | O => None
  | S n =>
      match parse_value n s with
      | Some (v, s1) =>
          match skip_ws s1 with
          | String c s2 =>
              if Ascii.eqb c "," then
                match parse_items n s2 with
                | Some (xs, r) => Some (v :: xs, r)
                | None => None
                end
              else if Ascii.eqb c "]" then Some ([v], s2)
              else None
          | EmptyString => None
          end
      | None => None
      end
  end.

Definition loads (s : string) : option json :=
  match parse_value (S (String.length s)) s with
  | Some (j, r) =>
      match skip_ws r with
      | EmptyString => Some j
      | String _ _ => None
      end
  | None => None
  end.

End MiniJson.

Module Demo.

(** Well-formed UTF-8: [pending] continuation bytes are still due, the next
    of them between [lo] and [hi]. *)
Fixpoint utf8_ok (s : string) (pending lo hi : nat) : bool :=
  match s with
  | EmptyString => Nat.eqb pending 0
  | String c s' =>
      let b := nat_of_ascii c in
      match pending with
      | O =>
          (if b <? 128 then utf8_ok s' 0 128 191
           else if (194 <=? b) && (b <=? 223) then utf8_ok s' 1 128 191
           else if b =? 224 then utf8_ok s' 2 160 191
           else if b =? 237 then utf8_ok s' 2 128 159
           else if (225 <=? b) && (b <=? 239) then utf8_ok s' 2 128 191
           else if b =? 240 then utf8_ok s' 3 144 191
           else if (241 <=? b) && (b <=? 243) then utf8_ok s' 3 128 191
           else if b =? 244 then utf8_ok s' 3 128 143
           else false)%nat
      | S p => ((lo <=? b) && (b <=? hi))%nat && utf8_ok s' p 128 191
      end
  end.

Definition utf_8_strict (raw : string) : option string :=
  if utf8_ok raw 0 128 191 then Some raw else None.

(** [aqt.editor.audio] and [aqt.editor.pics] *)
Definition editor_audio : list string :=
  ["wav"; "mp3"; "ogg"; "flac"; "mp4"; "swf"; "mov"; "mpeg"; "mkv"; "m4a";
   "3gp"; "spx"; "oga"; "webm"].

Definition editor_pics : list string :=
  ["jpg"; "jpeg"; "png"; "tif"; "tiff"; "gif"; "svg"; "webp"].

(** A host whose note types always yield [cards] cards. *)
Definition platform (cards : nat) : Platform :=
  {| AUDIO_TYPES := editor_audio;
     IMAGE_TYPES := editor_pics;
     time_str := fun n => "1700000000." ++ Str.of_nat n;
     rand_draw := fun n => n;
     cards_generated := fun _ => cards;
     utf_8_decode := utf_8_strict;
     json_loads := MiniJson.loads;
     json_dumps := MiniJson.dumps |}.

(** The directory of the end-to-end scenario: [a.mp3], [a.lrc], [b.mp3]
    and [cover.jpg]. *)
Definition scenario_files : dict string :=
  [("a.mp3", "ID3-a"); ("a.lrc", "[00:00:01]Hello"); ("b.mp3", "ID3-b");
   ("cover.jpg", "JFIF")].

Definition world (fs : dict string) : World :=
  {| settings_json := None;
     paths := ["/home/user"; "/home/user/Show S01"];
     home := "/home/user";
     decks := ["Default"; "Lines"];
     current_deck := "Default";
     models := [("Basic", ["Front"; "Back"]);
                ("Line", ["Front"; "Back"; "Picture"])];
     current_model := "Basic";
     files := fs;
     media := [];
     col_notes := [];
     submitted := [];
     clock := 0;
     draws := 0 |}.

Definition scenario_config : Config :=
  {| cfg_dir_path := "/home/user/Show S01";
     cfg_prov := "Show S01";
     cfg_deck_name := "Lines";
     cfg_model_name := "Basic";
     cfg_field_map := [("Front", 3%Z); ("Back", 4%Z)];
     cfg_tags := "show" |}.

End Demo.

(** ** Vocabulary of the statements *)

Definition Role_eqb (a b : Role) : bool :=
  match a, b with
  | Audio, Audio | Subtitle, Subtitle | Image, Image | Ignored, Ignored => true
  | _, _ => false
  end.

(** The entries of a listing with a given role, in listing order. *)
Definition with_role {P : Platform} (r : Role) (names : list string) : list string :=
  List.filter (fun f => Role_eqb (role f) r) names.


(** The collection is untouched between two worlds. *)
Definition same_col (w w' : World) : Prop :=
  col_notes w' = col_notes w /\ submitted w' = submitted w.

(** The first subtitle entry of a listing whose base name is [root]. *)
Definition subtitle_of {P : Platform} (root : string) (names : list string)
  : option string :=
  List.find
    (fun f => Role_eqb (role f) Subtitle && String.eqb (fst (splitext f)) root)
    names.


(** Writing rows of the grid into a dictionary, first row first. *)
Definition rows_to_dict (rows : list (string * Z)) (fm : dict Z) : dict Z :=
  fold_left (fun d r => dict_set d (fst r) (snd r)) rows fm.

(** The grid [create_field_grid] builds for the fields [flds] from a field
    map. *)
Definition grid_of (fm : dict Z) (flds : list string) : list (string * Z) :=
  List.map
    (fun name =>
       (name,
        setCurrentIndex (List.length FILLING_OPTIONS)
          (dict_get_default fm name (-1)%Z)))
    flds.

(** The names the classification loop gives to the copies of the image
    files of a listing, the clock having been read [k] times. *)
Fixpoint image_std_names {P : Platform} (pre : string) (names : list string)
         (k : nat) : list string :=
  match names with
  | [] => []
  | f :: rest =>
      match role f with
      | Image =>
          (pre ++ ".image-" ++ time_str k ++ snd (splitext f))
            :: image_std_names pre rest (S k)
      | _ => image_std_names pre rest k
      end
  end.

(** The names the audio loop gives to the copies of the audio files, from
    index [i] on, the clock having been read [k] times. *)
Fixpoint audio_std_names {P : Platform} (pre : string)
         (todo : list (string * string)) (i k : nat) : list string :=
  match todo with
  | [] => []
  | (root, ext) :: rest =>
      ((pre ++ ".audio-" ++ time_str k ++ "(" ++ Str.of_nat (i + 1) ++ ")")
         ++ ext)
        :: audio_std_names pre rest (S i) (S k)
  end.

(** A configuration the dialog can produce, on a directory in which the
    generated names are free: the directory, the deck and the note type
    exist, every option index is one [FILLING_OPTIONS] accepts and every
    mapped field is a field of the note type, and no generated name is the
    name of an entry or of another copy. *)
Definition ready {P : Platform} (cfg : Config) (w : World) : Prop :=
  let pre := replace_char " " "." (cfg_prov cfg) in
  let names := List.map fst (files w) in
  let imgs := image_std_names pre names (clock w) in
  let auds :=
    audio_std_names pre (List.map splitext (with_role Audio names)) 0
      (clock w + List.length imgs) in
  In (cfg_dir_path cfg) (paths w)
  /\ In (cfg_deck_name cfg) (decks w)
  /\ (exists flds,
         dict_get (models w) (cfg_model_name cfg) = Some flds
         /\ forall f idx,
             In (f, idx) (cfg_field_map cfg) ->
             (-6 <= idx < 6)%Z /\ In f flds)
  /\ NoDup imgs
  /\ (forall n, In n imgs -> ~ In n names)
  /\ (forall a, In a auds -> ~ In a names /\ ~ In a imgs).

(** ** The end-to-end scenario *)

Module Scenario.

Definition P1 : Platform := Demo.platform 1.
Definition w0 : World := Demo.world Demo.scenario_files.
Definition names : list string := List.map fst Demo.scenario_files.

Abbreviation classified :=
  (classify (P := P1) "Show.S01" names (mkClassified [] [] []) w0).

Abbreviation run := (run_import (P := P1) Demo.scenario_config w0).

(** A dialog the user has filled in but not yet confirmed. *)
Definition dialog : SettingsDialog :=
  mkDialog "/home/user/Show S01" "Show S01" "Lines" "Basic" [] "show"
    [("Front", 3%Z); ("Back", (-1)%Z)] false.

Abbreviation confirmed := (accept (P := P1) EmptyString dialog w0).

End Scenario.

Module ScenarioImage.

(** The scenario with Back mapped to the random image. *)
Definition config : Config :=
  mkConfig "/home/user/Show S01" "Show S01" "Lines" "Basic"
    [("Front", 3%Z); ("Back", 5%Z)] "show".

Abbreviation run := (run_import (P := Scenario.P1) config Scenario.w0).

End ScenarioImage.

(** ** Vocabulary of the further properties *)

(** The grid of a dialog fits its note type in the world [w]: every combo
    box shows an entry of [FILLING_OPTIONS] or nothing, and the labels are
    the fields of the note type named by [modelName] (no rows when no note
    type is named). *)
Definition grid_ok (w : World) (d : SettingsDialog) : Prop :=
  Forall (fun r => (-1 <= snd r < 6)%Z) (fieldMapGrid d)
  /\ (modelName d = EmptyString -> fieldMapGrid d = [])
  /\ (modelName d <> EmptyString ->
      exists flds,
        dict_get (models w) (modelName d) = Some flds
        /\ List.map fst (fieldMapGrid d) = flds).

(** The standardized base name of the audio file of round [i], the clock
    having returned [t]. *)
Definition audio_std_root (pre t : string) (i : nat) : string :=
  pre ++ ".audio-" ++ t ++ "(" ++ Str.of_nat (i + 1) ++ ")".


Module ScenarioDialog.

(** The user of the scenario fills the dialog in and confirms it. *)
Definition user : list Event :=
  [BrowseClicked "/home/user/Show S01"; DeckChosen "Lines";
   FieldChosen 0 3%Z; FieldChosen 1 4%Z; TagsEdited "show";
   OkClicked EmptyString].

Definition opened : SettingsDialog :=
  mkDialog "/home/user" EmptyString "Default" "Basic" [] EmptyString
    [("Front", (-1)%Z); ("Back", (-1)%Z)] false.

Definition closed : SettingsDialog :=
  mkDialog "/home/user/Show S01" "Show S01" "Lines" "Basic"
    [("Front", 3%Z); ("Back", 4%Z)] "show"
    [("Front", 3%Z); ("Back", 4%Z)] true.

Definition saved : World :=
  set_settings_json
    (Some (json_dumps (Platform := Scenario.P1) (settings_doc closed)))
    Scenario.w0.

Abbreviation cancelled :=
  (do_import (P := Scenario.P1)
     [BrowseClicked "/home/user/Show S01"; TagsEdited "show"; CancelClicked]
     Scenario.w0).

Abbreviation rechosen :=
  (accept (P := Scenario.P1) EmptyString
     (with_grid (choose_in_row 1 4%Z (fieldMapGrid Scenario.dialog))
        Scenario.dialog)
     Scenario.w0).

End ScenarioDialog.

Module ScenarioSameTick.

(** A host whose clock gives the same reading twice. *)
Definition P0 : Platform :=
  {| AUDIO_TYPES := Demo.editor_audio;
     IMAGE_TYPES := Demo.editor_pics;
     time_str := fun _ => "1700000000.5";
     rand_draw := fun n => n;
     cards_generated := fun _ => 1;
     utf_8_decode := Demo.utf_8_strict;
     json_loads := MiniJson.loads;
     json_dumps := MiniJson.dumps |}.

Definition w0 : World :=
  Demo.world [("a.mp3", "ID3-a"); ("x.jpg", "JFIF-x"); ("y.jpg", "JFIF-y")].

Abbreviation run := (run_import (P := P0) Demo.scenario_config w0).

(** The directory when the removal of the copies begins: the two image
    files were copied under one name. *)
Definition copied : World :=
  Demo.world [("a.mp3", "ID3-a"); ("x.jpg", "JFIF-x"); ("y.jpg", "JFIF-y");
              ("Show.S01.image-1700000000.5.jpg", "JFIF-y")].

End ScenarioSameTick.

Module ScenarioNoCards.

(** The scenario on a host whose note type yields no card. *)
Definition P0 : Platform := Demo.platform 0.

Abbreviation run := (run_import (P := P0) Demo.scenario_config Scenario.w0).

End ScenarioNoCards.

Module ScenarioLatin1.

(** The subtitle file holds a byte that is no UTF-8. *)
Definition w0 : World :=
  Demo.world [("a.mp3", "ID3-a");
              ("a.lrc", String (ascii_of_nat 233) "t")].

Definition names : list string := ["a.mp3"; "a.lrc"].

End ScenarioLatin1.

Module ScenarioPlain.

(** The scenario with Front mapped to the file name and Back to the
    provenance. *)
Definition config : Config :=
  mkConfig "/home/user/Show S01" "Show S01" "Lines" "Basic"
    [("Front", 1%Z); ("Back", 2%Z)] "show".

Abbreviation run := (run_import (P := Scenario.P1) config Scenario.w0).

End ScenarioPlain.

(** * Facts *)

(** ** Strings *)

Module StrFacts.

Lemma app_nil_r (s : string) : s ++ EmptyString = s.
Proof. induction s as [|c s IH]; simpl; [reflexivity | now rewrite IH]. Qed.

Lemma app_assoc (a b c : string) : (a ++ b) ++ c = a ++ (b ++ c).
Proof. induction a as [|x a IH]; simpl; [reflexivity | now rewrite IH]. Qed.

Lemma length_app (a b : string) :
  String.length (a ++ b) = String.length a + String.length b.
Proof. induction a as [|x a IH]; simpl; [reflexivity | now rewrite IH]. Qed.

Lemma length_zero (s : string) : String.length s = 0 -> s = EmptyString.
Proof. destruct s; simpl; [reflexivity | discriminate]. Qed.

Lemma mem_In (x : string) (xs : list string) : Str.mem x xs = true <-> In x xs.
Proof.
  unfold Str.mem. rewrite existsb_exists. split.
  - intros [y [Hy He]]. apply String.eqb_eq in He. now subst.
  - intros H. exists x. split; [exact H | apply String.eqb_refl].
Qed.

End StrFacts.

(** ** The matcher against the language of a pattern *)

Module ReFacts.
Import Re.

Lemma plusk_sound cls k : forall s x,
  plusk cls s k = Some x ->
  exists t s', s = t ++ s' /\ t <> EmptyString
               /\ Str.forallb cls t = true /\ k s' = Some x.
Proof.
  induction s as [|c s IH]; simpl; intros x H; [discriminate|].
  destruct (cls c) eqn:Hc; [|discriminate].
  destruct (plusk cls s k) as [r|] eqn:Hp.
  - injection H as ->. destruct (IH _ eq_refl) as (t & s' & -> & _ & Ht & Hk).
    exists (String c t), s'. simpl. rewrite Hc, Ht. repeat split; auto; discriminate.
  - exists (String c EmptyString), s. simpl. rewrite Hc.
    repeat split; auto; discriminate.
Qed.

Lemma plusk_complete cls k s' x : forall t,
  t <> EmptyString -> Str.forallb cls t = true -> k s' = Some x ->
  exists y, plusk cls (t ++ s') k = Some y.
Proof.
  induction t as [|c t IH]; intros Hne Hall Hk; [congruence|].
  simpl in Hall. apply andb_true_iff in Hall as [Hc Ht]. simpl. rewrite Hc.
  destruct t as [|c' t'].
  - simpl. destruct (plusk cls s' k); eauto.
  - destruct IH as [y Hy]; auto; [discriminate|]. rewrite Hy. eauto.
Qed.

Lemma matchk_sound : forall r s k x,
  matchk r s k = Some x ->
  exists t s', s = t ++ s' /\ matches r t /\ k s' = Some x.
Proof.
  induction r as [c|cls|r1 IH1 r2 IH2]; simpl; intros s k x H.
  - destruct s as [|a s]; [discriminate|].
    destruct (Ascii.eqb a c) eqn:E; [|discriminate].
    apply Ascii.eqb_eq in E. subst a.
    exists (String c EmptyString), s. repeat split; auto. constructor.
  - destruct (plusk_sound _ _ _ _ H) as (t & s' & -> & Hne & Hall & Hk).
    exists t, s'. repeat split; auto. now constructor.
  - destruct (IH1 _ _ _ H) as (t1 & s1 & -> & M1 & H2).
    destruct (IH2 _ _ _ H2) as (t2 & s2 & -> & M2 & Hk).
    exists (t1 ++ t2), s2. rewrite StrFacts.app_assoc.
    repeat split; auto. now constructor.
Qed.

Lemma matchk_complete : forall r t, matches r t -> forall k s' x,
  k s' = Some x -> exists y, matchk r (t ++ s') k = Some y.
Proof.
  induction 1 as [c|cls t Hne Hall|r1 r2 t1 t2 M1 IH1 M2 IH2];
    intros k s' x Hk; simpl.
  - rewrite Ascii.eqb_refl. eauto.
  - eapply plusk_complete; eauto.
  - rewrite StrFacts.app_assoc.
    destruct (IH2 k s' x Hk) as [y Hy].
    exact (IH1 (fun s0 => matchk r2 s0 k) (t2 ++ s') y Hy).
Qed.

(** A match at the start of [s] is a split of [s] into a word of the
    pattern's language and the rest. *)
Lemma match_at_sound r s rest :
  match_at r s = Some rest -> exists t, s = t ++ rest /\ matches r t.
Proof.
  intros H. destruct (matchk_sound _ _ _ _ H) as (t & s' & -> & M & E).
  injection E as ->. eauto.
Qed.

Lemma match_at_none r s :
  match_at r s = None -> forall t rest, matches r t -> s <> t ++ rest.
Proof.
  intros H t rest M ->.
  destruct (matchk_complete _ _ M Some rest rest eq_refl) as [y Hy].
  unfold match_at in H. congruence.
Qed.

End ReFacts.

(** ** One pass of timestamp stripping *)

Lemma timestamp_nonempty t : Re.matches TIMESTAMP t -> t <> EmptyString.
Proof.
  unfold TIMESTAMP. intros M. inversion M as [| |r1 r2 t1 t2 M1 M2]; subst.
  inversion M1; subst. discriminate.
Qed.

(** The words of the pattern: three runs of digits between brackets,
    separated by colons. *)
Lemma timestamp_shape t :
  Re.matches TIMESTAMP t <->
  exists h m s,
    h <> EmptyString /\ m <> EmptyString /\ s <> EmptyString
    /\ Str.forallb is_digit h = true /\ Str.forallb is_digit m = true
    /\ Str.forallb is_digit s = true
    /\ t = "[" ++ h ++ ":" ++ m ++ ":" ++ s ++ "]".
Proof.
  unfold TIMESTAMP. split.
  - intros M.
    repeat match goal with
           | H : Re.matches (Re.Cat _ _) _ |- _ => inversion H; subst; clear H
           | H : Re.matches (Re.Lit _) _ |- _ => inversion H; subst; clear H
           | H : Re.matches (Re.Plus _) _ |- _ => inversion H; subst; clear H
           end.
    do 3 eexists. repeat split; eauto.
  - intros (h & m & s & Hh & Hm & Hs & Dh & Dm & Ds & ->).
    change ("[" ++ h ++ ":" ++ m ++ ":" ++ s ++ "]")
      with (String "[" EmptyString ++ h ++ String ":" EmptyString ++ m
              ++ String ":" EmptyString ++ s ++ String "]" EmptyString).
    repeat (apply Re.matches_cat); try apply Re.matches_lit;
      now apply Re.matches_plus.
Qed.

Lemma sub_loop_Strips : forall fuel s,
  String.length s <= fuel -> Strips s (Re.sub_loop TIMESTAMP fuel s).
Proof.
  induction fuel as [|fuel IH]; intros s Hlen.
  - rewrite (StrFacts.length_zero s) by lia. constructor.
  - destruct s as [|c s]; [constructor|].
    cbn [Re.sub_loop]. destruct (Re.match_at TIMESTAMP (String c s)) as [rest|] eqn:E.
    + destruct (ReFacts.match_at_sound _ _ _ E) as (t & Hs & M).
      assert (String.length rest < String.length (String c s)) as Hlt.
      { rewrite Hs, StrFacts.length_app.
        pose proof (timestamp_nonempty _ M). destruct t; [congruence|simpl; lia]. }
      apply Nat.ltb_lt in Hlt as Hb. rewrite Hb. rewrite Hs.
      apply Strips_token; [exact M|]. apply IH. simpl in Hlt, Hlen. lia.
    + apply Strips_keep.
      * apply ReFacts.match_at_none. exact E.
      * apply IH. simpl in Hlen. lia.
Qed.

Lemma strip_timestamps_Strips s : Strips s (strip_timestamps s).
Proof. apply sub_loop_Strips. lia. Qed.

Lemma Strips_length s s' : Strips s s' -> String.length s' <= String.length s.
Proof.
  induction 1; simpl; try lia.
  rewrite StrFacts.length_app. lia.
Qed.

Lemma Strips_fixed s s' : Strips s s' -> (s' = s <-> ~ has_timestamp s).
Proof.
  induction 1 as [|t s s' M H IH|c s s' Hno H IH].
  - split; [|reflexivity]. intros _ (a & t & b & M & E).
    destruct a; simpl in E; [|discriminate].
    apply (timestamp_nonempty _ M). destruct t; [reflexivity|discriminate].
  - split.
    + intros E. apply Strips_length in H. rewrite E, StrFacts.length_app in H.
      pose proof (timestamp_nonempty _ M). destruct t; [congruence|simpl in H; lia].
    + intros Hn. exfalso. apply Hn. exists EmptyString, t, s. auto.
  - split.
    + intros E. injection E as E. apply IH in E.
      intros (a & t & b & M & Es). destruct a as [|x a]; simpl in Es.
      * exact (Hno t b M Es).
      * injection Es as _ Es. apply E. exists a, t, b. auto.
    + intros Hn. f_equal. apply IH. intros (a & t & b & M & Es).
      apply Hn. exists (String c a), t, b. split; [exact M|]. simpl. now rewrite Es.
Qed.

(** C4, the first half as the spec states it, refuted: stripping
    [[1:2[1:2:3]:3]] leaves [[1:2:3]], which a second pass removes. *)
Lemma strip_timestamps_not_idempotent :
  ~ (forall text, strip_timestamps (strip_timestamps text) = strip_timestamps text).
Proof.
  intros H. specialize (H "[1:2[1:2:3]:3]"). vm_compute in H. discriminate.
Qed.

(** C4 as amended: one pass reads the text from the left, removes exactly
    the substrings matching [[digits:digits:digits]] that it meets and keeps
    every other character; a second pass leaves the result of the first
    unchanged exactly when that result holds no such substring. *)
Theorem strip_timestamps_one_pass :
  (forall text, Strips text (strip_timestamps text)) /\
  (forall text,
      strip_timestamps (strip_timestamps text) = strip_timestamps text
      <-> ~ has_timestamp (strip_timestamps text)).
Proof.
  split.
  - apply strip_timestamps_Strips.
  - intros text. apply Strips_fixed. apply strip_timestamps_Strips.
Qed.

Open Scope list_scope.

(** ** The monad *)

Lemma bind_Ok {A B : Type} (m : M A) (k : A -> M B) w r :
  bind m k w = Ok r -> exists a w1, m w = Ok (a, w1) /\ k a w1 = Ok r.
Proof.
  unfold bind. destruct (m w) as [[a w1]|e]; [eauto | discriminate].
Qed.

Lemma ret_Ok {A : Type} (a : A) w r : ret a w = Ok r -> r = (a, w).
Proof. unfold ret. congruence. Qed.

Lemma lift_Ok {A : Type} (x : result A) w r :
  lift x w = Ok r -> exists a, x = Ok a /\ r = (a, w).
Proof. unfold lift. destruct x; [|discriminate]. intros H. injection H as <-. eauto. Qed.

(** Splits a successful run of a [bind] chain into its steps. *)
Tactic Notation "step" hyp(H) "as" ident(a) ident(w) ident(E) :=
  apply bind_Ok in H as (a & w & E & H).

Ltac done_ret H :=
  apply ret_Ok in H; inversion H; subst; clear H.

(** ** What a step changes *)

Lemma same_col_refl w : same_col w w.
Proof. split; reflexivity. Qed.

Lemma same_col_trans w1 w2 w3 : same_col w1 w2 -> same_col w2 w3 -> same_col w1 w3.
Proof. unfold same_col. intros [-> ->] [-> ->]. auto. Qed.

Create HintDb frame.
#[local] Hint Resolve same_col_refl : frame.

Section ImporterFacts.

Context {P : Platform}.

Lemma time_time_Ok w t w' :
  time_time w = Ok (t, w') -> w' = set_clock (S (clock w)) w.
Proof. unfold time_time. congruence. Qed.

Lemma copyfile_Ok src dst w u w' :
  copyfile src dst w = Ok (u, w') ->
  exists raw, dict_get (files w) src = Some raw
              /\ w' = set_files (dict_set (files w) dst raw) w.
Proof.
  unfold copyfile. destruct (dict_get (files w) src) as [raw|]; [|discriminate].
  destruct (String.eqb src dst); [discriminate|]. intros H. injection H as _ <-. eauto.
Qed.

Lemma media_addFile_Ok name w u w' :
  media_addFile name w = Ok (u, w') ->
  exists raw, dict_get (files w) name = Some raw
              /\ w' = set_media (media w ++ [(name, raw)]) w.
Proof.
  unfold media_addFile. destruct (dict_get (files w) name) as [raw|]; [|discriminate].
  intros H. injection H as _ <-. eauto.
Qed.

Lemma os_remove_Ok name w u w' :
  os_remove name w = Ok (u, w') ->
  w' = set_files (remove_entry name (files w)) w.
Proof.
  unfold os_remove. destruct (dict_get (files w) name); [|discriminate]. congruence.
Qed.

Lemma random_choice_Ok xs w x w' :
  random_choice xs w = Ok (x, w') -> In x xs /\ w' = set_draws (S (draws w)) w.
Proof.
  unfold random_choice.
  destruct (nth_error xs _) as [y|] eqn:E; [|discriminate].
  intros H. injection H as <- <-. split; [eapply nth_error_In; eauto | reflexivity].
Qed.

Lemma new_note_Ok name model deck w n w' :
  new_note name model deck w = Ok (n, w') ->
  w' = w /\ exists flds did, model = Some flds /\ deck = Some did
    /\ n = mkNote name did (List.map (fun f => (f, EmptyString)) flds) [].
Proof.
  unfold new_note. destruct model as [flds|]; [|discriminate].
  destruct deck as [did|]; [|discriminate].
  intros H. done_ret H. eauto 6.
Qed.

Lemma note_setitem_Ok note field data w n w' :
  note_setitem note field data w = Ok (n, w') ->
  w' = w /\ n = mkNote (note_model note) (note_did note)
                  (dict_set (note_fields note) field data) (note_tags note).
Proof.
  unfold note_setitem. destruct (dict_get _ _); [|discriminate].
  intros H. done_ret H. auto.
Qed.

Lemma try_except_Ok {A : Type} (body handler : M A) catches w r :
  try_except body catches handler w = Ok r ->
  body w = Ok r \/ (exists e, body w = Raise e /\ handler w = Ok r).
Proof.
  unfold try_except. destruct (body w) as [x|e]; [auto|].
  destruct (catches e); [eauto | discriminate].
Qed.

Lemma read_text_utf_8_sig_Ok name w text w' :
  read_text_utf_8_sig name w = Ok (text, w') ->
  w' = w /\ exists raw, dict_get (files w) name = Some raw
                        /\ utf_8_decode (skip_bom raw) = Some text.
Proof.
  unfold read_text_utf_8_sig, read_bytes. intros H. step H as raw0 w0 E.
  destruct (dict_get (files w) name) as [raw|]; [|discriminate].
  injection E as <- <-.
  destruct (utf_8_decode (skip_bom raw)) as [tx|] eqn:D; [|discriminate].
  done_ret H. eauto.
Qed.

Lemma subtitle_line_same root subs w line w' :
  subtitle_line root subs w = Ok (line, w') -> w' = w.
Proof.
  unfold subtitle_line. intros H.
  apply try_except_Ok in H as [H|(e & _ & H)].
  - step H as k w1 E1. apply lift_Ok in E1 as (k' & _ & E1). inversion E1; subst.
    step H as x w2 E2. apply lift_Ok in E2 as (x' & _ & E2). inversion E2; subst.
    step H as tx w3 E3. apply read_text_utf_8_sig_Ok in E3 as [-> _]. now done_ret H.
  - now done_ret H.
Qed.

(** *** The collection *)

Lemma field_data_same_col opt std_root pv line imgs w data w' :
  field_data opt std_root pv line imgs w = Ok (data, w') -> same_col w w'.
Proof.
  unfold field_data. intros H.
  repeat match type of H with
         | (if ?b then _ else _) _ = _ => destruct b; [now done_ret H; auto with frame|]
         end.
  - destruct (String.eqb opt FILL_IMAGE).
    + destruct imgs as [|i0 imgs]; [done_ret H; auto with frame|].
      step H as im w1 E1. apply random_choice_Ok in E1 as [_ ->].
      step H as u w2 E2. apply media_addFile_Ok in E2 as (raw & _ & ->).
      done_ret H. split; reflexivity.
    + done_ret H. auto with frame.
Qed.

Lemma fill_fields_same_col std_root pv line imgs : forall fm note w n w',
  fill_fields std_root pv line imgs fm note w = Ok (n, w') -> same_col w w'.
Proof.
  induction fm as [|[field idx] fm IH]; simpl; intros note w n w' H.
  - done_ret H. auto with frame.
  - step H as o w1 E1. apply lift_Ok in E1 as (o' & _ & E1). inversion E1; subst.
    step H as data w2 E2. apply field_data_same_col in E2.
    destruct data as [d|].
    + step H as n1 w3 E3. apply note_setitem_Ok in E3 as [-> ->].
      eapply same_col_trans; eauto.
    + eapply same_col_trans; eauto.
Qed.

Lemma classify_file_same_col pre f c w c' w' :
  classify_file pre f c w = Ok (c', w') -> same_col w w'.
Proof.
  unfold classify_file. destruct (splitext f) as [file_root ext].
  intros H.
  destruct (Str.mem _ AUDIO_TYPES); [done_ret H; auto with frame|].
  destruct (Str.mem _ SUB_TYPES); [done_ret H; auto with frame|].
  destruct (Str.mem _ IMAGE_TYPES); [|done_ret H; auto with frame].
  step H as t w1 E1. apply time_time_Ok in E1 as ->.
  step H as u w2 E2. apply copyfile_Ok in E2 as (raw & _ & ->).
  done_ret H. split; reflexivity.
Qed.

Lemma classify_same_col pre : forall names c w c' w',
  classify pre names c w = Ok (c', w') -> same_col w w'.
Proof.
  induction names as [|f names IH]; simpl; intros c w c' w' H.
  - done_ret H. auto with frame.
  - step H as c1 w1 E1. apply classify_file_same_col in E1.
    eapply same_col_trans; eauto.
Qed.

Lemma remove_images_same_col : forall images w u w',
  remove_images images w = Ok (u, w') -> same_col w w'.
Proof.
  induction images as [|i images IH]; simpl; intros w u w' H.
  - done_ret H. auto with frame.
  - step H as u1 w1 E1. apply os_remove_Ok in E1 as ->. apply IH in H.
    eapply same_col_trans; [|exact H]. split; reflexivity.
Qed.

End ImporterFacts.

#[local] Arguments Str.mem : simpl never.

(** ** Dictionaries *)

Lemma dict_get_set_same {V : Type} (d : dict V) k v :
  dict_get (dict_set d k v) k = Some v.
Proof.
  induction d as [|[k' v'] d IH]; simpl.
  - now rewrite String.eqb_refl.
  - destruct (String.eqb k' k) eqn:E; simpl; rewrite E; auto.
Qed.

Lemma dict_get_set_other {V : Type} (d : dict V) k v k' :
  k' <> k -> dict_get (dict_set d k v) k' = dict_get d k'.
Proof.
  intros N. induction d as [|[k0 v0] d IH]; simpl.
  - apply String.eqb_neq in N. rewrite String.eqb_sym in N. now rewrite N.
  - destruct (String.eqb k0 k) eqn:E; simpl.
    + apply String.eqb_eq in E. subst k0.
      assert (F : String.eqb k k' = false)
        by (apply String.eqb_neq; congruence).
      now rewrite F.
    + destruct (String.eqb k0 k'); auto.
Qed.

Lemma dict_get_set_keeps {V : Type} (d : dict V) k v k' :
  dict_get d k' <> None -> dict_get (dict_set d k v) k' <> None.
Proof.
  intros H. destruct (string_dec k' k) as [->|N].
  - rewrite dict_get_set_same. discriminate.
  - now rewrite dict_get_set_other.
Qed.

Section LoopFacts.

Context {P : Platform}.

(** *** The lists of the classification loop *)

Lemma role_cases f :
  let _ext := lower (Str.tail (snd (splitext f))) in
  (role f = Audio /\ Str.mem _ext AUDIO_TYPES = true)
  \/ (role f = Subtitle /\ Str.mem _ext AUDIO_TYPES = false
      /\ Str.mem _ext SUB_TYPES = true)
  \/ (role f = Image /\ Str.mem _ext AUDIO_TYPES = false
      /\ Str.mem _ext SUB_TYPES = false /\ Str.mem _ext IMAGE_TYPES = true)
  \/ (role f = Ignored /\ Str.mem _ext AUDIO_TYPES = false
      /\ Str.mem _ext SUB_TYPES = false /\ Str.mem _ext IMAGE_TYPES = false).
Proof.
  unfold role. destruct (splitext f) as [file_root ext]. cbn [snd]. cbv zeta.
  destruct (Str.mem (lower (Str.tail ext)) AUDIO_TYPES); auto.
  destruct (Str.mem (lower (Str.tail ext)) SUB_TYPES); auto.
  destruct (Str.mem (lower (Str.tail ext)) IMAGE_TYPES); auto 10.
Qed.

Lemma classify_file_lists pre f c w c' w' :
  classify_file pre f c w = Ok (c', w') ->
  audio_files c' = audio_files c ++ List.map splitext (with_role Audio [f])
  /\ sub_files c' = sub_files c ++ List.map splitext (with_role Subtitle [f])
  /\ List.length (std_image_files c')
     = List.length (std_image_files c) + List.length (with_role Image [f]).
Proof.
  unfold classify_file, with_role. simpl.
  pose proof (role_cases f) as RC. cbv zeta in RC.
  destruct (splitext f) as [file_root ext] eqn:Sp. cbn [snd] in RC.
  destruct RC as [[R A]|[(R & A & S)|[(R & A & S & I)|(R & A & S & I)]]];
    rewrite R, A; try rewrite S; try rewrite I; simpl; try rewrite Sp; intros H.
  - done_ret H. simpl. rewrite !app_nil_r. auto.
  - done_ret H. simpl. rewrite !app_nil_r. auto.
  - step H as t w1 E1. step H as u w2 E2. done_ret H. simpl.
    rewrite !app_nil_r, length_app. auto.
  - done_ret H. rewrite !app_nil_r. auto.
Qed.

Lemma with_role_cons r f names :
  with_role r (f :: names) = with_role r [f] ++ with_role r names.
Proof. unfold with_role. simpl. destruct (Role_eqb (role f) r); reflexivity. Qed.

Lemma classify_lists pre : forall names c w c' w',
  classify pre names c w = Ok (c', w') ->
  audio_files c' = audio_files c ++ List.map splitext (with_role Audio names)
  /\ sub_files c' = sub_files c ++ List.map splitext (with_role Subtitle names)
  /\ List.length (std_image_files c')
     = List.length (std_image_files c) + List.length (with_role Image names).
Proof.
  induction names as [|f names IH]; intros c w c' w' H; simpl in H.
  - done_ret H. simpl. rewrite !app_nil_r. auto.
  - step H as c1 w1 E1. apply classify_file_lists in E1 as (A1 & S1 & I1).
    apply IH in H as (A2 & S2 & I2).
    rewrite (with_role_cons Audio), (with_role_cons Subtitle), (with_role_cons Image).
    rewrite !map_app, !length_app, !app_assoc, <- A1, <- S1. repeat split; auto. lia.
Qed.

(** *** What the classification loop does with an image *)

Lemma classify_file_images pre f c w c' w' :
  classify_file pre f c w = Ok (c', w') ->
  media w' = media w
  /\ (forall name, dict_get (files w) name <> None ->
                   dict_get (files w') name <> None)
  /\ exists new_names,
      std_image_files c' = std_image_files c ++ new_names
      /\ Forall (fun name =>
                   dict_get (files w') name <> None
                   /\ exists t,
                       role f = Image
                       /\ name = (pre ++ ".image-" ++ t ++ snd (splitext f))%string)
           new_names.
Proof.
  unfold classify_file.
  pose proof (role_cases f) as RC. cbv zeta in RC.
  destruct (splitext f) as [file_root ext] eqn:Sp. cbn [snd] in RC.
  destruct RC as [[R A]|[(R & A & S)|[(R & A & S & I)|(R & A & S & I)]]];
    rewrite A; try rewrite S; try rewrite I; intros H.
  - done_ret H. repeat split; auto. exists []. simpl. now rewrite app_nil_r.
  - done_ret H. repeat split; auto. exists []. simpl. now rewrite app_nil_r.
  - step H as t w1 E1. apply time_time_Ok in E1 as ->.
    step H as u w2 E2. apply copyfile_Ok in E2 as (raw & _ & ->).
    done_ret H. simpl. repeat split; auto.
    + intros name. apply dict_get_set_keeps.
    + eexists [_]. split; [reflexivity|]. constructor; [|constructor].
      split; [rewrite dict_get_set_same; discriminate|]. eauto.
  - done_ret H. repeat split; auto. exists []. simpl. now rewrite app_nil_r.
Qed.

Lemma classify_images pre : forall names c w c' w',
  classify pre names c w = Ok (c', w') ->
  media w' = media w
  /\ (forall name, dict_get (files w) name <> None ->
                   dict_get (files w') name <> None)
  /\ exists new_names,
      std_image_files c' = std_image_files c ++ new_names
      /\ Forall (fun name =>
                   dict_get (files w') name <> None
                   /\ exists f t,
                       In f names /\ role f = Image
                       /\ name = (pre ++ ".image-" ++ t ++ snd (splitext f))%string)
           new_names.
Proof.
  induction names as [|f names IH]; intros c w c' w' H; simpl in H.
  - done_ret H. repeat split; auto. exists []. now rewrite app_nil_r.
  - step H as c1 w1 E1.
    apply classify_file_images in E1 as (M1 & K1 & new1 & N1 & F1).
    apply IH in H as (M2 & K2 & new2 & N2 & F2).
    split; [congruence|]. split; [auto|].
    exists (new1 ++ new2). split; [rewrite N2, N1, app_assoc; reflexivity|].
    apply Forall_app. split.
    + eapply Forall_impl; [|exact F1]. intros name [Hk (t & R & E)].
      split; [auto|]. exists f, t. simpl. auto.
    + eapply Forall_impl; [|exact F2]. intros name [Hk (g & t & Hin & R & E)].
      split; [auto|]. exists g, t. simpl. auto.
Qed.

(** *** One round of the loop over the audio files *)


(** *** The loop over the audio files *)


End LoopFacts.

(** ** Paths and indices *)

Lemma take_drop (n : nat) (s : string) : (Str.take n s ++ Str.drop n s)%string = s.
Proof.
  revert s; induction n as [|n IH]; intros [|c s]; simpl; try reflexivity.
  now rewrite IH.
Qed.

Lemma splitext_join f : (fst (splitext f) ++ snd (splitext f))%string = f.
Proof.
  unfold splitext. destruct (Str.rfind "." f) as [i|]; simpl.
  - destruct (Str.existsb _ _); simpl; [apply take_drop | apply StrFacts.app_nil_r].
  - apply StrFacts.app_nil_r.
Qed.

Lemma py_getitem_nat {A : Type} (xs : list A) (k : nat) :
  py_getitem xs (Z.of_nat k)
  = match nth_error xs k with
    | Some x => Ok x
    | None => Raise IndexError
    end.
Proof.
  unfold py_getitem.
  destruct (Z.ltb_spec (Z.of_nat k) 0) as [Hneg|_]; [lia|].
  destruct (Z.ltb_spec (Z.of_nat k) 0) as [Hneg|_]; [lia|]. simpl.
  rewrite Nat2Z.id.
  destruct (Z.leb_spec (Z.of_nat (List.length xs)) (Z.of_nat k)) as [Hge|Hlt].
  - assert (nth_error xs k = None) as -> by (apply nth_error_None; lia). reflexivity.
  - reflexivity.
Qed.

Section SubtitleFacts.

Context {P : Platform}.

(** The two list operations of the [try] block find the first subtitle entry
    with the audio file's base name, or raise [ValueError]. *)
Lemma sub_files_lookup root : forall names,
  let subs := List.map splitext (with_role Subtitle names) in
  match subtitle_of root names with
  | Some f =>
      exists k, list_index root (List.map fst subs) = Ok k
                /\ py_getitem (List.map snd subs) (Z.of_nat k) = Ok (snd (splitext f))
                /\ fst (splitext f) = root
  | None => list_index root (List.map fst subs) = Raise ValueError
  end.
Proof.
  induction names as [|f names IH]; simpl; [reflexivity|].
  unfold subtitle_of, with_role in *. simpl.
  destruct (Role_eqb (role f) Subtitle); simpl.
  - destruct (String.eqb (fst (splitext f)) root) eqn:E.
    + exists 0. apply String.eqb_eq in E. simpl. auto.
    + simpl in IH. destruct (find _ names) as [g|].
      * destruct IH as (k & I & G & R). exists (S k). rewrite I.
        rewrite py_getitem_nat in *. simpl. auto.
      * now rewrite IH.
  - exact IH.
Qed.



End SubtitleFacts.

Section FieldFacts.


Context {P : Platform}.

(** *** The media store only grows *)

Lemma field_data_media opt sr pv line imgs w data w' :
  field_data opt sr pv line imgs w = Ok (data, w') ->
  incl (media w) (media w').
Proof.
  unfold field_data. intros H.
  repeat match type of H with
         | (if ?b then _ else _) _ = _ =>
             destruct b; [now done_ret H; apply incl_refl|]
         end.
  destruct (String.eqb opt FILL_IMAGE); [|done_ret H; apply incl_refl].
  destruct imgs as [|i0 imgs]; [done_ret H; apply incl_refl|].
  step H as im w1 E1. apply random_choice_Ok in E1 as [_ ->].
  step H as u w2 E2. apply media_addFile_Ok in E2 as (raw & _ & ->).
  done_ret H. simpl. apply incl_appl, incl_refl.
Qed.

Lemma fill_fields_media sr pv line imgs : forall fm note w n w',
  fill_fields sr pv line imgs fm note w = Ok (n, w') ->
  incl (media w) (media w').
Proof.
  induction fm as [|[field idx] fm IH]; simpl; intros note w n w' H.
  - done_ret H. apply incl_refl.
  - step H as o w1 E1. apply lift_Ok in E1 as (o' & _ & E1).
    injection E1 as -> ->.
    step H as data w2 E2. apply field_data_media in E2.
    destruct data as [d|].
    + step H as n1 w3 E3. apply note_setitem_Ok in E3 as [-> ->].
      eapply incl_tran; eauto.
    + eapply incl_tran; eauto.
Qed.

(** *** The loop over the field map *)

Lemma fill_fields_keeps sr pv line imgs f : forall fm note w n w',
  fill_fields sr pv line imgs fm note w = Ok (n, w') ->
  ~ In f (List.map fst fm) ->
  dict_get (note_fields n) f = dict_get (note_fields note) f.
Proof.
  induction fm as [|[field idx] fm IH]; simpl; intros note w n w' H N.
  - now done_ret H.
  - step H as o w1 E1. step H as data w2 E2. destruct data as [d|].
    + step H as n1 w3 E3. apply note_setitem_Ok in E3 as [-> ->].
      rewrite (IH _ _ _ _ H) by tauto. simpl.
      apply dict_get_set_other. intros ->. tauto.
    + apply (IH _ _ _ _ H). tauto.
Qed.

(** Each entry of a field map without repeated keys decides its field. *)
Lemma fill_fields_sets sr pv line imgs f idx : forall fm note w n w',
  fill_fields sr pv line imgs fm note w = Ok (n, w') ->
  NoDup (List.map fst fm) -> In (f, idx) fm ->
  exists opt data w1 w2,
    py_getitem FILLING_OPTIONS idx = Ok opt
    /\ field_data opt sr pv line imgs w1 = Ok (data, w2)
    /\ incl (media w2) (media w')
    /\ dict_get (note_fields n) f
       = match data with
         | Some d => Some d
         | None => dict_get (note_fields note) f
         end.
Proof.
  induction fm as [|[field i0] fm IH]; simpl; intros note w n w' H ND Hin;
    [contradiction|].
  inversion ND as [|? ? Hnot ND']; subst.
  step H as o w1 E1. apply lift_Ok in E1 as (o' & O & E1).
  injection E1 as -> ->.
  step H as data w2 E2. destruct Hin as [Heq|Hin].
  - injection Heq as -> ->. exists o', data, w, w2. repeat split; auto.
    { destruct data as [d|].
      - step H as n1 w3 E3. apply note_setitem_Ok in E3 as [-> ->].
        eapply fill_fields_media; eauto.
      - eapply fill_fields_media; eauto. }
    destruct data as [d|].
    + step H as n1 w3 E3. apply note_setitem_Ok in E3 as [-> ->].
      rewrite (fill_fields_keeps _ _ _ _ _ _ _ _ _ _ H Hnot). simpl.
      apply dict_get_set_same.
    + apply (fill_fields_keeps _ _ _ _ _ _ _ _ _ _ H Hnot).
  - assert (f <> field) as Hne.
    { intros ->. apply Hnot. apply (in_map fst) in Hin. exact Hin. }
    destruct data as [d|].
    + step H as n1 w3 E3. apply note_setitem_Ok in E3 as [-> ->].
      destruct (IH _ _ _ _ H ND' Hin) as (opt & dt & wa & wb & O' & F & M & G).
      exists opt, dt, wa, wb. repeat split; auto. rewrite G.
      destruct dt; auto. simpl. apply dict_get_set_other. exact Hne.
    + eapply IH; eauto.
Qed.



(** *** Every note the loop submits was filled by the field loop *)




Lemma remove_images_same_media : forall images w u w',
  remove_images images w = Ok (u, w') -> media w' = media w.
Proof.
  induction images as [|im ims IH]; simpl; intros w u w' H.
  - now done_ret H.
  - step H as u1 w1 E1. apply os_remove_Ok in E1 as ->.
    apply IH in H. exact H.
Qed.

(** The steps of a completed run. *)
Lemma run_import_steps cfg w rep w' :
  run_import cfg w = Ok (rep, w') ->
  exists c w1 r w2,
    classify (replace_char " " "." (cfg_prov cfg)) (List.map fst (files w))
      (mkClassified [] [] []) w = Ok (c, w1)
    /\ import_audio cfg (replace_char " " "." (cfg_prov cfg))
         (if Str.mem (cfg_deck_name cfg) (decks w)
          then Some (cfg_deck_name cfg) else None)
         (dict_get (models w) (cfg_model_name cfg)) c 0 (audio_files c) 0 w1
       = Ok (r, w2)
    /\ submitted w' = submitted w2 /\ media w' = media w2
    /\ rep = mkReport (fst r) (snd r)
               (if snd r then show_failure_dialog
                else show_completion_dialog (fst r) (cfg_deck_name cfg)).
Proof.
  unfold run_import. intros H.
  step H as deck w1 E1. injection E1 as <- <-.
  step H as model w2 E2. injection E2 as <- <-.
  step H as u3 w3 E3. unfold os_chdir in E3.
  destruct (Str.mem (cfg_dir_path cfg) (paths w)); [|discriminate].
  injection E3 as _ <-.
  step H as names w4 E4. injection E4 as <- <-.
  step H as c w5 E5. step H as r w6 E6. step H as u7 w7 E7.
  destruct r as [count failed]. done_ret H.
  exists c, w5, (count, failed), w6. repeat split; auto.
  - apply remove_images_same_col in E7 as [_ S7]. exact S7.
  - apply remove_images_same_media in E7. exact E7.
Qed.


End FieldFacts.

Section MediaFacts.

Context {P : Platform}.



(** What one round stores and what it writes into a field mapped to the
    audio reference: the file goes to the media store as [std_root ++ ext],
    the field names [std_root]. *)
Lemma import_one_audio_reference cfg pre deck model c i root ext w n w' :
  import_one cfg pre deck model c i root ext w = Ok (n, w') ->
  NoDup (List.map fst (cfg_field_map cfg)) ->
  exists t raw note,
    let std_root :=
      (pre ++ ".audio-" ++ t ++ "(" ++ Str.of_nat (i + 1) ++ ")")%string in
    In ((std_root ++ ext)%string, raw) (media w')
    /\ In (note, n) (submitted w')
    /\ forall f idx,
        In (f, idx) (cfg_field_map cfg) ->
        py_getitem FILLING_OPTIONS idx = Ok FILL_AUDIO ->
        dict_get (note_fields note) f = Some (sound_tag std_root).
Proof.
  unfold import_one. intros H ND.
  step H as t w1 E1. injection E1 as <- <-.
  step H as u2 w2 E2. apply copyfile_Ok in E2 as (raw & _ & ->).
  step H as u3 w3 E3. apply media_addFile_Ok in E3 as (raw3 & _ & ->).
  step H as u4 w4 E4. apply os_remove_Ok in E4 as ->.
  step H as n5 w5 E5. apply new_note_Ok in E5 as [-> _].
  step H as l6 w6 E6. apply subtitle_line_same in E6 as ->.
  step H as n7 w7 E7.
  pose proof (fill_fields_same_col _ _ _ _ _ _ _ _ _ E7) as [C7 S7].
  pose proof (fill_fields_media _ _ _ _ _ _ _ _ _ E7) as M7.
  unfold col_addNote in H. injection H as <- <-.
  exists (time_str (clock w)), raw3, (note_add_tag n7 (cfg_tags cfg)).
  cbv zeta. simpl. split; [|split].
  - apply M7. simpl. apply in_or_app. right. left. reflexivity.
  - apply in_or_app. right. left. reflexivity.
  - intros f idx Hin Hopt.
    destruct (fill_fields_sets _ _ _ _ _ _ _ _ _ _ _ E7 ND Hin)
      as (opt & data & wa & wb & O & D & _ & G).
    rewrite Hopt in O. injection O as <-.
    unfold field_data in D. simpl in D. done_ret D. exact G.
Qed.

End MediaFacts.

(** ** The settings document and the grid *)

Lemma as_field_map_of_field_map (fm : dict Z) :
  as_field_map (of_field_map fm) = Ok fm.
Proof.
  unfold as_field_map, of_field_map.
  induction fm as [|[k z] fm IH]; simpl; [reflexivity | now rewrite IH].
Qed.

Lemma dict_get_Some_In {V : Type} (d : dict V) k v :
  dict_get d k = Some v -> In k (List.map fst d).
Proof.
  induction d as [|[k' v'] d IH]; simpl; [discriminate|].
  destruct (String.eqb k' k) eqn:E; [apply String.eqb_eq in E; auto | auto].
Qed.

Lemma nth_error_skipn {A : Type} (l : list A) : forall k x,
  nth_error l k = Some x -> skipn k l = x :: skipn (S k) l.
Proof.
  induction l as [|a l IH]; intros [|k] x H; simpl in *; try discriminate.
  - now injection H as ->.
  - now apply IH.
Qed.

Lemma read_grid_rows grid : forall n k fm fm',
  read_grid grid (List.seq k n) fm = Ok fm' ->
  fm' = rows_to_dict (firstn n (skipn k grid)) fm.
Proof.
  induction n as [|n IH]; intros k fm fm' H; simpl in H.
  - injection H as <-. reflexivity.
  - destruct (nth_error grid k) as [[field idx]|] eqn:E; [|discriminate].
    apply IH in H as ->.
    rewrite (nth_error_skipn _ _ _ E). reflexivity.
Qed.

Lemma rows_to_dict_keeps name : forall rows fm,
  ~ In name (List.map fst rows) ->
  dict_get (rows_to_dict rows fm) name = dict_get fm name.
Proof.
  induction rows as [|[k v] rows IH]; intros fm N; simpl in *; [reflexivity|].
  unfold rows_to_dict in *. simpl. rewrite IH by tauto.
  apply dict_get_set_other. intros ->. tauto.
Qed.

Lemma rows_to_dict_get name idx : forall rows fm,
  NoDup (List.map fst rows) -> In (name, idx) rows ->
  dict_get (rows_to_dict rows fm) name = Some idx.
Proof.
  induction rows as [|[k v] rows IH]; intros fm ND Hin; simpl in *; [contradiction|].
  inversion ND as [|? ? Hnot ND']; subst. unfold rows_to_dict in *. simpl.
  destruct Hin as [E|Hin].
  - injection E as -> ->.
    fold (rows_to_dict rows (dict_set fm name idx)).
    rewrite rows_to_dict_keeps by exact Hnot. apply dict_get_set_same.
  - now apply IH.
Qed.

Lemma dict_set_fresh {V : Type} (d : dict V) k v :
  ~ In k (List.map fst d) -> dict_set d k v = d ++ [(k, v)].
Proof.
  induction d as [|[k' v'] d IH]; simpl; intros N; [reflexivity|].
  destruct (String.eqb_spec k' k) as [->|_]; [tauto|].
  rewrite IH by tauto. reflexivity.
Qed.

Lemma rows_to_dict_fresh : forall rows acc,
  NoDup (List.map fst rows) ->
  (forall k, In k (List.map fst rows) -> ~ In k (List.map fst acc)) ->
  rows_to_dict rows acc = acc ++ rows.
Proof.
  induction rows as [|[k v] rows IH]; intros acc ND Hfresh; simpl.
  - now rewrite app_nil_r.
  - inversion ND as [|? ? Hnot ND']; subst. unfold rows_to_dict in *. simpl.
    rewrite dict_set_fresh by (apply Hfresh; left; reflexivity).
    rewrite IH; [now rewrite <- app_assoc | exact ND' |].
    intros k' Hk'. rewrite map_app, in_app_iff. simpl. intros [Hacc|[->|[]]].
    + apply (Hfresh k'); [right; exact Hk' | exact Hacc].
    + contradiction.
Qed.

Lemma dict_get_In_NoDup {V : Type} (d : dict V) k v :
  NoDup (List.map fst d) -> In (k, v) d -> dict_get d k = Some v.
Proof.
  induction d as [|[k' v'] d IH]; simpl; intros ND Hin; [contradiction|].
  inversion ND as [|? ? Hnot ND']; subst. destruct Hin as [E|Hin].
  - injection E as -> ->. now rewrite String.eqb_refl.
  - destruct (String.eqb_spec k' k) as [->|_]; [|auto].
    exfalso. apply Hnot. apply (in_map fst) in Hin. exact Hin.
Qed.

(** A grid whose rows hold indices a combo box can show is the grid that
    [create_field_grid] builds from its own rows. *)
Lemma grid_of_rows (rows : list (string * Z)) :
  NoDup (List.map fst rows) ->
  Forall (fun r => (-1 <= snd r < 6)%Z) rows ->
  grid_of rows (List.map fst rows) = rows.
Proof.
  intros ND R. unfold grid_of. rewrite map_map.
  rewrite <- (map_id rows) at 2. apply map_ext_in.
  intros [name idx] Hin. simpl. unfold dict_get_default.
  rewrite (dict_get_In_NoDup _ _ _ ND Hin).
  rewrite Forall_forall in R. specialize (R _ Hin). simpl in R.
  unfold setCurrentIndex. simpl.
  destruct (Z.leb_spec 0 idx), (Z.ltb_spec idx 6); simpl; f_equal; lia.
Qed.

Lemma bind_eq {A B : Type} (m : M A) (k : A -> M B) w a w1 :
  m w = Ok (a, w1) -> bind m k w = k a w1.
Proof. unfold bind. now intros ->. Qed.

Section DialogFacts.

Context {P : Platform}.

Lemma os_path_exists_true path w w' :
  os_path_exists path w = Ok (true, w') ->
  w' = w /\ path <> EmptyString /\ In path (paths w).
Proof.
  unfold os_path_exists. intros H. injection H as H <-.
  destruct (String.eqb_spec path EmptyString) as [->|N]; [discriminate|].
  apply StrFacts.mem_In in H. auto.
Qed.

Lemma os_path_exists_In path w :
  path <> EmptyString -> In path (paths w) ->
  os_path_exists path w = Ok (true, w).
Proof.
  intros N H. unfold os_path_exists.
  apply String.eqb_neq in N. rewrite N.
  apply StrFacts.mem_In in H. now rewrite H.
Qed.

(** A confirmed [accept]: what it leaves in the dialog and on disk. *)
Lemma accept_saved reply d w d1 w1 :
  accept reply d w = Ok (d1, w1) ->
  accepted d = false -> accepted d1 = true ->
  exists flds,
    dirPath d <> EmptyString /\ In (dirPath d) (paths w)
    /\ dict_get (models w) (modelName d1) = Some flds
    /\ d1 = mkDialog (dirPath d)
              (if String.eqb (prov d) EmptyString then "Unknown" else prov d)
              (if String.eqb (deckName d) EmptyString
               then current_deck w else deckName d)
              (if String.eqb (modelName d) EmptyString
               then current_model w else modelName d)
              (rows_to_dict (firstn (List.length flds) (fieldMapGrid d)) [])
              (tags d) (fieldMapGrid d) true
    /\ w1 = set_settings_json (Some (json_dumps (settings_doc d1))) w.
Proof.
  unfold accept. intros H A0 A1.
  step H as found w2 E2. destruct found; simpl in H.
  - apply os_path_exists_true in E2 as (-> & Hne & Hin).
    step H as dn w3 E3. injection E3 as <- <-.
    step H as mn w4 E4. injection E4 as <- <-.
    step H as model w5 E5. injection E5 as <- <-.
    destruct (dict_get (models w) _) as [flds|] eqn:M; [|discriminate].
    step H as fm w6 E6. apply lift_Ok in E6 as (fm' & R & E6).
    injection E6 as -> ->. apply read_grid_rows in R. simpl in R. subst fm'.
    step H as u w7 E7. injection E7 as _ <-. done_ret H.
    exists flds. simpl. repeat split; auto.
  - done_ret H. unfold browse_dir in A1.
    destruct (String.eqb reply EmptyString); simpl in A1; congruence.
Qed.

Lemma create_field_grid_Ok d w flds :
  modelName d <> EmptyString ->
  dict_get (models w) (modelName d) = Some flds ->
  create_field_grid d w = Ok (with_grid (grid_of (fieldMap d) flds) d, w).
Proof.
  intros N M. unfold create_field_grid, bind, models_byName.
  apply String.eqb_neq in N. rewrite N, M. reflexivity.
Qed.

(** [__init__] on a settings file that holds the document of a dialog. *)
Lemma init_from_document w text d1 flds :
  settings_json w = Some text ->
  json_loads text = Some (settings_doc d1) ->
  dirPath d1 <> EmptyString -> In (dirPath d1) (paths w) ->
  In (deckName d1) (decks w) ->
  dict_get (models w) (modelName d1) = Some flds ->
  init w = Ok (mkDialog (dirPath d1) (prov d1) (deckName d1) (modelName d1)
                 (fieldMap d1) (tags d1)
                 (if String.eqb (modelName d1) EmptyString then []
                  else grid_of (fieldMap d1) flds)
                 false, w).
Proof.
  intros S J Dne Din Kin M.
  assert (L : load_settings w = Ok (settings_doc d1, w)).
  { unfold load_settings, try_except, read_settings_file, json_load, bind.
    rewrite S, J. reflexivity. }
  apply StrFacts.mem_In in Kin.
  apply dict_get_Some_In in M as Min. apply StrFacts.mem_In in Min.
  unfold init.
  rewrite (bind_eq _ _ _ _ _ L).
  rewrite (bind_eq _ _ w (dirPath d1) w) by reflexivity.
  rewrite (bind_eq _ _ _ _ _ (os_path_exists_In _ _ Dne Din)).
  rewrite (bind_eq _ _ w (dirPath d1) w) by reflexivity.
  rewrite (bind_eq _ _ w (prov d1) w) by reflexivity.
  rewrite (bind_eq _ _ w (deckName d1) w) by reflexivity.
  rewrite (bind_eq _ _ w (deckName d1) w) by (now rewrite Kin).
  rewrite (bind_eq _ _ w (modelName d1) w) by reflexivity.
  rewrite (bind_eq _ _ w (modelName d1) w) by (now rewrite Min).
  rewrite (bind_eq _ _ w (of_field_map (fieldMap d1)) w) by reflexivity.
  rewrite (bind_eq _ _ w (fieldMap d1) w)
    by (unfold lift; now rewrite as_field_map_of_field_map).
  destruct (String.eqb (modelName d1) EmptyString) eqn:E.
  - rewrite (bind_eq _ _ w
               (with_grid []
                  (mkDialog (dirPath d1) (prov d1) (deckName d1) (modelName d1)
                     (fieldMap d1) EmptyString [] false)) w)
      by (unfold create_field_grid; simpl; now rewrite E).
    rewrite (bind_eq _ _ w (tags d1) w) by reflexivity. reflexivity.
  - apply String.eqb_neq in E.
    rewrite (bind_eq _ _ _ _ _
               (create_field_grid_Ok
                  (mkDialog (dirPath d1) (prov d1) (deckName d1) (modelName d1)
                     (fieldMap d1) EmptyString [] false) w flds E M)).
    rewrite (bind_eq _ _ w (tags d1) w) by reflexivity. reflexivity.
Qed.

End DialogFacts.

(** ** When a run completes *)

Lemma dict_get_keys {V : Type} (d : dict V) k :
  dict_get d k <> None <-> In k (List.map fst d).
Proof.
  induction d as [|[k' v'] d IH]; simpl; [tauto|].
  destruct (String.eqb_spec k' k) as [->|N].
  - split; [auto | discriminate].
  - rewrite IH. split; [auto | intros [E|H]; [contradiction | exact H]].
Qed.

Lemma dict_get_app {V : Type} (d e : dict V) k :
  dict_get (d ++ e) k
  = match dict_get d k with
    | Some v => Some v
    | None => dict_get e k
    end.
Proof.
  induction d as [|[k' v'] d IH]; simpl; [reflexivity|].
  destruct (String.eqb k' k); auto.
Qed.

Lemma dict_get_fresh {V : Type} (d : dict V) k :
  ~ In k (List.map fst d) -> dict_get d k = None.
Proof.
  intros N. destruct (dict_get d k) eqn:E; [|reflexivity].
  exfalso. apply N, dict_get_keys. congruence.
Qed.

Lemma remove_entry_app_fresh (d e : dict string) k v :
  ~ In k (List.map fst d) -> remove_entry k (d ++ (k, v) :: e) = d ++ e.
Proof.
  induction d as [|[k' v'] d IH]; simpl; intros N.
  - now rewrite String.eqb_refl.
  - destruct (String.eqb_spec k' k) as [->|_]; [tauto|].
    rewrite IH by tauto. reflexivity.
Qed.

Section Completion.

Context {P : Platform}.

(** *** The classification loop *)

Lemma classify_file_not_image pre f c w :
  role f <> Image ->
  exists c', classify_file pre f c w = Ok (c', w)
             /\ std_image_files c' = std_image_files c.
Proof.
  intros N. unfold classify_file.
  pose proof (role_cases f) as RC. cbv zeta in RC.
  destruct (splitext f) as [file_root ext]. cbn [snd] in RC.
  destruct RC as [[R Ma]|[(R & Ma & Ms)|[(R & Ma & Ms & Mi)|(R & Ma & Ms & Mi)]]];
    try congruence; rewrite Ma; try rewrite Ms; try rewrite Mi;
    eexists; split; reflexivity.
Qed.

Lemma classify_file_image pre f c w raw :
  role f = Image ->
  dict_get (files w) f = Some raw ->
  let std_name :=
    (pre ++ ".image-" ++ time_str (clock w) ++ snd (splitext f))%string in
  ~ In std_name (List.map fst (files w)) ->
  classify_file pre f c w
  = Ok (mkClassified (audio_files c) (std_image_files c ++ [std_name])
          (sub_files c),
        set_files (files w ++ [(std_name, raw)]) (set_clock (S (clock w)) w)).
Proof.
  intros R G std_name Hn. unfold classify_file.
  pose proof (role_cases f) as RC. cbv zeta in RC. subst std_name.
  destruct (splitext f) as [file_root ext]. cbn [snd] in *.
  destruct RC as [[R' Ma]|[(R' & Ma & Ms)|[(R' & Ma & Ms & Mi)|(R' & Ma & Ms & Mi)]]];
    try congruence. rewrite Ma, Ms, Mi.
  unfold bind, time_time, copyfile, ret. cbn [files set_clock]. rewrite G.
  destruct (String.eqb_spec f (pre ++ ".image-" ++ time_str (clock w) ++ ext))
    as [Ef|_].
  - exfalso. apply Hn. rewrite <- Ef. apply dict_get_keys. congruence.
  - rewrite (dict_set_fresh _ _ _ Hn). reflexivity.
Qed.

Lemma classify_completes pre : forall names c w,
  (forall f, In f names -> In f (List.map fst (files w))) ->
  NoDup (image_std_names pre names (clock w)) ->
  (forall n, In n (image_std_names pre names (clock w)) ->
             ~ In n (List.map fst (files w))) ->
  exists c' w' copies,
    classify pre names c w = Ok (c', w')
    /\ std_image_files c'
       = std_image_files c ++ image_std_names pre names (clock w)
    /\ files w' = files w ++ copies
    /\ List.map fst copies = image_std_names pre names (clock w)
    /\ clock w' = clock w + List.length copies.
Proof.
  induction names as [|f names IH]; intros c w Hex ND Hfresh;
    cbn [classify image_std_names] in *.
  - exists c, w, []. unfold ret. rewrite !app_nil_r. repeat split; auto.
  - assert (Hrest : forall g, In g names -> In g (List.map fst (files w)))
      by (intros g Hg; apply Hex; right; exact Hg).
    destruct (role f) eqn:R.
    1, 2, 4:
      destruct (classify_file_not_image pre f c w) as (c1 & E1 & S1);
      [congruence|];
      destruct (IH c1 w Hrest ND Hfresh) as (c' & w' & copies & E & Hs & Hf & Hm & Hc);
      exists c', w', copies; rewrite (bind_eq _ _ _ _ _ E1), <- S1;
      repeat split; auto.
    inversion ND as [|? ? Hnot ND']; subst.
    assert (Hin : In f (List.map fst (files w))) by (apply Hex; left; reflexivity).
    destruct (dict_get (files w) f) as [raw|] eqn:G;
      [|exfalso; apply dict_get_keys in Hin; congruence].
    assert (Hn : ~ In (pre ++ ".image-" ++ time_str (clock w)
                           ++ snd (splitext f))%string (List.map fst (files w)))
      by (apply Hfresh; left; reflexivity).
    rewrite (bind_eq _ _ _ _ _ (classify_file_image pre f c w raw R G Hn)).
    match goal with
    | |- context [classify pre names ?c1 ?w1] =>
        destruct (IH c1 w1) as (c' & w' & copies & E & Hs & Hf & Hm & Hc)
    end.
    + intros g Hg. simpl. rewrite map_app, in_app_iff. left. auto.
    + exact ND'.
    + intros n Hnin. simpl. rewrite map_app, in_app_iff. simpl.
      intros [Hk|[<-|[]]]; [|contradiction].
      apply (Hfresh n); [right; exact Hnin | exact Hk].
    + exists c', w',
        (((pre ++ ".image-" ++ time_str (clock w) ++ snd (splitext f))%string, raw)
           :: copies).
      rewrite E.
      simpl in Hs, Hf, Hc, Hm. repeat split.
      * rewrite Hs, <- app_assoc. reflexivity.
      * rewrite Hf, <- app_assoc. reflexivity.
      * simpl. now rewrite Hm.
      * simpl. lia.
Qed.

(** *** One round of the audio loop *)

Lemma py_getitem_options idx :
  (-6 <= idx < 6)%Z -> exists opt, py_getitem FILLING_OPTIONS idx = Ok opt.
Proof.
  intros H.
  assert (C : idx = (-6)%Z \/ idx = (-5)%Z \/ idx = (-4)%Z \/ idx = (-3)%Z
              \/ idx = (-2)%Z \/ idx = (-1)%Z \/ idx = 0%Z \/ idx = 1%Z
              \/ idx = 2%Z \/ idx = 3%Z \/ idx = 4%Z \/ idx = 5%Z) by lia.
  repeat (destruct C as [->|C]; [eexists; reflexivity|]).
  subst idx. eexists; reflexivity.
Qed.

Lemma list_index_raises x : forall xs e,
  list_index x xs = Raise e -> e = ValueError.
Proof.
  induction xs as [|y ys IH]; simpl; intros e H; [congruence|].
  destruct (String.eqb y x); [discriminate|].
  destruct (list_index x ys) as [k|e'] eqn:E; [discriminate|].
  injection H as <-. now apply IH.
Qed.

Lemma list_index_entry root : forall (subs : list (string * string)) k,
  list_index root (List.map fst subs) = Ok k ->
  exists e, nth_error (List.map snd subs) k = Some e /\ In (root, e) subs.
Proof.
  induction subs as [|[r e] subs IH]; simpl; intros k H; [discriminate|].
  destruct (String.eqb_spec r root) as [->|_].
  - injection H as <-. exists e. simpl. auto.
  - destruct (list_index root (List.map fst subs)) as [k'|e'] eqn:E;
      [|discriminate].
    injection H as <-. destruct (IH k' eq_refl) as (e0 & N & Hin).
    exists e0. simpl. auto.
Qed.

Lemma subtitle_line_completes root subs w :
  (forall r e, In (r, e) subs -> In (r ++ e)%string (List.map fst (files w))) ->
  exists line, subtitle_line root subs w = Ok (line, w).
Proof.
  intros Hex. unfold subtitle_line, try_except, bind, lift.
  destruct (list_index root (List.map fst subs)) as [k|e] eqn:I.
  - destruct (list_index_entry _ _ _ I) as (ext & N & Hin).
    rewrite py_getitem_nat, N.
    unfold read_text_utf_8_sig, read_bytes, bind.
    apply Hex, dict_get_keys in Hin.
    destruct (dict_get (files w) (root ++ ext)%string) as [raw|]; [|congruence].
    destruct (utf_8_decode (skip_bom raw)); simpl; unfold ret; eauto.
  - apply list_index_raises in I. subst e. simpl. unfold ret. eauto.
Qed.

Lemma random_choice_completes xs w :
  xs <> [] ->
  exists x, In x xs /\ random_choice xs w = Ok (x, set_draws (S (draws w)) w).
Proof.
  intros N. unfold random_choice.
  destruct (nth_error xs (rand_draw (draws w) mod List.length xs)) as [x|] eqn:E.
  - exists x. split; [eapply nth_error_In; eauto | reflexivity].
  - exfalso. apply nth_error_None in E.
    assert (List.length xs <> 0) by (destruct xs; simpl; congruence).
    pose proof (Nat.mod_upper_bound (rand_draw (draws w)) (List.length xs)). lia.
Qed.

Lemma field_data_completes opt sr pv line imgs w :
  (forall n, In n imgs -> In n (List.map fst (files w))) ->
  exists data w',
    field_data opt sr pv line imgs w = Ok (data, w')
    /\ files w' = files w /\ clock w' = clock w.
Proof.
  intros Hex. unfold field_data.
  repeat match goal with
         | |- context [if ?b then _ else _] =>
             destruct b; [do 2 eexists; repeat split; reflexivity|]
         end.
  destruct (String.eqb opt FILL_IMAGE);
    [|do 2 eexists; repeat split; reflexivity].
  destruct imgs as [|i0 imgs]; [do 2 eexists; repeat split; reflexivity|].
  destruct (random_choice_completes (i0 :: imgs) w) as (x & Hin & R);
    [discriminate|].
  rewrite (bind_eq _ _ _ _ _ R).
  apply Hex, dict_get_keys in Hin.
  unfold bind, media_addFile. cbn [files set_draws].
  destruct (dict_get (files w) x) as [raw|]; [|congruence].
  do 2 eexists. repeat split; reflexivity.
Qed.

Lemma fill_fields_completes sr pv line imgs : forall fm note w,
  (forall f idx, In (f, idx) fm ->
                 (-6 <= idx < 6)%Z /\ dict_get (note_fields note) f <> None) ->
  (forall n, In n imgs -> In n (List.map fst (files w))) ->
  exists n' w',
    fill_fields sr pv line imgs fm note w = Ok (n', w')
    /\ files w' = files w /\ clock w' = clock w.
Proof.
  induction fm as [|[field idx] fm IH]; intros note w Hfm Hex; cbn [fill_fields].
  - do 2 eexists. repeat split; reflexivity.
  - destruct (Hfm field idx (or_introl eq_refl)) as [Hr Hk].
    destruct (py_getitem_options idx Hr) as [opt O].
    unfold lift. rewrite O.
    rewrite (bind_eq _ _ w opt w) by reflexivity.
    destruct (field_data_completes opt sr pv line imgs w Hex)
      as (data & w1 & D & F1 & C1).
    rewrite (bind_eq _ _ _ _ _ D).
    destruct data as [d|].
    + unfold note_setitem.
      destruct (dict_get (note_fields note) field); [|congruence].
      rewrite (bind_eq _ _ w1 _ w1) by reflexivity.
      edestruct (IH (mkNote (note_model note) (note_did note)
                       (dict_set (note_fields note) field d) (note_tags note)) w1)
        as (n' & w' & E & F & C).
      * intros f i Hin. destruct (Hfm f i (or_intror Hin)) as [Hr' Hk'].
        split; [exact Hr'|]. simpl. now apply dict_get_set_keeps.
      * intros n Hn. rewrite F1. auto.
      * exists n', w'. rewrite E. repeat split; congruence.
    + edestruct (IH note w1) as (n' & w' & E & F & C).
      * intros f i Hin. apply Hfm. right. exact Hin.
      * intros n Hn. rewrite F1. auto.
      * exists n', w'. rewrite E. repeat split; congruence.
Qed.

Lemma new_note_fields flds f :
  In f flds ->
  dict_get (List.map (fun g => (g, EmptyString)) flds) f <> None.
Proof.
  intros H. apply dict_get_keys. rewrite map_map. simpl. now rewrite map_id.
Qed.

Lemma import_one_completes cfg pre did flds c i root ext w :
  let std_name :=
    ((pre ++ ".audio-" ++ time_str (clock w) ++ "(" ++ Str.of_nat (i + 1) ++ ")")
       ++ ext)%string in
  In (root ++ ext)%string (List.map fst (files w)) ->
  ~ In std_name (List.map fst (files w)) ->
  (forall r e, In (r, e) (sub_files c) ->
               In (r ++ e)%string (List.map fst (files w))) ->
  (forall n, In n (std_image_files c) -> In n (List.map fst (files w))) ->
  (forall f idx, In (f, idx) (cfg_field_map cfg) ->
                 (-6 <= idx < 6)%Z /\ In f flds) ->
  exists n w',
    import_one cfg pre (Some did) (Some flds) c i root ext w = Ok (n, w')
    /\ files w' = files w /\ clock w' = S (clock w).
Proof.
  intros std_name Hsrc Hfresh Hsubs Himgs Hfm. unfold import_one.
  rewrite (bind_eq _ _ w (time_str (clock w)) (set_clock (S (clock w)) w))
    by reflexivity.
  cbv zeta. fold std_name.
  apply dict_get_keys in Hsrc.
  destruct (dict_get (files w) (root ++ ext)%string) as [raw|] eqn:G;
    [|congruence].
  assert (Hne : String.eqb (root ++ ext)%string std_name = false).
  { apply String.eqb_neq. intros E. apply Hfresh. rewrite <- E.
    apply dict_get_keys. congruence. }
  set (w1 := set_clock (S (clock w)) w).
  set (w2 := set_files (files w ++ [(std_name, raw)]) w1).
  assert (E2 : copyfile (root ++ ext)%string std_name w1 = Ok (tt, w2)).
  { unfold copyfile. cbn [files w1 set_clock]. rewrite G.
    rewrite Hne, (dict_set_fresh _ _ _ Hfresh). reflexivity. }
  rewrite (bind_eq _ _ _ _ _ E2).
  assert (G2 : dict_get (files w2) std_name = Some raw).
  { cbn [files w2 set_files]. rewrite dict_get_app, (dict_get_fresh _ _ Hfresh).
    simpl. now rewrite String.eqb_refl. }
  set (w3 := set_media (media w2 ++ [(std_name, raw)]) w2).
  assert (E3 : media_addFile std_name w2 = Ok (tt, w3)).
  { unfold media_addFile. rewrite G2. reflexivity. }
  rewrite (bind_eq _ _ _ _ _ E3).
  set (w4 := set_files (files w) w3).
  assert (E4 : os_remove std_name w3 = Ok (tt, w4)).
  { unfold os_remove. cbn [files w3 set_media]. rewrite G2.
    cbn [files w2 set_files].
    rewrite (remove_entry_app_fresh _ [] _ _ Hfresh), app_nil_r. reflexivity. }
  rewrite (bind_eq _ _ _ _ _ E4).
  rewrite (bind_eq _ _ w4 _ w4) by reflexivity.
  destruct (subtitle_line_completes root (sub_files c) w4 Hsubs) as [line L].
  rewrite (bind_eq _ _ _ _ _ L).
  edestruct (fill_fields_completes
               (pre ++ ".audio-" ++ time_str (clock w) ++ "("
                    ++ Str.of_nat (i + 1) ++ ")")%string
               (cfg_prov cfg) line (std_image_files c) (cfg_field_map cfg)
               (mkNote (cfg_model_name cfg) did
                  (List.map (fun f => (f, EmptyString)) flds) []) w4)
    as (n7 & w7 & F & Ff & Fc).
  { intros f idx Hin. destruct (Hfm f idx Hin) as [Hr Hf].
    split; [exact Hr | now apply new_note_fields]. }
  { exact Himgs. }
  rewrite (bind_eq _ _ _ _ _ F).
  unfold col_addNote. do 2 eexists. split; [reflexivity|].
  cbn [files clock set_notes]. rewrite Ff, Fc. split; reflexivity.
Qed.

(** *** The audio loop and the removal of the copies *)

Lemma import_audio_completes cfg pre did flds c :
  forall todo i cc w,
    (forall r e, In (r, e) todo ->
                 In (r ++ e)%string (List.map fst (files w))) ->
    (forall a, In a (audio_std_names pre todo i (clock w)) ->
               ~ In a (List.map fst (files w))) ->
    (forall r e, In (r, e) (sub_files c) ->
                 In (r ++ e)%string (List.map fst (files w))) ->
    (forall n, In n (std_image_files c) -> In n (List.map fst (files w))) ->
    (forall f idx, In (f, idx) (cfg_field_map cfg) ->
                   (-6 <= idx < 6)%Z /\ In f flds) ->
    exists r w',
      import_audio cfg pre (Some did) (Some flds) c i todo cc w = Ok (r, w')
      /\ files w' = files w.
Proof.
  induction todo as [|[root ext] todo IH];
    intros i cc w Hsrc Hfresh Hsubs Himgs Hfm;
    cbn [import_audio audio_std_names] in *.
  - do 2 eexists. split; reflexivity.
  - destruct (import_one_completes cfg pre did flds c i root ext w)
      as (n & w1 & E & F1 & C1); auto.
    { apply Hsrc. left. reflexivity. }
    { apply Hfresh. left. reflexivity. }
    rewrite (bind_eq _ _ _ _ _ E).
    destruct (Nat.eqb n 0).
    + do 2 eexists. split; [reflexivity | exact F1].
    + destruct (IH (S i) (S cc) w1) as (r & w' & E' & F'); auto.
      * intros r e Hin. rewrite F1. apply Hsrc. right. exact Hin.
      * intros a Hin. rewrite F1. apply Hfresh. right. rewrite <- C1. exact Hin.
      * intros r e Hin. rewrite F1. auto.
      * intros n0 Hin. rewrite F1. auto.
      * exists r, w'. split; [exact E' | congruence].
Qed.

Lemma remove_images_completes : forall copies base w,
  files w = base ++ copies ->
  NoDup (List.map fst copies) ->
  (forall n, In n (List.map fst copies) -> ~ In n (List.map fst base)) ->
  exists w', remove_images (List.map fst copies) w = Ok (tt, w')
             /\ files w' = base.
Proof.
  induction copies as [|[n raw] copies IH]; intros base w F ND Hfresh;
    cbn [remove_images List.map fst] in *.
  - exists w. rewrite app_nil_r in F. split; [reflexivity | exact F].
  - inversion ND as [|? ? Hnot ND']; subst.
    assert (Hn : ~ In n (List.map fst base)) by (apply Hfresh; left; reflexivity).
    assert (E : os_remove n w = Ok (tt, set_files (base ++ copies) w)).
    { unfold os_remove. rewrite F, dict_get_app, (dict_get_fresh _ _ Hn).
      simpl. rewrite String.eqb_refl.
      now rewrite (remove_entry_app_fresh _ _ _ _ Hn). }
    rewrite (bind_eq _ _ _ _ _ E).
    apply IH; [reflexivity | exact ND' |].
    intros m Hm. apply Hfresh. right. exact Hm.
Qed.

(** *** The whole run *)

Lemma with_role_In r f names : In f (with_role r names) -> In f names.
Proof. unfold with_role. intros H. apply filter_In in H. tauto. Qed.

Lemma splitext_entries r names root ext :
  In (root, ext) (List.map splitext (with_role r names)) ->
  In (root ++ ext)%string names.
Proof.
  intros H. apply in_map_iff in H as (f & E & Hin).
  apply with_role_In in Hin. pose proof (splitext_join f) as J.
  rewrite E in J. simpl in J. now rewrite J.
Qed.

(** A run on a ready configuration returns a report, and leaves the
    directory as it found it: the copies it made are removed, the source
    files stay. *)
Theorem run_import_completes cfg w :
  ready cfg w ->
  exists rep w', run_import cfg w = Ok (rep, w') /\ files w' = files w.
Proof.
  unfold ready. cbv zeta.
  intros (Hdir & Hdeck & (flds & Hmodel & Hfm) & ND & Himg & Haud).
  set (pre := replace_char " " "." (cfg_prov cfg)) in *.
  set (names := List.map fst (files w)) in *.
  unfold run_import. fold pre.
  apply StrFacts.mem_In in Hdir, Hdeck.
  rewrite (bind_eq _ _ w (Some (cfg_deck_name cfg)) w)
    by (unfold decks_byName; now rewrite Hdeck).
  rewrite (bind_eq _ _ w (Some flds) w)
    by (unfold models_byName; now rewrite Hmodel).
  rewrite (bind_eq _ _ w tt w) by (unfold os_chdir; now rewrite Hdir).
  rewrite (bind_eq _ _ w names w) by reflexivity.
  destruct (classify_completes pre names (mkClassified [] [] []) w)
    as (c & w1 & copies & Ec & Hs & Hf & Hm & Hc); auto.
  pose proof (classify_lists _ _ _ _ _ _ Ec) as (Ha & Hsub & _).
  simpl in Hs, Ha, Hsub.
  rewrite (bind_eq _ _ _ _ _ Ec).
  assert (Hkeys : forall n, In n names -> In n (List.map fst (files w1))).
  { intros n Hn. rewrite Hf, map_app, in_app_iff. left. exact Hn. }
  assert (Hlen : List.length copies
                 = List.length (image_std_names pre names (clock w)))
    by (rewrite <- Hm; symmetry; apply length_map).
  destruct (import_audio_completes cfg pre (cfg_deck_name cfg) flds c
              (audio_files c) 0 0 w1) as (r & w2 & Ea & F2).
  - intros root ext Hin. rewrite Ha in Hin.
    apply Hkeys. eapply splitext_entries; eauto.
  - intros a Hin. rewrite Ha, Hc, Hlen in Hin.
    destruct (Haud a Hin) as [N1 N2].
    rewrite Hf, map_app, in_app_iff, Hm. tauto.
  - intros root ext Hin. rewrite Hsub in Hin.
    apply Hkeys. eapply splitext_entries; eauto.
  - intros n Hin. rewrite Hs, <- Hm in Hin.
    rewrite Hf, map_app, in_app_iff. right. exact Hin.
  - exact Hfm.
  - rewrite (bind_eq _ _ _ _ _ Ea).
    destruct (remove_images_completes copies (files w) w2) as (w3 & Er & F3).
    + congruence.
    + now rewrite Hm.
    + intros n Hn. rewrite Hm in Hn. apply Himg. exact Hn.
    + rewrite Hs, <- Hm. rewrite (bind_eq _ _ _ _ _ Er).
      destruct r as [count failed]. do 2 eexists.
      split; [reflexivity | exact F3].
Qed.

End Completion.

(** * The properties of the specification *)

Section ImporterProperties.

Context {P : Platform}.



End ImporterProperties.

(** Runs the first step of a [bind] chain whose result is known. *)
Ltac run_with a :=
  match goal with
  | |- bind ?m ?k ?w = _ =>
      let E := fresh "E" in
      assert (E : m w = Ok (a, w));
      [|rewrite (bind_eq m k w a w E); clear E]
  end.

Section DialogProperties.

Context {P : Platform}.

Lemma mem_false x xs : ~ In x xs -> Str.mem x xs = false.
Proof.
  intros N. destruct (Str.mem x xs) eqn:E; [|reflexivity].
  apply StrFacts.mem_In in E. contradiction.
Qed.

(** [__init__] when there is no settings file. *)
Lemma init_without_file w flds :
  settings_json w = None ->
  ~ In EmptyString (decks w) ->
  ~ In EmptyString (List.map fst (models w)) ->
  current_model w <> EmptyString ->
  dict_get (models w) (current_model w) = Some flds ->
  init w = Ok (mkDialog (home w) EmptyString (current_deck w) (current_model w)
                 [] EmptyString (List.map (fun name => (name, (-1)%Z)) flds)
                 false, w).
Proof.
  intros S Nd Nm Cm M.
  assert (L : load_settings w = Ok (JObj [], w)).
  { unfold load_settings, try_except, read_settings_file, bind. now rewrite S. }
  unfold init.
  run_with (JObj []); [exact L|].
  run_with EmptyString; [reflexivity|].
  run_with false; [reflexivity|].
  run_with (home w); [reflexivity|].
  run_with EmptyString; [reflexivity|].
  run_with EmptyString; [reflexivity|].
  run_with (current_deck w); [now rewrite (mem_false _ _ Nd)|].
  run_with EmptyString; [reflexivity|].
  run_with (current_model w); [now rewrite (mem_false _ _ Nm)|].
  run_with (JObj []); [reflexivity|].
  run_with (@nil (string * Z)); [reflexivity|].
  rewrite (bind_eq _ _ _ _ _
             (create_field_grid_Ok
                (mkDialog (home w) EmptyString (current_deck w) (current_model w)
                   [] EmptyString [] false) w flds Cm M)).
  run_with EmptyString; [reflexivity|]. reflexivity.
Qed.

Lemma init_parse_failure w text :
  settings_json w = Some text -> json_loads text = None ->
  load_settings w = Raise JSONDecodeError /\ init w = Raise JSONDecodeError.
Proof.
  intros S J.
  assert (L : load_settings w = Raise JSONDecodeError).
  { unfold load_settings, try_except, read_settings_file, json_load, bind.
    rewrite S, J. reflexivity. }
  split; [exact L|]. unfold init, bind. now rewrite L.
Qed.

(** C6 as amended: an absent settings file is not fatal, the dialog starts
    from the defaults (home directory, empty provenance and tags, current
    deck and note type, no field chosen); a settings file that does not
    parse is not caught, the exception leaves [__init__]. *)
Theorem settings_load_absent_or_unparsable :
  (forall w flds,
      settings_json w = None ->
      ~ In EmptyString (decks w) ->
      ~ In EmptyString (List.map fst (models w)) ->
      current_model w <> EmptyString ->
      dict_get (models w) (current_model w) = Some flds ->
      load_settings w = Ok (JObj [], w)
      /\ init w = Ok (mkDialog (home w) EmptyString (current_deck w)
                        (current_model w) [] EmptyString
                        (List.map (fun name => (name, (-1)%Z)) flds) false, w))
  /\ (forall w text,
         settings_json w = Some text -> json_loads text = None ->
         load_settings w = Raise JSONDecodeError
         /\ init w = Raise JSONDecodeError).
Proof.
  split.
  - intros w flds S Nd Nm Cm M. split; [|now apply init_without_file].
    unfold load_settings, try_except, read_settings_file, bind. now rewrite S.
  - apply init_parse_failure.
Qed.

(** C7: the document a confirmed dialog saved, loaded again while its
    directory, deck and note type exist, gives back the same directory,
    provenance, deck, note type, field map and tags, and the grid shows the
    saved choice of every field; when the note type still has the fields
    the confirmed grid was made for, the grid is the confirmed one. *)
Theorem settings_round_trip reply d w d1 w1 w2 flds :
  accept reply d w = Ok (d1, w1) ->
  accepted d = false -> accepted d1 = true ->
  json_loads (json_dumps (settings_doc d1)) = Some (settings_doc d1) ->
  settings_json w2 = settings_json w1 ->
  In (dirPath d1) (paths w2) ->
  In (deckName d1) (decks w2) ->
  dict_get (models w2) (modelName d1) = Some flds ->
  exists d2,
    init w2 = Ok (d2, w2)
    /\ dirPath d2 = dirPath d1 /\ prov d2 = prov d1
    /\ deckName d2 = deckName d1 /\ modelName d2 = modelName d1
    /\ fieldMap d2 = fieldMap d1 /\ tags d2 = tags d1
    /\ fieldMapGrid d2 = (if String.eqb (modelName d1) EmptyString then []
                          else grid_of (fieldMap d1) flds)
    /\ (modelName d1 <> EmptyString ->
        dict_get (models w) (modelName d1) = Some flds ->
        List.map fst (fieldMapGrid d) = flds -> NoDup flds ->
        Forall (fun r => (-1 <= snd r < 6)%Z) (fieldMapGrid d) ->
        fieldMap d1 = fieldMapGrid d /\ fieldMapGrid d2 = fieldMapGrid d).
Proof.
  intros A A0 A1 J S Din Kin M.
  destruct (accept_saved _ _ _ _ _ A A0 A1) as (flds1 & Dne & _ & M1 & Ed & Ew).
  assert (Dne1 : dirPath d1 <> EmptyString) by (rewrite Ed; exact Dne).
  assert (S2 : settings_json w2 = Some (json_dumps (settings_doc d1)))
    by (rewrite S, Ew; reflexivity).
  eexists. split; [exact (init_from_document _ _ _ _ S2 J Dne1 Din Kin M)|].
  simpl. do 7 (split; [reflexivity|]).
  intros Hm Hw Hg Hnd Hr.
  rewrite Hw in M1. injection M1 as <-.
  assert (F : fieldMap d1 = fieldMapGrid d).
  { rewrite Ed. simpl. rewrite <- Hg, length_map, firstn_all.
    apply (rows_to_dict_fresh _ []); [now rewrite Hg | auto]. }
  split; [exact F|].
  apply String.eqb_neq in Hm. rewrite Hm, F, <- Hg.
  apply grid_of_rows; [now rewrite Hg | assumption].
Qed.


End DialogProperties.


(** C1: in the scenario both audio files are stored in the media store under
    their standardized names with the extension [.mp3], and the Front
    fields, mapped to the audio reference, name them without the extension:
    no Front field refers to a stored name. *)
Theorem audio_reference_lacks_extension :
  exists rep w',
    Scenario.run = Ok (rep, w')
    /\ List.map fst (media w')
       = ["Show.S01.audio-1700000000.1(1).mp3";
          "Show.S01.audio-1700000000.2(2).mp3"]
    /\ List.map (fun note => dict_get (note_fields note) "Front") (col_notes w')
       = [Some (sound_tag "Show.S01.audio-1700000000.1(1)");
          Some (sound_tag "Show.S01.audio-1700000000.2(2)")]
    /\ forall name note,
        In name (List.map fst (media w')) -> In note (col_notes w') ->
        dict_get (note_fields note) "Front" <> Some (sound_tag name).
Proof.
  destruct Scenario.run as [[rep w']|e] eqn:E; vm_compute in E; [|discriminate].
  injection E as <- <-. do 2 eexists. split; [reflexivity|].
  split; [reflexivity|]. split; [reflexivity|].
  intros name note Hn Hc. simpl in Hn, Hc.
  destruct Hn as [<-|[<-|[]]]; destruct Hc as [<-|[<-|[]]]; vm_compute; discriminate.
Qed.



(** C6 as the spec states it, refuted: a settings file holding a lone
    opening brace does not parse, and neither the load nor the dialog's
    constructor returns. *)
Lemma settings_parse_failure_is_fatal :
  ~ (forall (P : Platform) (w : World) text,
        settings_json w = Some text -> json_loads text = None ->
        exists r, load_settings w = Ok r)
  /\ init (P := Scenario.P1) (set_settings_json (Some "{") Scenario.w0)
     = Raise JSONDecodeError.
Proof.
  split; [|reflexivity].
  intros H.
  destruct (H Scenario.P1 (set_settings_json (Some "{") Scenario.w0) "{"
              eq_refl eq_refl) as [r Hr].
  vm_compute in Hr. discriminate.
Qed.

(** ** The theorems at the scenario *)

Lemma scenario_ready : ready (P := Scenario.P1) Demo.scenario_config Scenario.w0.
Proof.
  unfold ready. cbv zeta. split; [vm_compute; auto|].
  split; [vm_compute; auto|]. split.
  { exists ["Front"; "Back"]. split; [reflexivity|].
    intros f idx Hin. vm_compute in Hin.
    destruct Hin as [E|[E|[]]]; injection E as <- <-;
      (split; [lia | vm_compute; auto]). }
  split; [vm_compute; repeat constructor; simpl; tauto|].
  split.
  - intros n Hn. vm_compute in Hn. destruct Hn as [<-|[]].
    vm_compute. intuition discriminate.
  - intros a Ha. vm_compute in Ha. destruct Ha as [<-|[<-|[]]];
      vm_compute; intuition discriminate.
Defined.

Lemma run_import_completes_scenario :
  exists rep w',
    Scenario.run = Ok (rep, w') /\ files w' = files Scenario.w0.
Proof.
  apply (run_import_completes (P := Scenario.P1) Demo.scenario_config
           Scenario.w0 scenario_ready).
Defined.





Lemma settings_round_trip_scenario :
  exists d1 w1 d2,
    Scenario.confirmed = Ok (d1, w1)
    /\ init (P := Scenario.P1) w1 = Ok (d2, w1)
    /\ dirPath d2 = dirPath d1 /\ prov d2 = prov d1
    /\ deckName d2 = deckName d1 /\ modelName d2 = modelName d1
    /\ fieldMap d2 = fieldMap d1 /\ tags d2 = tags d1.
Proof.
  destruct Scenario.confirmed as [[d1 w1]|e] eqn:E;
    [|vm_compute in E; discriminate].
  pose proof E as E'. vm_compute in E'. injection E' as Hd Hw.
  destruct (settings_round_trip (P := Scenario.P1) EmptyString Scenario.dialog
              Scenario.w0 d1 w1 w1 ["Front"; "Back"] E)
    as (d2 & I & D & Pv & K & M & F & T & _ & _);
    try reflexivity;
    try (rewrite <- ?Hd, <- ?Hw; vm_compute; auto; fail).
  exists d1, w1, d2. split; [reflexivity|]. split; [exact I|].
  repeat split; assumption.
Defined.


Lemma settings_load_absent_or_unparsable_scenario :
  load_settings (P := Scenario.P1) Scenario.w0 = Ok (JObj [], Scenario.w0)
  /\ load_settings (P := Scenario.P1)
       (set_settings_json (Some "{") Scenario.w0) = Raise JSONDecodeError.
Proof.
  split.
  - apply (proj1 (settings_load_absent_or_unparsable (P := Scenario.P1))
             Scenario.w0 ["Front"; "Back"]);
      try reflexivity; vm_compute; intuition discriminate.
  - apply (proj2 (settings_load_absent_or_unparsable (P := Scenario.P1))
             (set_settings_json (Some "{") Scenario.w0) "{"); reflexivity.
Defined.


(** * Further properties of the code *)

(** ** Timestamp stripping *)

Lemma digits_then_other h1 : forall h2 c1 c2 x y,
  Str.forallb is_digit h1 = true -> Str.forallb is_digit h2 = true ->
  is_digit c1 = false -> is_digit c2 = false ->
  (h1 ++ String c1 x)%string = (h2 ++ String c2 y)%string ->
  h1 = h2 /\ c1 = c2 /\ x = y.
Proof.
  induction h1 as [|a h1 IH]; intros [|b h2] c1 c2 x y D1 D2 N1 N2 E;
    simpl in *.
  - injection E as -> ->. auto.
  - injection E as -> _. apply andb_true_iff in D2 as [D2 _]. congruence.
  - injection E as -> _. apply andb_true_iff in D1 as [D1 _]. congruence.
  - injection E as -> E. apply andb_true_iff in D1 as [_ D1].
    apply andb_true_iff in D2 as [_ D2].
    destruct (IH h2 c1 c2 x y D1 D2 N1 N2 E) as (-> & -> & ->). auto.
Qed.

(** No timestamp is the start of another: where one begins, it is the only
    one that begins there. *)
Lemma timestamp_prefix_free t1 t2 r1 r2 :
  Re.matches TIMESTAMP t1 -> Re.matches TIMESTAMP t2 ->
  (t1 ++ r1)%string = (t2 ++ r2)%string -> t1 = t2 /\ r1 = r2.
Proof.
  intros M1 M2 E.
  apply timestamp_shape in M1 as (h1 & m1 & s1 & _ & _ & _ & Dh1 & Dm1 & Ds1 & ->).
  apply timestamp_shape in M2 as (h2 & m2 & s2 & _ & _ & _ & Dh2 & Dm2 & Ds2 & ->).
  simpl in E. injection E as E.
  rewrite !StrFacts.app_assoc in E. simpl in E.
  apply digits_then_other in E as (-> & _ & E); auto.
  rewrite !StrFacts.app_assoc in E. simpl in E.
  apply digits_then_other in E as (-> & _ & E); auto.
  rewrite !StrFacts.app_assoc in E. simpl in E.
  apply digits_then_other in E as (-> & _ & E); auto.
Qed.

Lemma Strips_deterministic s a :
  Strips s a -> forall b, Strips s b -> a = b.
Proof.
  induction 1 as [|t s a M H IH|c s a Hno H IH]; intros b Hb.
  - inversion Hb as [|t' s' b' M' H' E|]; subst; [reflexivity|].
    exfalso. apply (timestamp_nonempty _ M'). destruct t'; [reflexivity|discriminate].
  - remember (t ++ s)%string as u eqn:Eu.
    destruct Hb as [|t' s' b' M' H'|c' s' b' Hno' H'].
    + exfalso. apply (timestamp_nonempty _ M). destruct t; [reflexivity|discriminate].
    + destruct (timestamp_prefix_free _ _ _ _ M' M Eu) as [-> ->]. now apply IH.
    + exfalso. exact (Hno' t s M Eu).
  - remember (String c s) as u eqn:Eu.
    destruct Hb as [|t' s' b' M' H'|c' s' b' Hno' H'].
    + discriminate.
    + exfalso. exact (Hno t' s' M' eq_refl).
    + injection Eu as -> ->. f_equal. now apply IH.
Qed.

Lemma no_bracket_no_timestamp c s t r :
  c <> "["%char -> Re.matches TIMESTAMP t -> String c s <> (t ++ r)%string.
Proof.
  intros N M E. apply timestamp_shape in M as (h & m & x & _ & _ & _ & _ & _ & _ & ->).
  simpl in E. injection E as E _. contradiction.
Qed.

(** X1: a timestamp at the start of a text is removed and the rest is
    stripped as if it stood alone; text in front of the first opening
    bracket is kept as it is; a text without an opening bracket is not
    changed at all. *)
Theorem strip_timestamps_leading :
  (forall t rest,
      Re.matches TIMESTAMP t ->
      strip_timestamps (t ++ rest) = strip_timestamps rest)
  /\ (forall a rest,
         Str.forallb (fun c => negb (Ascii.eqb c "[")) a = true ->
         strip_timestamps (a ++ rest) = (a ++ strip_timestamps rest)%string)
  /\ (forall a,
         Str.forallb (fun c => negb (Ascii.eqb c "[")) a = true ->
         strip_timestamps a = a).
Proof.
  assert (K : forall a rest,
             Str.forallb (fun c => negb (Ascii.eqb c "[")) a = true ->
             strip_timestamps (a ++ rest) = (a ++ strip_timestamps rest)%string).
  { intros a rest Ha.
    apply (Strips_deterministic _ _ (strip_timestamps_Strips _)).
    induction a as [|c a IH]; simpl in *; [apply strip_timestamps_Strips|].
    apply andb_true_iff in Ha as [Hc Ha].
    apply Strips_keep; [|now apply IH].
    intros t r. apply no_bracket_no_timestamp.
    intros ->. discriminate. }
  split; [|split; [exact K|]].
  - intros t rest M.
    apply (Strips_deterministic _ _ (strip_timestamps_Strips _)).
    apply Strips_token; [exact M | apply strip_timestamps_Strips].
  - intros a Ha. rewrite <- (StrFacts.app_nil_r a) at 1.
    rewrite (K a EmptyString Ha). now rewrite StrFacts.app_nil_r.
Qed.

(** ** The dialog between [__init__] and [accept] *)

Section DialogRuns.

Context {P : Platform}.

Lemma load_settings_same w j w' : load_settings w = Ok (j, w') -> w' = w.
Proof.
  unfold load_settings, try_except, bind, read_settings_file, json_load.
  destruct (settings_json w) as [text|]; simpl.
  - destruct (json_loads text); simpl; [|discriminate]. unfold ret. congruence.
  - unfold ret. congruence.
Qed.

Lemma get_str_same j key default w s w' :
  get_str j key default w = Ok (s, w') -> w' = w.
Proof.
  unfold get_str. intros H. step H as v w1 E1.
  apply lift_Ok in E1 as (v' & _ & E1). injection E1 as -> ->.
  apply lift_Ok in H as (s' & _ & H). now injection H.
Qed.

Lemma setCurrentIndex_range n idx :
  (n <= 6)%nat -> (-1 <= setCurrentIndex n idx < 6)%Z.
Proof.
  intros Hn. unfold setCurrentIndex.
  destruct (Z.leb_spec 0 idx), (Z.ltb_spec idx (Z.of_nat n)); simpl; lia.
Qed.

Lemma grid_of_range fm flds :
  Forall (fun r => (-1 <= snd r < 6)%Z) (grid_of fm flds).
Proof.
  unfold grid_of. apply Forall_forall. intros r Hin.
  apply in_map_iff in Hin as (name & <- & _). simpl.
  apply setCurrentIndex_range. simpl. lia.
Qed.

Lemma grid_of_labels fm flds : List.map fst (grid_of fm flds) = flds.
Proof. unfold grid_of. rewrite map_map. simpl. apply map_id. Qed.

Lemma create_field_grid_fits d w d' w' :
  create_field_grid d w = Ok (d', w') ->
  w' = w /\ grid_ok w d'
  /\ exists g, d' = with_grid g d.
Proof.
  unfold create_field_grid.
  destruct (String.eqb_spec (modelName d) EmptyString) as [E|N]; intros H.
  - done_ret H. split; [reflexivity|]. split; [|eauto].
    unfold grid_ok. simpl. repeat split; auto. intros N. contradiction.
  - step H as model w1 E1. injection E1 as <- <-.
    destruct (dict_get (models w) (modelName d)) as [flds|] eqn:M;
      [|discriminate].
    done_ret H. split; [reflexivity|]. split; [|eauto].
    unfold grid_ok. simpl. split; [apply grid_of_range|].
    split; [intros E; contradiction|].
    intros _. exists flds. split; [exact M | apply grid_of_labels].
Qed.

Lemma grid_ok_same_grid w d d' :
  modelName d' = modelName d -> fieldMapGrid d' = fieldMapGrid d ->
  grid_ok w d -> grid_ok w d'.
Proof. unfold grid_ok. intros -> ->. auto. Qed.

(** [__init__] reads the world and leaves it as it is; the dialog it opens
    is not accepted and its grid fits its note type. *)
Lemma init_opens w d w' :
  init w = Ok (d, w') -> w' = w /\ accepted d = false /\ grid_ok w d.
Proof.
  unfold init. intros H.
  step H as j w1 E1. apply load_settings_same in E1 as ->.
  step H as dp w2 E2. apply get_str_same in E2 as ->.
  step H as found w3 E3. injection E3 as _ <-.
  step H as dp1 w4 E4.
  assert (w4 = w) as -> by (destruct found; [done_ret E4 | injection E4 as _ <-]; reflexivity).
  step H as pv w5 E5. apply get_str_same in E5 as ->.
  step H as dk w6 E6. apply get_str_same in E6 as ->.
  step H as dk1 w7 E7. injection E7 as _ <-.
  step H as mn w8 E8. apply get_str_same in E8 as ->.
  step H as mn1 w9 E9. injection E9 as _ <-.
  step H as fm w10 E10. apply lift_Ok in E10 as (fm' & _ & E10).
  injection E10 as _ ->.
  step H as fm0 w11 E11. apply lift_Ok in E11 as (fm0' & _ & E11).
  injection E11 as _ ->.
  step H as d1 w12 E12.
  apply create_field_grid_fits in E12 as (-> & G & g & ->).
  step H as tg w13 E13. apply get_str_same in E13 as ->.
  done_ret H. split; [reflexivity|]. split; [reflexivity|].
  eapply grid_ok_same_grid; [| |exact G]; reflexivity.
Qed.

Lemma choose_in_row_labels row idx : forall grid,
  List.map fst (choose_in_row row idx grid) = List.map fst grid.
Proof.
  revert row. intros row grid. revert row.
  induction grid as [|[name old] grid IH]; intros [|row]; simpl; auto.
  now rewrite IH.
Qed.

Lemma choose_in_row_range row idx : forall grid,
  Forall (fun r => (-1 <= snd r < 6)%Z) grid ->
  Forall (fun r => (-1 <= snd r < 6)%Z) (choose_in_row row idx grid).
Proof.
  intros grid. revert row.
  induction grid as [|[name old] grid IH]; intros [|row] F; simpl; auto;
    inversion F; subst; constructor; auto.
  simpl. apply setCurrentIndex_range. simpl. lia.
Qed.

(** What [accept] does: on a directory that does not exist it only asks for
    another one; otherwise it accepts and writes the settings file, and
    nothing else of the world changes. *)
Lemma accept_cases reply d w d1 w1 :
  accept reply d w = Ok (d1, w1) ->
  (d1 = browse_dir reply d /\ w1 = w)
  \/ (accepted d1 = true
      /\ w1 = set_settings_json (Some (json_dumps (settings_doc d1))) w
      /\ dirPath d1 = dirPath d /\ dirPath d <> EmptyString
      /\ In (dirPath d) (paths w)
      /\ prov d1 = (if String.eqb (prov d) EmptyString then "Unknown" else prov d)
      /\ deckName d1 = (if String.eqb (deckName d) EmptyString
                        then current_deck w else deckName d)
      /\ modelName d1 = (if String.eqb (modelName d) EmptyString
                         then current_model w else modelName d)
      /\ tags d1 = tags d
      /\ exists flds,
          dict_get (models w) (modelName d1) = Some flds
          /\ read_grid (fieldMapGrid d) (List.seq 0 (List.length flds)) []
             = Ok (fieldMap d1)).
Proof.
  unfold accept. intros H.
  step H as found w2 E2. destruct found; simpl in H.
  - right. apply os_path_exists_true in E2 as (-> & Hne & Hin).
    step H as dn w3 E3. injection E3 as <- <-.
    step H as mn w4 E4. injection E4 as <- <-.
    step H as model w5 E5. injection E5 as <- <-.
    destruct (dict_get (models w) _) as [flds|] eqn:M; [|discriminate].
    step H as fm w6 E6. apply lift_Ok in E6 as (fm' & R & E6).
    injection E6 as -> ->.
    step H as u w7 E7. injection E7 as _ <-. done_ret H.
    simpl. repeat split; auto. exists flds. auto.
  - left. done_ret H. injection E2 as _ <-. auto.
Qed.

Lemma browse_dir_keeps reply d :
  accepted (browse_dir reply d) = accepted d
  /\ modelName (browse_dir reply d) = modelName d
  /\ fieldMapGrid (browse_dir reply d) = fieldMapGrid d.
Proof. unfold browse_dir. destruct (String.eqb reply EmptyString); auto. Qed.

(** A dialog that closes accepted was accepted by one call of [accept], on
    a dialog whose grid fits, in the world the dialog was opened in; a
    dialog that closes otherwise has left the world alone. *)
Lemma exec_closes : forall events d w d' w',
  grid_ok w d -> accepted d = false ->
  exec_ events d w = Ok (d', w') ->
  (accepted d' = false /\ w' = w)
  \/ (accepted d' = true
      /\ exists d0 reply,
          grid_ok w d0 /\ accepted d0 = false
          /\ accept reply d0 w = Ok (d', w')).
Proof.
  induction events as [|e events IH]; intros d w d' w' G A H; simpl in H.
  - done_ret H. auto.
  - destruct e as [reply|text|text|text|text|row index|reply|].
    + apply IH in H; auto.
      * eapply grid_ok_same_grid; [| |exact G]; apply browse_dir_keeps.
      * destruct (browse_dir_keeps reply d) as (-> & _); exact A.
    + apply IH in H; auto.
    + apply IH in H; auto.
    + step H as d1 w1 E1. unfold model_changed in E1.
      apply create_field_grid_fits in E1 as (-> & G1 & g & ->).
      apply IH in H; auto.
    + apply IH in H; auto.
    + apply IH in H; auto.
      destruct G as (F & G0 & G1). unfold grid_ok. simpl. split; [|split].
      * now apply choose_in_row_range.
      * intros E. rewrite (G0 E). now destruct row.
      * intros N. destruct (G1 N) as (flds & M & L). exists flds.
        split; [exact M|]. now rewrite choose_in_row_labels.
    + step H as d1 w1 E1. destruct (accepted d1) eqn:A1.
      * done_ret H. right. split; [exact A1|]. exists d, reply. auto.
      * apply accept_cases in E1 as [[-> ->]|(A1' & _)]; [|congruence].
        apply IH in H; auto.
        eapply grid_ok_same_grid; [| |exact G]; apply browse_dir_keeps.
    + done_ret H. auto.
Qed.

End DialogRuns.

(** ** What a confirmed dialog hands to the importer *)

Lemma dict_set_In {V : Type} (d : dict V) k v k' v' :
  In (k', v') (dict_set d k v) -> (k' = k /\ v' = v) \/ In (k', v') d.
Proof.
  induction d as [|[k0 v0] d IH]; simpl.
  - intros [E|[]]. injection E as <- <-. auto.
  - destruct (String.eqb_spec k0 k) as [->|N]; simpl.
    + intros [E|Hin]; [injection E as <- <-|]; auto.
    + intros [E|Hin]; [auto|]. destruct (IH Hin); auto.
Qed.

Lemma dict_set_keys {V : Type} (d : dict V) k v k' :
  In k' (List.map fst (dict_set d k v)) <-> k' = k \/ In k' (List.map fst d).
Proof.
  induction d as [|[k0 v0] d IH]; simpl.
  - intuition.
  - destruct (String.eqb_spec k0 k) as [->|N]; simpl; [intuition|].
    rewrite IH. intuition.
Qed.

Lemma dict_set_NoDup {V : Type} (d : dict V) k v :
  NoDup (List.map fst d) -> NoDup (List.map fst (dict_set d k v)).
Proof.
  induction d as [|[k0 v0] d IH]; simpl; intros ND.
  - constructor; [intros []|constructor].
  - inversion ND as [|? ? Hnot ND']; subst.
    destruct (String.eqb_spec k0 k) as [->|N]; simpl.
    + constructor; assumption.
    + constructor; [|auto]. rewrite dict_set_keys. intros [E|Hin]; auto.
Qed.

Lemma rows_to_dict_In k v : forall rows acc,
  In (k, v) (rows_to_dict rows acc) -> In (k, v) rows \/ In (k, v) acc.
Proof.
  unfold rows_to_dict.
  induction rows as [|[k0 v0] rows IH]; intros acc Hin; simpl in *; [auto|].
  destruct (IH _ Hin) as [H|H]; [auto|].
  apply dict_set_In in H as [[-> ->]|H]; auto.
Qed.

Lemma rows_to_dict_NoDup : forall rows acc,
  NoDup (List.map fst acc) -> NoDup (List.map fst (rows_to_dict rows acc)).
Proof.
  unfold rows_to_dict.
  induction rows as [|[k0 v0] rows IH]; intros acc ND; simpl; [exact ND|].
  apply IH. now apply dict_set_NoDup.
Qed.

Lemma rows_to_dict_keys k : forall rows acc,
  In k (List.map fst (rows_to_dict rows acc))
  <-> In k (List.map fst rows) \/ In k (List.map fst acc).
Proof.
  unfold rows_to_dict.
  induction rows as [|[k0 v0] rows IH]; intros acc; simpl; [intuition|].
  rewrite IH, dict_set_keys. simpl. intuition.
Qed.

Lemma dict_get_of_key {V : Type} (d : dict V) k :
  In k (List.map fst d) -> exists v, dict_get d k = Some v.
Proof.
  intros Hin. apply dict_get_keys in Hin.
  destruct (dict_get d k) as [v|]; [eauto | contradiction].
Qed.

Section ConfirmedDialog.

Context {P : Platform}.

(** The field map [accept] reads from a grid that fits the note type. *)
Lemma accept_field_map reply d w d1 w1 :
  grid_ok w d -> accepted d = false ->
  accept reply d w = Ok (d1, w1) -> accepted d1 = true ->
  exists flds,
    dict_get (models w) (modelName d1) = Some flds
    /\ List.map fst (fieldMapGrid d) = flds
    /\ fieldMap d1 = rows_to_dict (fieldMapGrid d) [].
Proof.
  intros (F & G0 & G1) A0 A A1.
  apply accept_cases in A
    as [[-> ->]|(_ & _ & _ & _ & _ & _ & _ & Mn & _ & flds & M & R)].
  { destruct (browse_dir_keeps reply d) as (Ea & _). congruence. }
  exists flds. split; [exact M|].
  pose proof (read_grid_rows _ _ _ _ _ R) as Fm. simpl in Fm.
  destruct (String.eqb_spec (modelName d) EmptyString) as [E|N].
  - rewrite (G0 E) in *. destruct flds as [|f flds]; [|discriminate R].
    simpl in Fm. auto.
  - destruct (G1 N) as (flds' & M' & L). rewrite Mn, M' in M.
    injection M as ->. split; [exact L|].
    rewrite Fm. f_equal. rewrite <- L, length_map. apply firstn_all.
Qed.

(** X2: a dialog the user leaves without confirming has no effect: when
    [do_import] returns without a report, the world is the one it was
    started in (no settings written, no file copied, no note added). *)
Theorem cancelled_import_changes_nothing (user : list Event) (w w' : World) :
  do_import user w = Ok (None, w') -> w' = w.
Proof.
  unfold do_import. intros H.
  step H as d0 w0 E0. apply init_opens in E0 as (-> & A0 & G0).
  step H as d w1 E1.
  apply exec_closes in E1 as [[A ->]|[A _]]; auto;
    unfold get_result in H; rewrite A in H.
  - now done_ret H.
  - step H as r w2 E2. apply ret_Ok in H. discriminate H.
Qed.

(** X3: a dialog that closes accepted has written the settings file, with
    exactly the values it hands to the importer, and has changed nothing
    else; its directory exists and its provenance is not empty. *)
Theorem confirmed_dialog_is_saved (events : list Event) w d0 w0 d w1 :
  init w = Ok (d0, w0) ->
  exec_ events d0 w0 = Ok (d, w1) ->
  accepted d = true ->
  w1 = set_settings_json (Some (json_dumps (settings_doc d))) w
  /\ dirPath d <> EmptyString /\ In (dirPath d) (paths w)
  /\ prov d <> EmptyString
  /\ get_result d
     = Some (mkConfig (dirPath d) (prov d) (deckName d) (modelName d)
               (fieldMap d) (tags d)).
Proof.
  intros I E A. apply init_opens in I as (-> & A0 & G0).
  apply exec_closes in E as [[A' _]|(_ & d' & reply & G & A' & Acc)];
    auto; [congruence|].
  apply accept_cases in Acc
    as [[-> ->]|(_ & -> & Dp & Ne & Hin & Pv & _)].
  { destruct (browse_dir_keeps reply d') as (Ea & _). congruence. }
  split; [reflexivity|]. split; [now rewrite Dp|].
  split; [now rewrite Dp|]. split.
  - rewrite Pv. destruct (String.eqb_spec (prov d') EmptyString);
      [discriminate | assumption].
  - unfold get_result. now rewrite A.
Qed.

(** X4: the field map of a dialog that closes accepted fits the note type
    it names: the note type exists, every field of it has exactly one
    entry, there is no entry for anything else, and every value is -1 or
    an index into [FILLING_OPTIONS]. *)
Theorem confirmed_field_map_fits (events : list Event) w d0 w0 d w1 :
  init w = Ok (d0, w0) ->
  exec_ events d0 w0 = Ok (d, w1) ->
  accepted d = true ->
  exists flds,
    dict_get (models w) (modelName d) = Some flds
    /\ NoDup (List.map fst (fieldMap d))
    /\ (forall f, In f flds <-> In f (List.map fst (fieldMap d)))
    /\ (forall f idx,
           In (f, idx) (fieldMap d) ->
           (-1 <= idx < Z.of_nat (List.length FILLING_OPTIONS))%Z).
Proof.
  intros I E A. apply init_opens in I as (-> & A0 & G0).
  apply exec_closes in E as [[A' _]|(_ & d' & reply & G & A' & Acc)];
    auto; [congruence|].
  destruct (accept_field_map _ _ _ _ _ G A' Acc A) as (flds & M & L & Fm).
  exists flds. split; [exact M|]. rewrite Fm. split; [|split].
  - apply rows_to_dict_NoDup. constructor.
  - intros f. rewrite rows_to_dict_keys, L. simpl. tauto.
  - intros f idx Hin. apply rows_to_dict_In in Hin as [Hin|[]].
    destruct G as (F & _). rewrite Forall_forall in F.
    apply (F _ Hin).
Qed.

(** X5: the option the user picks in the combo box of a row is the option
    [accept] stores for the field of that row, whatever was selected
    before (the labels of the grid being distinct). *)
Theorem chosen_option_is_stored reply d w d1 w1 row index field old :
  grid_ok w d -> accepted d = false ->
  NoDup (List.map fst (fieldMapGrid d)) ->
  nth_error (fieldMapGrid d) row = Some (field, old) ->
  (0 <= index < Z.of_nat (List.length FILLING_OPTIONS))%Z ->
  accept reply (with_grid (choose_in_row row index (fieldMapGrid d)) d) w
  = Ok (d1, w1) ->
  accepted d1 = true ->
  dict_get (fieldMap d1) field = Some index.
Proof.
  intros G A0 ND Hrow Hidx Acc A1.
  assert (G' : grid_ok w (with_grid (choose_in_row row index (fieldMapGrid d)) d)).
  { destruct G as (F & G0 & G1). unfold grid_ok. simpl. split; [|split].
    - now apply choose_in_row_range.
    - intros E. rewrite (G0 E). now destruct row.
    - intros N. destruct (G1 N) as (flds & M & L). exists flds.
      split; [exact M|]. now rewrite choose_in_row_labels. }
  destruct (accept_field_map _ _ _ _ _ G' A0 Acc A1) as (flds & _ & _ & Fm).
  simpl in Fm. rewrite Fm.
  apply rows_to_dict_get; [now rewrite choose_in_row_labels|].
  assert (Hs : setCurrentIndex (List.length FILLING_OPTIONS) index = index).
  { unfold setCurrentIndex.
    destruct (Z.leb_spec 0 index),
      (Z.ltb_spec index (Z.of_nat (List.length FILLING_OPTIONS)));
      simpl; lia. }
  clear - Hrow Hs. revert row Hrow.
  induction (fieldMapGrid d) as [|[name v] grid IH]; intros [|row] Hrow;
    cbn [choose_in_row nth_error In] in *; try discriminate.
  - injection Hrow as -> ->. left. now rewrite Hs.
  - right. now apply IH.
Qed.

(** X17: OK on a directory that is gone does not close the dialog and
    saves nothing: the dialog goes on with the directory the user then
    picks in the directory chooser, or as it was when the chooser is
    cancelled, and the world is as before. *)
Theorem ok_on_missing_directory reply (rest : list Event) d w :
  accepted d = false ->
  dirPath d = EmptyString \/ ~ In (dirPath d) (paths w) ->
  accept reply d w = Ok (browse_dir reply d, w)
  /\ exec_ (OkClicked reply :: rest) d w = exec_ rest (browse_dir reply d) w.
Proof.
  intros A Hgone.
  assert (E : accept reply d w = Ok (browse_dir reply d, w)).
  { unfold accept. run_with false; [|reflexivity]. unfold os_path_exists.
    destruct Hgone as [->|N]; [reflexivity|].
    rewrite (mem_false _ _ N). now destruct (String.eqb _ _). }
  split; [exact E|]. cbn [exec_]. rewrite (bind_eq _ _ _ _ _ E).
  destruct (browse_dir_keeps reply d) as (-> & _). now rewrite A.
Qed.

End ConfirmedDialog.

Section DialogToImporter.

Context {P : Platform}.



End DialogToImporter.

(** ** The rounds of the audio loop *)

Lemma dict_set_same_keys {V : Type} (d : dict V) k v :
  dict_get d k <> None ->
  List.map fst (dict_set d k v) = List.map fst d.
Proof.
  induction d as [|[k0 v0] d IH]; simpl; intros H; [congruence|].
  destruct (String.eqb_spec k0 k) as [->|N]; simpl; [reflexivity|].
  now rewrite IH.
Qed.

Section Rounds.

Context {P : Platform}.

(** The field loop touches the fields of the note it is given and nothing
    else of it. *)
Lemma fill_fields_meta sr pv line imgs : forall fm note w n w',
  fill_fields sr pv line imgs fm note w = Ok (n, w') ->
  note_model n = note_model note /\ note_did n = note_did note
  /\ note_tags n = note_tags note
  /\ List.map fst (note_fields n) = List.map fst (note_fields note).
Proof.
  induction fm as [|[field idx] fm IH]; simpl; intros note w n w' H.
  - done_ret H. auto.
  - step H as o w1 E1. step H as data w2 E2. destruct data as [d|].
    + step H as n1 w3 E3. unfold note_setitem in E3.
      destruct (dict_get (note_fields note) field) as [old|] eqn:G;
        [|discriminate].
      done_ret E3. apply IH in H as (M & D & T & K). simpl in *.
      rewrite M, D, T, K. repeat split; auto.
      apply dict_set_same_keys. congruence.
    + now apply IH in H.
Qed.

(** One round, read backwards from its result. *)
Lemma import_one_round cfg pre deck model c i root ext w n w' :
  import_one cfg pre deck model c i root ext w = Ok (n, w') ->
  let std_root := audio_std_root pre (time_str (clock w)) i in
  exists did flds raw line note1 w4 w7,
    deck = Some did /\ model = Some flds
    /\ dict_get (files w) (root ++ ext)%string = Some raw
    /\ media w4 = media w ++ [((std_root ++ ext)%string, raw)]
    /\ files w4
       = remove_entry (std_root ++ ext)%string
           (dict_set (files w) (std_root ++ ext)%string raw)
    /\ same_col w w4
    /\ subtitle_line root (sub_files c) w4 = Ok (line, w4)
    /\ fill_fields std_root (cfg_prov cfg) line (std_image_files c)
         (cfg_field_map cfg)
         (mkNote (cfg_model_name cfg) did
            (List.map (fun f => (f, EmptyString)) flds) []) w4
       = Ok (note1, w7)
    /\ submitted w' = submitted w ++ [(note_add_tag note1 (cfg_tags cfg), n)]
    /\ media w' = media w7.
Proof.
  unfold import_one, audio_std_root. intros H. cbv zeta.
  step H as t w1 E1. injection E1 as <- <-.
  step H as u2 w2 E2. apply copyfile_Ok in E2 as (raw & G & ->).
  step H as u3 w3 E3. apply media_addFile_Ok in E3 as (raw3 & G3 & ->).
  cbn [files set_files set_clock] in G3.
  rewrite dict_get_set_same in G3. injection G3 as <-.
  step H as u4 w4 E4. apply os_remove_Ok in E4 as ->.
  step H as n5 w5 E5. apply new_note_Ok in E5 as (-> & flds & did & -> & -> & ->).
  step H as l6 w6 E6.
  pose proof (subtitle_line_same _ _ _ _ _ E6) as ->.
  step H as n7 w7 E7.
  pose proof (fill_fields_same_col _ _ _ _ _ _ _ _ _ E7) as [C7 S7].
  unfold col_addNote in H. injection H as <- <-.
  do 7 eexists. split; [reflexivity|]. split; [reflexivity|].
  split; [exact G|].
  split; [|split; [|split; [|split; [exact E6|split; [exact E7|]]]]].
  - reflexivity.
  - reflexivity.
  - split; reflexivity.
  - cbn [submitted media set_notes]. rewrite S7. split; reflexivity.
Qed.

Lemma import_one_media cfg pre deck model c i root ext w n w' :
  import_one cfg pre deck model c i root ext w = Ok (n, w') ->
  incl (media w) (media w').
Proof.
  intros H. apply import_one_round in H. cbv zeta in H.
  destruct H as (did & flds & raw & line & note1 & w4 & w7 & _ & _ & _ & M4
                 & _ & _ & _ & F & _ & M).
  rewrite M. eapply incl_tran; [|eapply fill_fields_media; exact F].
  rewrite M4. apply incl_appl, incl_refl.
Qed.

Lemma import_audio_media cfg pre deck model c :
  forall todo i cc w r w',
    import_audio cfg pre deck model c i todo cc w = Ok (r, w') ->
    incl (media w) (media w').
Proof.
  induction todo as [|[root ext] todo IH]; intros i cc w r w' H; simpl in H.
  - done_ret H. apply incl_refl.
  - step H as n w1 E1. apply import_one_media in E1.
    destruct (Nat.eqb n 0); [now done_ret H|].
    eapply incl_tran; [exact E1 | eapply IH; exact H].
Qed.

(** The loop, round by round: what holds of every round holds of every
    note the loop has handed to the host, the [k]-th note being the one of
    the [k]-th audio file. *)
Lemma import_audio_each cfg pre deck model c
      (Inv : nat -> list (string * string) -> World -> Prop)
      (Q : nat -> string -> string -> World -> Note -> World -> Prop) :
  (forall i root ext rest w n w',
      Inv i ((root, ext) :: rest) w ->
      import_one cfg pre deck model c i root ext w = Ok (n, w') ->
      Inv (S i) rest w'
      /\ exists note,
          submitted w' = submitted w ++ [(note, n)] /\ Q i root ext w note w') ->
  forall todo i cc w r w',
    Inv i todo w ->
    import_audio cfg pre deck model c i todo cc w = Ok (r, w') ->
    exists attempts,
      submitted w' = submitted w ++ attempts
      /\ List.length attempts <= List.length todo
      /\ forall k note n,
          nth_error attempts k = Some (note, n) ->
          exists root ext wa wb,
            nth_error todo k = Some (root, ext)
            /\ Q (i + k) root ext wa note wb
            /\ incl (media wb) (media w').
Proof.
  intros Hstep.
  induction todo as [|[root ext] todo IH]; intros i cc w r w' I H; simpl in H.
  - done_ret H. exists []. rewrite app_nil_r. split; [reflexivity|].
    split; [apply le_n|]. intros [|k] note n Hk; discriminate Hk.
  - step H as n w1 E1.
    destruct (Hstep _ _ _ _ _ _ _ I E1) as (I1 & note & S1 & Q1).
    destruct (Nat.eqb n 0).
    + done_ret H. exists [(note, n)]. split; [exact S1|].
      split; [simpl; lia|]. intros [|[|k]] note' n' Hk; try discriminate Hk.
      injection Hk as <- <-. exists root, ext, w, w1.
      rewrite Nat.add_0_r. split; [reflexivity|]. split; [exact Q1|].
      apply incl_refl.
    + pose proof (import_audio_media _ _ _ _ _ _ _ _ _ _ _ H) as Mi.
      destruct (IH _ _ _ _ _ I1 H) as (rest & S2 & L2 & Each).
      exists ((note, n) :: rest).
      split; [rewrite S2, S1, <- app_assoc; reflexivity|].
      split; [simpl; lia|]. intros [|k] note' n' Hk.
      * injection Hk as <- <-. exists root, ext, w, w1.
        rewrite Nat.add_0_r. split; [reflexivity|]. split; [exact Q1|].
        exact Mi.
      * destruct (Each k note' n' Hk) as (r0 & e0 & wa & wb & N & Qk & Mk).
        exists r0, e0, wa, wb. rewrite Nat.add_succ_r. simpl in Qk.
        split; [exact N|]. split; [exact Qk | exact Mk].
Qed.

End Rounds.

(** ** The notes of a run *)

Lemma empty_fields_get flds f :
  In f flds ->
  dict_get (List.map (fun g => (g, EmptyString)) flds) f = Some EmptyString.
Proof.
  induction flds as [|g flds IH]; simpl; [contradiction|].
  destruct (String.eqb_spec g f) as [_|N]; [reflexivity|].
  intros [E|H]; [contradiction | auto].
Qed.

Section Notes.

Context {P : Platform}.

(** X8: every note a completed run has handed to the host is a note of the
    note type of the configuration, with the fields of that note type in
    their order, filed under the deck of the configuration, and carries one
    tag: the tag text of the configuration as it is, not split at blanks. *)
Theorem submitted_note_shape cfg w rep w' :
  run_import cfg w = Ok (rep, w') ->
  exists attempts,
    submitted w' = submitted w ++ attempts
    /\ forall note n,
        In (note, n) attempts ->
        exists flds,
          dict_get (models w) (cfg_model_name cfg) = Some flds
          /\ In (cfg_deck_name cfg) (decks w)
          /\ note_model note = cfg_model_name cfg
          /\ note_did note = cfg_deck_name cfg
          /\ List.map fst (note_fields note) = flds
          /\ note_tags note = [cfg_tags cfg].
Proof.
  intros H.
  apply run_import_steps in H as (c & w1 & r & w2 & Ec & Ea & S & _ & _).
  pose proof (classify_same_col _ _ _ _ _ _ Ec) as [_ Sc].
  destruct r as [cc failed].
  eapply (import_audio_each _ _ _ _ _ (fun _ _ _ => True)
            (fun _ _ _ _ note _ =>
               exists flds,
                 dict_get (models w) (cfg_model_name cfg) = Some flds
                 /\ In (cfg_deck_name cfg) (decks w)
                 /\ note_model note = cfg_model_name cfg
                 /\ note_did note = cfg_deck_name cfg
                 /\ List.map fst (note_fields note) = flds
                 /\ note_tags note = [cfg_tags cfg]))
    in Ea as (attempts & Sa & _ & Each); [| |exact I].
  - exists attempts. split; [now rewrite S, Sa, Sc|].
    intros note n Hin. apply In_nth_error in Hin as [k Hk].
    destruct (Each k note n Hk) as (_ & _ & _ & _ & _ & Hq & _). exact Hq.
  - intros i root ext rest wa n wb _ E. split; [exact I|].
    apply import_one_round in E. cbv zeta in E.
    destruct E as (did & flds & raw & line & note1 & w4 & w7 & D & M & _ & _
                   & _ & _ & _ & F & Sb & _).
    eexists. split; [exact Sb|].
    apply fill_fields_meta in F as (Fm & Fd & Ft & Fk). simpl in *.
    exists flds. split; [exact M|].
    destruct (Str.mem (cfg_deck_name cfg) (decks w)) eqn:Dk; [|discriminate].
    injection D as <-. apply StrFacts.mem_In in Dk.
    rewrite Fm, Fd, Fk, Ft, map_map. simpl. rewrite map_id. auto.
Qed.

(** X9: in a completed run the [k]-th note handed to the host is the note
    of the [k]-th audio file of the listing.  That file is in the media
    store under the standardized base name of the round followed by its
    extension.  A field mapped to File Name holds that base name, a field
    mapped to Audio the sound reference to that base name, a field mapped to
    Provenance the provenance as it was typed (not the prefix made of it),
    and a field mapped to nothing, or not mapped, is left empty. *)
Theorem note_of_audio_file cfg w rep w' :
  run_import cfg w = Ok (rep, w') ->
  NoDup (List.map fst (cfg_field_map cfg)) ->
  let pre := replace_char " " "." (cfg_prov cfg) in
  exists attempts,
    submitted w' = submitted w ++ attempts
    /\ forall k note n,
        nth_error attempts k = Some (note, n) ->
        exists root ext t raw,
          nth_error (List.map splitext
                       (with_role Audio (List.map fst (files w)))) k
          = Some (root, ext)
          /\ In ((audio_std_root pre t k ++ ext)%string, raw) (media w')
          /\ (forall f idx opt,
                 In (f, idx) (cfg_field_map cfg) ->
                 py_getitem FILLING_OPTIONS idx = Ok opt ->
                 (opt = FILL_FILENAME ->
                  dict_get (note_fields note) f
                  = Some (audio_std_root pre t k))
                 /\ (opt = FILL_AUDIO ->
                     dict_get (note_fields note) f
                     = Some (sound_tag (audio_std_root pre t k)))
                 /\ (opt = FILL_PROV ->
                     dict_get (note_fields note) f = Some (cfg_prov cfg))
                 /\ (opt = FILL_NOTHING ->
                     In f (List.map fst (note_fields note)) ->
                     dict_get (note_fields note) f = Some EmptyString))
          /\ (forall f,
                 In f (List.map fst (note_fields note)) ->
                 ~ In f (List.map fst (cfg_field_map cfg)) ->
                 dict_get (note_fields note) f = Some EmptyString).
Proof.
  intros H ND pre.
  apply run_import_steps in H as (c & w1 & r & w2 & Ec & Ea & S & Mw & _).
  fold pre in Ec, Ea.
  pose proof (classify_same_col _ _ _ _ _ _ Ec) as [_ Sc].
  pose proof (classify_lists _ _ _ _ _ _ Ec) as (La & _ & _). simpl in La.
  destruct r as [cc failed].
  eapply (import_audio_each _ _ _ _ _ (fun _ _ _ => True)
            (fun i root ext wa note wb =>
               let sr := audio_std_root pre (time_str (clock wa)) i in
               (exists raw, In ((sr ++ ext)%string, raw) (media wb))
               /\ (forall f idx opt,
                      In (f, idx) (cfg_field_map cfg) ->
                      py_getitem FILLING_OPTIONS idx = Ok opt ->
                      (opt = FILL_FILENAME ->
                       dict_get (note_fields note) f = Some sr)
                      /\ (opt = FILL_AUDIO ->
                          dict_get (note_fields note) f = Some (sound_tag sr))
                      /\ (opt = FILL_PROV ->
                          dict_get (note_fields note) f = Some (cfg_prov cfg))
                      /\ (opt = FILL_NOTHING ->
                          In f (List.map fst (note_fields note)) ->
                          dict_get (note_fields note) f = Some EmptyString))
               /\ (forall f,
                      In f (List.map fst (note_fields note)) ->
                      ~ In f (List.map fst (cfg_field_map cfg)) ->
                      dict_get (note_fields note) f = Some EmptyString)))
    in Ea as (attempts & Sa & _ & Each); [| |exact I].
  - exists attempts. split; [now rewrite S, Sa, Sc|].
    intros k note n Hk.
    destruct (Each k note n Hk)
      as (root & ext & wa & wb & N & ((raw & Hm) & Hf & Hu) & Hi).
    exists root, ext, (time_str (clock wa)), raw. rewrite <- La.
    split; [exact N|]. split; [rewrite Mw; apply Hi, Hm|].
    split; [exact Hf | exact Hu].
  - intros i root ext rest wa n wb _ E. split; [exact I|].
    apply import_one_round in E. cbv zeta in E.
    destruct E as (did & flds & raw & line & note1 & w4 & w7 & _ & _ & _ & M4
                   & _ & _ & _ & F & Sb & M7).
    eexists. split; [exact Sb|]. cbv zeta. cbn [note_fields note_add_tag].
    pose proof (fill_fields_meta _ _ _ _ _ _ _ _ _ F) as (_ & _ & _ & Fk).
    cbn [note_fields] in Fk. rewrite map_map in Fk. cbn [fst] in Fk.
    rewrite map_id in Fk.
    split; [|split].
    + exists raw. rewrite M7. eapply fill_fields_media; [exact F|].
      rewrite M4. apply in_or_app. right. left. reflexivity.
    + intros f idx opt Hin Hopt.
      destruct (fill_fields_sets _ _ _ _ _ _ _ _ _ _ _ F ND Hin)
        as (opt' & data & wc & wd & O & D & _ & G).
      rewrite Hopt in O. injection O as <-. rewrite G.
      repeat split; intros ->; unfold field_data in D; simpl in D;
        apply ret_Ok in D; injection D as -> _; try reflexivity.
      rewrite Fk. cbn [note_fields]. apply empty_fields_get.
    + intros f Hf Hn. rewrite (fill_fields_keeps _ _ _ _ _ _ _ _ _ _ F Hn).
      cbn [note_fields]. rewrite Fk in Hf. now apply empty_fields_get.
Qed.

End Notes.

(** ** The subtitle of a note *)

Section SubtitleOfNote.

Context {P : Platform}.

(** The [try] block, case by case. *)
Lemma subtitle_line_cases root subs w :
  subtitle_line root subs w
  = match list_index root (List.map fst subs) with
    | Raise _ => Ok (EmptyString, w)
    | Ok k =>
        match nth_error (List.map snd subs) k with
        | None => Raise IndexError
        | Some sub_ext =>
            match dict_get (files w) (root ++ sub_ext)%string with
            | None => Raise FileNotFoundError
            | Some raw =>
                match utf_8_decode (skip_bom raw) with
                | Some text => Ok (strip_timestamps text, w)
                | None => Ok (EmptyString, w)
                end
            end
        end
    end.
Proof.
  unfold subtitle_line, try_except, bind, lift.
  destruct (list_index root (List.map fst subs)) as [k|e] eqn:I.
  - rewrite py_getitem_nat.
    destruct (nth_error (List.map snd subs) k) as [sub_ext|]; [|reflexivity].
    unfold read_text_utf_8_sig, read_bytes, bind.
    destruct (dict_get (files w) (root ++ sub_ext)%string) as [raw|];
      [|reflexivity].
    destruct (utf_8_decode (skip_bom raw)); reflexivity.
  - apply list_index_raises in I. subst e. reflexivity.
Qed.

(** The text depends on the world through the subtitle files only. *)
Lemma subtitle_line_agree root subs w1 w2 line :
  (forall r e, In (r, e) subs ->
               dict_get (files w1) (r ++ e)%string
               = dict_get (files w2) (r ++ e)%string) ->
  subtitle_line root subs w1 = Ok (line, w1) ->
  subtitle_line root subs w2 = Ok (line, w2).
Proof.
  intros A. rewrite !subtitle_line_cases.
  destruct (list_index root (List.map fst subs)) as [k|e] eqn:I.
  - destruct (list_index_entry _ _ _ I) as (sub_ext & N & Hin).
    rewrite N, (A _ _ Hin).
    destruct (dict_get (files w2) (root ++ sub_ext)%string) as [raw|];
      [|discriminate].
    destruct (utf_8_decode (skip_bom raw)); intros H; injection H as <-;
      reflexivity.
  - intros H. injection H as <-. reflexivity.
Qed.

(** X10: a subtitle file that is not valid UTF-8 gives an empty text and
    no error (the decoding error is a [ValueError], which the [try] block
    takes for a missing subtitle); a subtitle entry whose file cannot be
    opened raises [FileNotFoundError], which the block does not catch. *)
Theorem subtitle_undecodable_or_unreadable (names : list string)
        (root : string) (w : World) (f : string) :
  let subs := List.map splitext (with_role Subtitle names) in
  subtitle_of root names = Some f ->
  (forall raw,
      dict_get (files w) f = Some raw ->
      utf_8_decode (skip_bom raw) = None ->
      subtitle_line root subs w = Ok (EmptyString, w))
  /\ (dict_get (files w) f = None ->
      subtitle_line root subs w = Raise FileNotFoundError).
Proof.
  intros subs F. subst subs.
  pose proof (sub_files_lookup root names) as L. cbv zeta in L.
  rewrite F in L. destruct L as (k & I & G & E).
  rewrite py_getitem_nat in G.
  rewrite subtitle_line_cases, I.
  destruct (nth_error _ k) as [sub_ext|]; [|discriminate].
  injection G as ->. rewrite <- E, splitext_join.
  split.
  - intros raw R D. now rewrite R, D.
  - intros R. now rewrite R.
Qed.

End SubtitleOfNote.

(** ** A run on a ready configuration, file by file *)

Lemma dict_get_app_old {V : Type} (d e : dict V) k :
  In k (List.map fst d) -> dict_get (d ++ e) k = dict_get d k.
Proof.
  intros H. rewrite dict_get_app. apply dict_get_keys in H.
  destruct (dict_get d k); [reflexivity | contradiction].
Qed.

Section ReadyRun.

Context {P : Platform}.

(** X11: in a run on a ready configuration the [k]-th note belongs to the
    [k]-th audio file of the listing: the media store holds the bytes of
    that file under the name of round [k], made of the prefix, the clock
    reading that follows the ones used for the images, and [k + 1]; and a
    field mapped to Subtitle holds the text of the subtitle file with the
    base name of that audio file, as the directory held it when the run
    began. *)
Theorem note_carries_file_and_subtitle cfg w rep w' :
  ready cfg w ->
  NoDup (List.map fst (cfg_field_map cfg)) ->
  run_import cfg w = Ok (rep, w') ->
  let pre := replace_char " " "." (cfg_prov cfg) in
  let names := List.map fst (files w) in
  let images := List.length (with_role Image names) in
  exists attempts,
    submitted w' = submitted w ++ attempts
    /\ forall k note n,
        nth_error attempts k = Some (note, n) ->
        exists root ext raw line,
          nth_error (List.map splitext (with_role Audio names)) k
          = Some (root, ext)
          /\ dict_get (files w) (root ++ ext)%string = Some raw
          /\ In ((audio_std_root pre (time_str (clock w + images + k)) k
                    ++ ext)%string, raw)
               (media w')
          /\ subtitle_line root
               (List.map splitext (with_role Subtitle names)) w
             = Ok (line, w)
          /\ forall f idx,
              In (f, idx) (cfg_field_map cfg) ->
              py_getitem FILLING_OPTIONS idx = Ok FILL_LINE ->
              dict_get (note_fields note) f = Some line.
Proof.
  unfold ready. cbv zeta.
  intros (Hdir & Hdeck & (flds & Hmodel & Hfm) & NDi & Himg & Haud) ND H.
  set (pre := replace_char " " "." (cfg_prov cfg)) in *.
  set (names := List.map fst (files w)) in *.
  apply run_import_steps in H as (c & w1 & res & w2 & Ec & Ea & S & Mw & _).
  fold pre names in Ec, Ea.
  apply StrFacts.mem_In in Hdeck. rewrite Hdeck, Hmodel in Ea.
  pose proof (classify_same_col _ _ _ _ _ _ Ec) as [_ Sc].
  pose proof (classify_lists _ _ _ _ _ _ Ec) as (La & Ls & Li).
  simpl in La, Ls, Li.
  destruct (classify_completes pre names (mkClassified [] [] []) w)
    as (c0 & w0 & copies & Ec0 & Hs & Hf & Hm & Hc); auto.
  rewrite Ec in Ec0. injection Ec0 as <- <-. simpl in Hs.
  assert (Hkeys : forall n, In n names -> In n (List.map fst (files w1))).
  { intros n Hn. rewrite Hf, map_app, in_app_iff. left. exact Hn. }
  assert (Hold : forall n, In n names ->
                           dict_get (files w1) n = dict_get (files w) n).
  { intros n Hn. rewrite Hf. now apply dict_get_app_old. }
  assert (Hlen : List.length copies = List.length (with_role Image names)).
  { rewrite <- Li, Hs, <- Hm. symmetry. apply length_map. }
  assert (Hlen' : List.length copies
                  = List.length (image_std_names pre names (clock w)))
    by (rewrite <- Hm; symmetry; apply length_map).
  assert (Hsubs : forall r e, In (r, e) (sub_files c) -> In (r ++ e)%string names).
  { intros r e Hin. rewrite Ls in Hin. eapply splitext_entries; eauto. }
  destruct res as [cc failed].
  eapply (import_audio_each _ _ _ _ _
            (fun i todo wa =>
               files wa = files w1 /\ clock wa = clock w1 + i
               /\ (forall r e, In (r, e) todo -> In (r ++ e)%string names)
               /\ (forall a, In a (audio_std_names pre todo i (clock wa)) ->
                             ~ In a (List.map fst (files w1))))
            (fun i root ext wa note wb =>
               exists raw line,
                 dict_get (files w) (root ++ ext)%string = Some raw
                 /\ In ((audio_std_root pre (time_str (clock w1 + i)) i
                           ++ ext)%string, raw) (media wb)
                 /\ subtitle_line root (sub_files c) w = Ok (line, w)
                 /\ forall f idx,
                     In (f, idx) (cfg_field_map cfg) ->
                     py_getitem FILLING_OPTIONS idx = Ok FILL_LINE ->
                     dict_get (note_fields note) f = Some line))
    in Ea as (attempts & Sa & _ & Each).
  - exists attempts. split; [now rewrite S, Sa, Sc|].
    intros k note n Hk.
    destruct (Each k note n Hk)
      as (root & ext & wa & wb & N & (raw & line & G & Hmed & Hsub & Hfld) & Hi).
    exists root, ext, raw, line. rewrite <- La, <- Ls.
    split; [exact N|]. split; [exact G|]. split; [|split; assumption].
    rewrite Mw. apply Hi. rewrite Hc, Hlen in Hmed. exact Hmed.
  - intros i root ext rest wa n wb (If & Ic & Isrc & Ifresh) E.
    cbn [audio_std_names] in Ifresh.
    destruct (import_one_completes cfg pre (cfg_deck_name cfg) flds c i root
                ext wa) as (n2 & w2' & E2 & F2 & C2).
    { rewrite If. apply Hkeys, Isrc. left. reflexivity. }
    { rewrite If. apply Ifresh. left. reflexivity. }
    { intros r e Hin. rewrite If. apply Hkeys, Hsubs, Hin. }
    { intros n0 Hin. rewrite Hs, <- Hm in Hin.
      rewrite If, Hf, map_app, in_app_iff. right. exact Hin. }
    { exact Hfm. }
    rewrite E in E2. injection E2 as <- <-.
    split.
    { split; [congruence|]. split; [lia|]. split.
      - intros r e Hin. apply Isrc. right. exact Hin.
      - intros a Hin. apply Ifresh. right. rewrite <- C2. exact Hin. }
    assert (Hfr : ~ In ((pre ++ ".audio-" ++ time_str (clock wa) ++ "("
                            ++ Str.of_nat (i + 1) ++ ")") ++ ext)%string
                    (List.map fst (files wa))).
    { rewrite If. apply Ifresh. left. reflexivity. }
    apply import_one_round in E. cbv zeta in E.
    destruct E as (did & flds' & raw & line & note1 & w4 & w7 & _ & _ & G & M4
                   & F4 & _ & L & F & Sb & M7).
    unfold audio_std_root in *.
    rewrite (dict_set_fresh _ _ _ Hfr),
      (remove_entry_app_fresh _ [] _ _ Hfr), app_nil_r in F4.
    eexists. split; [exact Sb|]. exists raw, line.
    assert (Hsrc : In (root ++ ext)%string names)
      by (apply Isrc; left; reflexivity).
    split; [|split; [|split]].
    + rewrite <- (Hold _ Hsrc), <- If. exact G.
    + rewrite M7. eapply fill_fields_media; [exact F|].
      rewrite M4, <- Ic. apply in_or_app. right. left. reflexivity.
    + apply (subtitle_line_agree root (sub_files c) w4 w line); [|exact L].
      intros r e Hin. rewrite F4, If. apply Hold, Hsubs, Hin.
    + intros f idx Hin Hopt. cbn [note_fields note_add_tag].
      destruct (fill_fields_sets _ _ _ _ _ _ _ _ _ _ _ F ND Hin)
        as (opt' & data & wc & wd & O & D & _ & Gf).
      rewrite Hopt in O. injection O as <-. rewrite Gf.
      unfold field_data in D. simpl in D.
      apply ret_Ok in D. injection D as -> _. reflexivity.
  - split; [reflexivity|]. split; [lia|]. split.
    + intros r e Hin. rewrite La in Hin. eapply splitext_entries; eauto.
    + intros a Hin. rewrite La, Hc, Hlen' in Hin.
      destruct (Haud a Hin) as [N1 N2].
      rewrite Hf, map_app, in_app_iff, Hm. tauto.
Qed.

End ReadyRun.

(** ** What a run leaves behind *)

Lemma remove_entry_keys (d : dict string) k x :
  In x (List.map fst (remove_entry k d)) -> In x (List.map fst d).
Proof.
  induction d as [|[k0 v0] d IH]; simpl; [auto|].
  destruct (String.eqb k0 k); simpl; tauto.
Qed.

Lemma remove_entry_NoDup (d : dict string) k :
  NoDup (List.map fst d) ->
  NoDup (List.map fst (remove_entry k d))
  /\ ~ In k (List.map fst (remove_entry k d)).
Proof.
  induction d as [|[k0 v0] d IH]; simpl; intros ND.
  - split; [constructor | tauto].
  - inversion ND as [|? ? Hnot ND']; subst.
    destruct (String.eqb_spec k0 k) as [->|N]; [auto|].
    destruct (IH ND') as [ND1 Hk]. simpl. split.
    + constructor; [|exact ND1]. intros Hin. apply Hnot.
      eapply remove_entry_keys; eauto.
    + intros [E|Hin]; auto.
Qed.

Lemma NoDup_strings_dec (l : list string) : NoDup l \/ ~ NoDup l.
Proof.
  induction l as [|x l [Y|N]].
  - left. constructor.
  - destruct (in_dec string_dec x l) as [Hin|Hnin].
    + right. intros ND. inversion ND; contradiction.
    + left. now constructor.
  - right. intros ND. inversion ND; contradiction.
Qed.

Section Leftovers.

Context {P : Platform}.

(** *** The directory keeps one entry per name *)

Lemma field_data_files opt sr pv line imgs w data w' :
  field_data opt sr pv line imgs w = Ok (data, w') ->
  files w' = files w /\ clock w' = clock w
  /\ exists more, media w' = media w ++ more.
Proof.
  unfold field_data. intros H.
  repeat match type of H with
         | (if ?b then _ else _) _ = _ =>
             destruct b;
             [done_ret H; repeat split; auto; exists []; now rewrite app_nil_r|]
         end.
  destruct (String.eqb opt FILL_IMAGE);
    [|done_ret H; repeat split; auto; exists []; now rewrite app_nil_r].
  destruct imgs as [|i0 imgs];
    [done_ret H; repeat split; auto; exists []; now rewrite app_nil_r|].
  step H as im w1 E1. apply random_choice_Ok in E1 as [_ ->].
  step H as u w2 E2. apply media_addFile_Ok in E2 as (raw & _ & ->).
  done_ret H. simpl. repeat split; auto. eauto.
Qed.

Lemma fill_fields_files sr pv line imgs : forall fm note w n w',
  fill_fields sr pv line imgs fm note w = Ok (n, w') ->
  files w' = files w /\ clock w' = clock w
  /\ exists more, media w' = media w ++ more.
Proof.
  induction fm as [|[field idx] fm IH]; simpl; intros note w n w' H.
  - done_ret H. repeat split; auto. exists []. now rewrite app_nil_r.
  - step H as o w1 E1. apply lift_Ok in E1 as (o' & _ & E1).
    injection E1 as -> ->.
    step H as data w2 E2.
    apply field_data_files in E2 as (F2 & C2 & more2 & M2).
    assert (exists note', fill_fields sr pv line imgs fm note' w2 = Ok (n, w'))
      as [note' H'].
    { destruct data as [d|]; [|eauto].
      step H as n1 w3 E3. apply note_setitem_Ok in E3 as [-> ->]. eauto. }
    apply IH in H' as (F3 & C3 & more3 & M3).
    split; [congruence|]. split; [congruence|].
    exists (more2 ++ more3). now rewrite M3, M2, app_assoc.
Qed.

Lemma import_one_files cfg pre deck model c i root ext w n w' :
  import_one cfg pre deck model c i root ext w = Ok (n, w') ->
  (NoDup (List.map fst (files w)) -> NoDup (List.map fst (files w')))
  /\ exists raw more,
      media w' = media w
                 ++ ((audio_std_root pre (time_str (clock w)) i ++ ext)%string,
                     raw) :: more.
Proof.
  intros H. unfold import_one in H.
  step H as t w1 E1. injection E1 as <- <-.
  step H as u2 w2 E2. apply copyfile_Ok in E2 as (raw & G & ->).
  step H as u3 w3 E3. apply media_addFile_Ok in E3 as (raw3 & G3 & ->).
  step H as u4 w4 E4. apply os_remove_Ok in E4 as ->.
  step H as n5 w5 E5. apply new_note_Ok in E5 as [-> _].
  step H as l6 w6 E6. apply subtitle_line_same in E6 as ->.
  step H as n7 w7 E7. apply fill_fields_files in E7 as (F7 & _ & more & M7).
  unfold col_addNote in H. injection H as <- <-.
  cbn [files media set_notes set_files set_media set_clock] in *.
  split.
  - intros ND. rewrite F7. apply remove_entry_NoDup. now apply dict_set_NoDup.
  - exists raw3, more. rewrite M7, <- app_assoc. reflexivity.
Qed.

Lemma import_audio_files cfg pre deck model c :
  forall todo i cc w cc' failed w',
    import_audio cfg pre deck model c i todo cc w = Ok ((cc', failed), w') ->
    (NoDup (List.map fst (files w)) -> NoDup (List.map fst (files w')))
    /\ exists added,
        media w' = media w ++ added
        /\ cc' + (if failed then 1 else 0) <= cc + List.length added.
Proof.
  induction todo as [|[root ext] todo IH];
    intros i cc w cc' failed w' H; simpl in H.
  - done_ret H. split; [auto|]. exists []. rewrite app_nil_r.
    split; [reflexivity | simpl; lia].
  - step H as n w1 E1.
    apply import_one_files in E1 as (ND1 & raw & more & M1).
    destruct (Nat.eqb n 0).
    + done_ret H. split; [exact ND1|]. eexists. split; [exact M1|].
      simpl. lia.
    + apply IH in H as (ND2 & added & M2 & L2).
      split; [auto|]. eexists.
      split; [rewrite M2, M1, <- app_assoc; reflexivity|].
      rewrite length_app. simpl. lia.
Qed.

(** *** The names the classification loop records *)

Lemma classify_file_names pre f c w c' w' :
  classify_file pre f c w = Ok (c', w') ->
  (NoDup (List.map fst (files w)) -> NoDup (List.map fst (files w')))
  /\ std_image_files c'
     = std_image_files c ++ image_std_names pre [f] (clock w)
  /\ clock w' = clock w + List.length (image_std_names pre [f] (clock w)).
Proof.
  unfold classify_file. cbn [image_std_names].
  pose proof (role_cases f) as RC. cbv zeta in RC.
  destruct (splitext f) as [file_root ext] eqn:Sp. cbn [snd] in *.
  destruct RC as [[R A]|[(R & A & S)|[(R & A & S & I)|(R & A & S & I)]]];
    rewrite R, A; try rewrite S; try rewrite I; intros H.
  - done_ret H. simpl. rewrite app_nil_r. auto.
  - done_ret H. simpl. rewrite app_nil_r. auto.
  - step H as t w1 E1. injection E1 as <- <-.
    step H as u w2 E2. apply copyfile_Ok in E2 as (raw & _ & ->).
    done_ret H. cbn [files std_image_files clock set_files set_clock].
    split; [intros ND; now apply dict_set_NoDup|].
    split; [reflexivity | simpl; lia].
  - done_ret H. simpl. rewrite app_nil_r. auto.
Qed.

Lemma image_std_names_cons pre f names k :
  image_std_names pre (f :: names) k
  = image_std_names pre [f] k
    ++ image_std_names pre names (k + List.length (image_std_names pre [f] k)).
Proof.
  cbn [image_std_names]. destruct (role f); simpl;
    rewrite ?Nat.add_0_r, ?Nat.add_1_r; reflexivity.
Qed.

Lemma classify_names pre : forall names c w c' w',
  classify pre names c w = Ok (c', w') ->
  (NoDup (List.map fst (files w)) -> NoDup (List.map fst (files w')))
  /\ std_image_files c'
     = std_image_files c ++ image_std_names pre names (clock w).
Proof.
  induction names as [|f names IH]; intros c w c' w' H.
  - simpl in H. done_ret H. simpl. rewrite app_nil_r. auto.
  - cbn [classify] in H. step H as c1 w1 E1.
    apply classify_file_names in E1 as (ND1 & N1 & C1).
    apply IH in H as (ND2 & N2).
    split; [auto|].
    rewrite N2, N1, C1, <- app_assoc, <- image_std_names_cons. reflexivity.
Qed.

(** *** Removing the copies *)

Lemma remove_images_absent k : forall images w,
  In k images -> ~ In k (List.map fst (files w)) ->
  remove_images images w = Raise FileNotFoundError.
Proof.
  induction images as [|im images IH]; intros w Hin Hk; [contradiction|].
  cbn [remove_images]. unfold bind.
  destruct (os_remove im w) as [[u w1]|e] eqn:E.
  - apply os_remove_Ok in E as Ew. subst w1.
    destruct Hin as [->|Hin].
    + unfold os_remove in E. rewrite (dict_get_fresh _ _ Hk) in E.
      discriminate E.
    + apply IH; [exact Hin|]. cbn [files set_files]. intros Hx.
      apply Hk. eapply remove_entry_keys; eauto.
  - unfold os_remove in E. destruct (dict_get (files w) im); [discriminate|].
    congruence.
Qed.

Lemma remove_images_repeated : forall images w,
  NoDup (List.map fst (files w)) -> ~ NoDup images ->
  remove_images images w = Raise FileNotFoundError.
Proof.
  induction images as [|im images IH]; intros w ND Hd.
  - exfalso. apply Hd. constructor.
  - cbn [remove_images]. unfold bind.
    destruct (os_remove im w) as [[u w1]|e] eqn:E.
    + apply os_remove_Ok in E as Ew. subst w1.
      destruct (remove_entry_NoDup (files w) im ND) as [ND1 Hk].
      destruct (in_dec string_dec im images) as [Hin|Hnin].
      * apply (remove_images_absent im); assumption.
      * apply IH; [exact ND1|]. intros ND'. apply Hd. now constructor.
    + unfold os_remove in E. destruct (dict_get (files w) im); [discriminate|].
      congruence.
Qed.

(** X12: the copies of the image files are removed by name, once per image
    file.  When two image files were given the same name (the clock gave
    the same reading to both, and their extensions agree) the second
    removal finds no file and raises [FileNotFoundError]; so a run that
    completes had a different name for every image file. *)
Theorem image_copies_need_distinct_names :
  (forall images w,
      NoDup (List.map fst (files w)) -> ~ NoDup images ->
      remove_images images w = Raise FileNotFoundError)
  /\ (forall cfg w rep w',
         NoDup (List.map fst (files w)) ->
         run_import cfg w = Ok (rep, w') ->
         NoDup (image_std_names (replace_char " " "." (cfg_prov cfg))
                  (List.map fst (files w)) (clock w))).
Proof.
  split; [exact remove_images_repeated|].
  intros cfg w rep w' ND H. unfold run_import in H.
  step H as deck w1 E1. injection E1 as <- <-.
  step H as model w2 E2. injection E2 as <- <-.
  step H as u3 w3 E3. unfold os_chdir in E3.
  destruct (Str.mem (cfg_dir_path cfg) (paths w)); [|discriminate].
  injection E3 as _ <-.
  step H as names w4 E4. injection E4 as <- <-.
  step H as c w5 E5. step H as r w6 E6. step H as u7 w7 E7.
  apply classify_names in E5 as (ND5 & N5). simpl in N5.
  destruct r as [cc failed].
  apply import_audio_files in E6 as (ND6 & _).
  rewrite <- N5.
  destruct (NoDup_strings_dec (std_image_files c)) as [Y|N]; [exact Y|].
  rewrite (remove_images_repeated _ _ (ND6 (ND5 ND)) N) in E7.
  discriminate E7.
Qed.

(** X13: nothing is taken back.  The media store of a completed run is the
    one it started with followed by what the run added, and the run added
    at least one file for every note it handed to the host, the note that
    came back without cards included: when the failure dialog is shown,
    the media store holds more new files than the collection new notes. *)
Theorem failed_run_keeps_media cfg w rep w' :
  run_import cfg w = Ok (rep, w') ->
  exists added,
    media w' = media w ++ added
    /\ card_count rep + (if is_import_failed rep then 1 else 0)
       <= List.length added
    /\ (shown rep = show_failure_dialog ->
        card_count rep < List.length added).
Proof.
  intros H.
  apply run_import_steps in H as (c & w1 & r & w2 & Ec & Ea & _ & Mw & ->).
  pose proof (classify_images _ _ _ _ _ _ Ec) as (Mc & _).
  destruct r as [cc failed].
  apply import_audio_files in Ea as (_ & added & Ma & L).
  exists added. cbn [card_count is_import_failed shown fst snd].
  split; [now rewrite Mw, Ma, Mc|]. split; [lia|].
  destruct failed; [lia | discriminate].
Qed.

End Leftovers.

(** ** Names *)

Lemma str_app_inv_head (p a b : string) :
  (p ++ a)%string = (p ++ b)%string -> a = b.
Proof. induction p as [|c p IH]; simpl; intros H; [exact H|]. injection H. auto. Qed.

Lemma str_app_inv_tail (e : string) : forall a b : string,
  (a ++ e)%string = (b ++ e)%string -> a = b.
Proof.
  induction a as [|c a IH]; intros [|c' b] H; simpl in H.
  - reflexivity.
  - exfalso. apply (f_equal String.length) in H. simpl in H.
    rewrite StrFacts.length_app in H. lia.
  - exfalso. apply (f_equal String.length) in H. simpl in H.
    rewrite StrFacts.length_app in H. lia.
  - injection H as -> H. f_equal. now apply IH.
Qed.

Lemma existsb_app p (a b : string) :
  Str.existsb p (a ++ b) = Str.existsb p a || Str.existsb p b.
Proof.
  induction a as [|c a IH]; simpl; [reflexivity|].
  now rewrite IH, orb_assoc.
Qed.

Lemma digits_no_paren (d : string) :
  Str.forallb is_digit d = true ->
  Str.existsb (Ascii.eqb "(") (d ++ ")") = false.
Proof.
  induction d as [|c d IH]; [reflexivity|].
  cbn [Str.forallb Str.existsb append]. intros H.
  apply andb_true_iff in H as [Hc Hd]. rewrite (IH Hd).
  destruct (Ascii.eqb_spec "("%char c) as [<-|_]; [discriminate Hc|reflexivity].
Qed.

Lemma of_nat_digits (n : nat) : Str.forallb is_digit (Str.of_nat n) = true.
Proof.
  unfold Str.of_nat. induction (Nat.to_uint n) as [|d IH|d IH|d IH|d IH|d IH
                                                  |d IH|d IH|d IH|d IH|d IH];
    simpl; auto.
Qed.

Lemma of_nat_inj (n m : nat) : Str.of_nat n = Str.of_nat m -> n = m.
Proof.
  unfold Str.of_nat. intros H.
  apply (f_equal NilEmpty.uint_of_string) in H. rewrite !NilEmpty.usu in H.
  injection H as H. now apply DecimalNat.Unsigned.to_uint_inj.
Qed.

(** The last opening bracket of a name decides where the counter begins. *)
Lemma counter_suffix (d d' : string) :
  Str.forallb is_digit d = true -> Str.forallb is_digit d' = true ->
  forall x x' : string,
    (x ++ "(" ++ d ++ ")")%string = (x' ++ "(" ++ d' ++ ")")%string ->
    x = x' /\ d = d'.
Proof.
  intros Hd Hd'. induction x as [|c x IH]; intros [|c' x'] H; simpl in H.
  - injection H as H. split; [reflexivity|].
    apply (digits_then_other d d' ")" ")" EmptyString EmptyString) in H;
      auto. tauto.
  - exfalso. injection H as _ H.
    apply (f_equal (Str.existsb (Ascii.eqb "("))) in H.
    rewrite (digits_no_paren _ Hd), existsb_app in H. simpl in H.
    rewrite orb_true_r in H. discriminate H.
  - exfalso. injection H as _ H.
    apply (f_equal (Str.existsb (Ascii.eqb "("))) in H.
    rewrite (digits_no_paren _ Hd'), existsb_app in H. simpl in H.
    rewrite orb_true_r in H. discriminate H.
  - injection H as -> H. destruct (IH _ H) as [-> ->]. auto.
Qed.

(** X14: the standardized base name of a round tells the round: two audio
    files of one run never get the same name with the same extension,
    whatever the clock returns, because the name ends with the number of
    the round in brackets. *)
Theorem audio_names_differ_by_round (pre t t' ext : string) (i j : nat) :
  (audio_std_root pre t i ++ ext)%string
  = (audio_std_root pre t' j ++ ext)%string ->
  i = j /\ t = t'.
Proof.
  intros H. apply str_app_inv_tail in H. unfold audio_std_root in H.
  apply str_app_inv_head in H.
  change (".audio-" ++ t ++ "(" ++ Str.of_nat (i + 1) ++ ")")%string
    with (".audio-" ++ (t ++ "(" ++ Str.of_nat (i + 1) ++ ")"))%string in H.
  apply (str_app_inv_head ".audio-") in H.
  apply counter_suffix in H as [-> D]; try apply of_nat_digits.
  apply of_nat_inj in D. split; [lia | reflexivity].
Qed.

(** *** Entries without an extension *)

Lemma rfind_absent c s :
  Str.forallb (fun a => negb (Ascii.eqb a c)) s = true -> Str.rfind c s = None.
Proof.
  induction s as [|a s IH]; simpl; [reflexivity|].
  intros H. apply andb_true_iff in H as [Ha Hs]. rewrite (IH Hs).
  apply negb_true_iff in Ha. now rewrite Ha.
Qed.

Lemma rfind_in_dots (dots rest : string) :
  Str.forallb (fun a => negb (Ascii.eqb a ".")) rest = true ->
  forall n, Str.rfind "." (dots ++ rest) = Some n -> n < String.length dots.
Proof.
  intros Hr. induction dots as [|c dots IH]; simpl; intros n H.
  - rewrite (rfind_absent _ _ Hr) in H. discriminate H.
  - destruct (Str.rfind "." (dots ++ rest)) as [m|] eqn:E.
    + injection H as <-. specialize (IH m eq_refl). lia.
    + destruct (Ascii.eqb c "."); [|discriminate]. injection H as <-. lia.
Qed.

Lemma take_of_dots (rest : string) : forall (dots : string) n,
  Str.forallb (Ascii.eqb ".") dots = true -> n <= String.length dots ->
  Str.existsb (fun a => negb (Ascii.eqb a "."))
    (Str.take n (dots ++ rest)) = false.
Proof.
  induction dots as [|c dots IH]; intros [|n] Hd Hn;
    cbn [Str.forallb Str.take Str.existsb append String.length] in *;
    try reflexivity; try lia.
  apply andb_true_iff in Hd as [Hc Hd]. rewrite IH by (auto; lia).
  apply Ascii.eqb_eq in Hc. subst c. reflexivity.
Qed.

Lemma splitext_without_extension (dots rest : string) :
  Str.forallb (Ascii.eqb ".") dots = true ->
  Str.forallb (fun a => negb (Ascii.eqb a ".")) rest = true ->
  splitext (dots ++ rest) = ((dots ++ rest)%string, EmptyString).
Proof.
  intros Hd Hr. unfold splitext.
  destruct (Str.rfind "." (dots ++ rest)) as [n|] eqn:E; [|reflexivity].
  apply (rfind_in_dots _ _ Hr) in E.
  rewrite take_of_dots by (auto; lia). reflexivity.
Qed.

Section Entries.

Context {P : Platform}.

(** X15: an entry without an extension is passed over: a name without a
    dot, and a name whose only dots are leading ones (an entry called
    [.mp3] has no extension), has no role, and the classification loop
    leaves its lists and the world as they are, the empty string being no
    media type. *)
Theorem entry_without_extension_is_ignored (dots rest : string) :
  ~ In EmptyString AUDIO_TYPES -> ~ In EmptyString IMAGE_TYPES ->
  Str.forallb (Ascii.eqb ".") dots = true ->
  Str.forallb (fun a => negb (Ascii.eqb a ".")) rest = true ->
  role (dots ++ rest) = Ignored
  /\ forall pre c w, classify_file pre (dots ++ rest) c w = Ok (c, w).
Proof.
  intros Ha Hi Hd Hr. unfold role, classify_file.
  rewrite (splitext_without_extension _ _ Hd Hr). cbn [Str.tail lower Str.map].
  rewrite (mem_false _ _ Ha), (mem_false _ _ Hi).
  change (Str.mem EmptyString SUB_TYPES) with false. auto.
Qed.

(** X16: the classification loop keeps the listing: joined again, the base
    names and extensions it records for the audio files are the audio
    entries of the listing, in its order, and likewise for the subtitle
    files; and the image files are copied under the names made with the
    consecutive readings of the clock, first file first. *)
Theorem classification_keeps_listing pre names w c w' :
  classify pre names (mkClassified [] [] []) w = Ok (c, w') ->
  List.map (fun p => (fst p ++ snd p)%string) (audio_files c)
  = with_role Audio names
  /\ List.map (fun p => (fst p ++ snd p)%string) (sub_files c)
     = with_role Subtitle names
  /\ std_image_files c = image_std_names pre names (clock w).
Proof.
  intros H.
  pose proof (classify_lists _ _ _ _ _ _ H) as (La & Ls & _).
  simpl in La, Ls. rewrite La, Ls, !map_map.
  split; [|split].
  - rewrite <- (map_id (with_role Audio names)) at 2.
    apply map_ext. intros f. apply splitext_join.
  - rewrite <- (map_id (with_role Subtitle names)) at 2.
    apply map_ext. intros f. apply splitext_join.
  - apply classify_names in H as (_ & N). exact N.
Qed.

End Entries.

(** ** The further theorems at the scenario *)

Lemma scenario_opened :
  init (P := Scenario.P1) Scenario.w0 = Ok (ScenarioDialog.opened, Scenario.w0).
Proof. vm_compute. reflexivity. Defined.

Lemma scenario_closed :
  exec_ (P := Scenario.P1) ScenarioDialog.user ScenarioDialog.opened Scenario.w0
  = Ok (ScenarioDialog.closed, ScenarioDialog.saved).
Proof. vm_compute. reflexivity. Defined.


Lemma scenario_dialog_grid_ok : grid_ok Scenario.w0 Scenario.dialog.
Proof.
  unfold grid_ok. split; [|split].
  - vm_compute. repeat constructor; discriminate.
  - intros E. discriminate E.
  - intros _. exists ["Front"; "Back"]. split; reflexivity.
Defined.

Lemma cancelled_import_changes_nothing_scenario :
  exists w', ScenarioDialog.cancelled = Ok (None, w') /\ w' = Scenario.w0.
Proof.
  destruct ScenarioDialog.cancelled as [[[r|] w']|e] eqn:E;
    try (vm_compute in E; discriminate).
  exists w'. split; [reflexivity|].
  exact (cancelled_import_changes_nothing (P := Scenario.P1) _ _ _ E).
Defined.

Lemma confirmed_dialog_is_saved_scenario :
  ScenarioDialog.saved
  = set_settings_json
      (Some (json_dumps (Platform := Scenario.P1)
               (settings_doc ScenarioDialog.closed)))
      Scenario.w0
  /\ dirPath ScenarioDialog.closed <> EmptyString
  /\ In (dirPath ScenarioDialog.closed) (paths Scenario.w0)
  /\ prov ScenarioDialog.closed <> EmptyString
  /\ get_result ScenarioDialog.closed = Some Demo.scenario_config.
Proof.
  exact (confirmed_dialog_is_saved (P := Scenario.P1) ScenarioDialog.user
           Scenario.w0 ScenarioDialog.opened Scenario.w0 ScenarioDialog.closed
           ScenarioDialog.saved scenario_opened scenario_closed eq_refl).
Defined.

Lemma confirmed_field_map_fits_scenario :
  exists flds,
    dict_get (models Scenario.w0) (modelName ScenarioDialog.closed) = Some flds
    /\ NoDup (List.map fst (fieldMap ScenarioDialog.closed))
    /\ (forall f, In f flds
                  <-> In f (List.map fst (fieldMap ScenarioDialog.closed)))
    /\ (forall f idx,
           In (f, idx) (fieldMap ScenarioDialog.closed) ->
           (-1 <= idx < Z.of_nat (List.length FILLING_OPTIONS))%Z).
Proof.
  exact (confirmed_field_map_fits (P := Scenario.P1) ScenarioDialog.user
           Scenario.w0 ScenarioDialog.opened Scenario.w0 ScenarioDialog.closed
           ScenarioDialog.saved scenario_opened scenario_closed eq_refl).
Defined.

Lemma chosen_option_is_stored_scenario :
  exists d1 w1,
    ScenarioDialog.rechosen = Ok (d1, w1)
    /\ dict_get (fieldMap d1) "Back" = Some 4%Z.
Proof.
  destruct ScenarioDialog.rechosen as [[d1 w1]|e] eqn:E;
    [|vm_compute in E; discriminate].
  pose proof E as E'. vm_compute in E'. injection E' as Hd Hw.
  exists d1, w1. split; [reflexivity|].
  apply (chosen_option_is_stored (P := Scenario.P1) EmptyString Scenario.dialog
           Scenario.w0 d1 w1 1 4%Z "Back" (-1)%Z scenario_dialog_grid_ok).
  - reflexivity.
  - vm_compute. repeat constructor; simpl; intuition discriminate.
  - reflexivity.
  - vm_compute. split; [discriminate | reflexivity].
  - exact E.
  - rewrite <- Hd. reflexivity.
Defined.



Lemma strip_timestamps_leading_scenario :
  strip_timestamps ("[00:00:01]" ++ "Hello") = strip_timestamps "Hello"
  /\ strip_timestamps ("Hello " ++ "[00:00:01]world")
     = ("Hello " ++ strip_timestamps "[00:00:01]world")%string
  /\ strip_timestamps "Hello" = "Hello"%string.
Proof.
  destruct strip_timestamps_leading as (T & K & N).
  split; [|split].
  - apply T. apply timestamp_shape. exists "00"%string, "00"%string, "01"%string.
    repeat split; try discriminate; reflexivity.
  - apply K. reflexivity.
  - apply N. reflexivity.
Defined.

Lemma ok_on_missing_directory_scenario :
  accept (P := Scenario.P1) "/home/user/Show S01"
    (browse_dir "/home/user/Gone" ScenarioDialog.opened) Scenario.w0
  = Ok (browse_dir "/home/user/Show S01"
          (browse_dir "/home/user/Gone" ScenarioDialog.opened), Scenario.w0)
  /\ exec_ (P := Scenario.P1) [OkClicked "/home/user/Show S01"; CancelClicked]
       (browse_dir "/home/user/Gone" ScenarioDialog.opened) Scenario.w0
     = exec_ (P := Scenario.P1) [CancelClicked]
         (browse_dir "/home/user/Show S01"
            (browse_dir "/home/user/Gone" ScenarioDialog.opened)) Scenario.w0.
Proof.
  apply (ok_on_missing_directory (P := Scenario.P1) "/home/user/Show S01"
           [CancelClicked] (browse_dir "/home/user/Gone" ScenarioDialog.opened)
           Scenario.w0).
  - reflexivity.
  - right. vm_compute. intuition discriminate.
Defined.

Lemma submitted_note_shape_scenario :
  exists rep w',
    Scenario.run = Ok (rep, w')
    /\ forall note n,
        In (note, n) (submitted w') ->
        note_model note = "Basic"%string /\ note_did note = "Lines"%string
        /\ List.map fst (note_fields note) = ["Front"; "Back"]%string
        /\ note_tags note = ["show"]%string.
Proof.
  destruct Scenario.run as [[rep w']|e] eqn:E;
    [|vm_compute in E; discriminate].
  exists rep, w'. split; [reflexivity|]. intros note n Hin.
  destruct (submitted_note_shape (P := Scenario.P1) Demo.scenario_config
              Scenario.w0 rep w' E) as (attempts & S & Each).
  simpl in S. rewrite S in Hin.
  destruct (Each note n Hin) as (flds & M & _ & Hm & Hd & Hf & Ht).
  vm_compute in M. injection M as <-. auto.
Defined.

Lemma note_of_audio_file_scenario :
  exists rep w',
    ScenarioPlain.run = Ok (rep, w')
    /\ forall note n,
        In (note, n) (submitted w') ->
        dict_get (note_fields note) "Back" = Some "Show S01"%string
        /\ exists t k,
            dict_get (note_fields note) "Front"
            = Some (audio_std_root "Show.S01" t k).
Proof.
  destruct ScenarioPlain.run as [[rep w']|e] eqn:E;
    [|vm_compute in E; discriminate].
  exists rep, w'. split; [reflexivity|]. intros note n Hin.
  destruct (note_of_audio_file (P := Scenario.P1) ScenarioPlain.config
              Scenario.w0 rep w' E) as (attempts & S & Each).
  { vm_compute. repeat constructor; simpl; intuition discriminate. }
  simpl in S. rewrite S in Hin. apply In_nth_error in Hin as [k Hk].
  destruct (Each k note n Hk) as (root & ext & t & raw & _ & _ & Hf & _).
  split.
  - apply (Hf "Back"%string 2%Z FILL_PROV); [right; left|..]; reflexivity.
  - exists t, k.
    apply (Hf "Front"%string 1%Z FILL_FILENAME); [left|..]; reflexivity.
Defined.

Lemma subtitle_undecodable_or_unreadable_scenario :
  subtitle_line (P := Scenario.P1) "a"
    (List.map splitext (with_role (P := Scenario.P1) Subtitle
                          ScenarioLatin1.names))
    ScenarioLatin1.w0
  = Ok (EmptyString, ScenarioLatin1.w0)
  /\ subtitle_line (P := Scenario.P1) "a"
       (List.map splitext (with_role (P := Scenario.P1) Subtitle
                             ScenarioLatin1.names))
       (set_files [("a.mp3", "ID3-a"%string)] ScenarioLatin1.w0)
     = Raise FileNotFoundError.
Proof.
  split.
  - apply (proj1 (subtitle_undecodable_or_unreadable (P := Scenario.P1)
                    ScenarioLatin1.names "a" ScenarioLatin1.w0 "a.lrc"
                    eq_refl) (String (ascii_of_nat 233) "t"));
      reflexivity.
  - apply (proj2 (subtitle_undecodable_or_unreadable (P := Scenario.P1)
                    ScenarioLatin1.names "a"
                    (set_files [("a.mp3", "ID3-a"%string)] ScenarioLatin1.w0)
                    "a.lrc" eq_refl)).
    reflexivity.
Defined.

Lemma note_carries_file_and_subtitle_scenario :
  exists rep w',
    Scenario.run = Ok (rep, w')
    /\ exists first rest,
        submitted w' = first :: rest
        /\ In ("Show.S01.audio-1700000000.1(1).mp3"%string, "ID3-a"%string)
             (media w')
        /\ dict_get (note_fields (fst first)) "Back" = Some "Hello"%string.
Proof.
  destruct Scenario.run as [[rep w']|e] eqn:E;
    [|vm_compute in E; discriminate].
  exists rep, w'. split; [reflexivity|].
  destruct (note_carries_file_and_subtitle (P := Scenario.P1)
              Demo.scenario_config Scenario.w0 rep w' scenario_ready)
    as (attempts & S & Each).
  { vm_compute. repeat constructor; simpl; intuition discriminate. }
  { exact E. }
  simpl in S.
  assert (L : exists first rest, attempts = first :: rest).
  { pose proof E as E'. vm_compute in E'. injection E' as _ Hw.
    rewrite <- S, <- Hw. vm_compute. eauto. }
  destruct L as ([note n] & rest & ->).
  exists (note, n), rest. split; [exact S|].
  destruct (Each 0 note n eq_refl) as (root & ext & raw & line & N & G & M & L' & F).
  vm_compute in N. injection N as <- <-.
  vm_compute in G. injection G as <-.
  vm_compute in L'. injection L' as <-.
  split; [exact M|].
  apply (F "Back"%string 4%Z); [right; left|]; reflexivity.
Defined.

Lemma image_copies_need_distinct_names_scenario :
  ScenarioSameTick.run = Raise FileNotFoundError
  /\ remove_images
       ["Show.S01.image-1700000000.5.jpg"; "Show.S01.image-1700000000.5.jpg"]
       ScenarioSameTick.copied
     = Raise FileNotFoundError
  /\ NoDup (image_std_names (P := Scenario.P1) "Show.S01"
              (List.map fst (files Scenario.w0)) (clock Scenario.w0)).
Proof.
  split; [vm_compute; reflexivity|]. split.
  - apply (proj1 (image_copies_need_distinct_names (P := ScenarioSameTick.P0))).
    + vm_compute. repeat constructor; simpl; intuition discriminate.
    + intros ND. inversion ND as [|? ? Hnot _]. apply Hnot. left. reflexivity.
  - destruct Scenario.run as [[rep w']|e] eqn:E;
      [|vm_compute in E; discriminate].
    apply (proj2 (image_copies_need_distinct_names (P := Scenario.P1))
             Demo.scenario_config Scenario.w0 rep w'); [|exact E].
    vm_compute. repeat constructor; simpl; intuition discriminate.
Defined.

Lemma failed_run_keeps_media_scenario :
  exists rep w',
    ScenarioNoCards.run = Ok (rep, w')
    /\ shown rep = show_failure_dialog
    /\ card_count rep = 0
    /\ exists added,
        media w' = media Scenario.w0 ++ added /\ 0 < List.length added.
Proof.
  destruct ScenarioNoCards.run as [[rep w']|e] eqn:E;
    [|vm_compute in E; discriminate].
  pose proof E as E'. vm_compute in E'. injection E' as Hr Hw.
  exists rep, w'. split; [reflexivity|].
  assert (Hs : shown rep = show_failure_dialog) by (now rewrite <- Hr).
  assert (Hc : card_count rep = 0) by (now rewrite <- Hr).
  split; [exact Hs|]. split; [exact Hc|].
  destruct (failed_run_keeps_media (P := ScenarioNoCards.P0)
              Demo.scenario_config Scenario.w0 rep w' E)
    as (added & M & _ & F).
  exists added. split; [exact M|]. rewrite <- Hc. exact (F Hs).
Defined.

Lemma audio_names_differ_by_round_scenario :
  2 = 2 /\ "1700000000.2"%string = "1700000000.2"%string.
Proof.
  apply (audio_names_differ_by_round "Show.S01" "1700000000.2" "1700000000.2"
           ".mp3" 2 2).
  reflexivity.
Defined.

Lemma entry_without_extension_is_ignored_scenario :
  role (P := Scenario.P1) ".mp3" = Ignored
  /\ forall pre c w,
      classify_file (P := Scenario.P1) pre ".mp3" c w = Ok (c, w).
Proof.
  apply (entry_without_extension_is_ignored (P := Scenario.P1) "." "mp3");
    try reflexivity; vm_compute; intuition discriminate.
Defined.

Lemma classification_keeps_listing_scenario :
  exists c w',
    Scenario.classified = Ok (c, w')
    /\ List.map (fun p => (fst p ++ snd p)%string) (audio_files c)
       = ["a.mp3"; "b.mp3"]%string
    /\ List.map (fun p => (fst p ++ snd p)%string) (sub_files c)
       = ["a.lrc"]%string
    /\ std_image_files c = ["Show.S01.image-1700000000.0.jpg"]%string.
Proof.
  destruct Scenario.classified as [[c w']|e] eqn:E;
    [|vm_compute in E; discriminate].
  exists c, w'. split; [reflexivity|].
  destruct (classification_keeps_listing (P := Scenario.P1) _ _ _ _ _ E)
    as (A & S & I).
  rewrite A, S, I. repeat split; reflexivity.
Defined.
